(** * Comment pipeline and fetch/sweep scheduler: a shallow embedding

    The development follows the Python sources:
    - [config.py]                  -> section "Configuration"
    - [core/ai_processor.py]       -> section "AI processor"
    - [database/crud.py]           -> section "Repository"
    - [core/comment_processor.py]  -> section "Comment processor"
    - [utils/scheduler.py]         -> section "Scheduler"

    Modelling conventions.
    - Python [str] is [string]; [str.lower] and [in] are the ASCII versions.
    - Python [float] confidences are rationals [Q]; the only arithmetic on
      them, in [_calculate_confidence], is exact on the constants used.
    - The SQLAlchemy session is a record of tables, each a list of rows in
      insertion order, with one counter per primary key.  Every CRUD call
      commits at once, so the tables survive a later exception.  Failures of
      the database itself (constraints, connection) are outside the model.
    - Python exceptions are the [Raise] outcome of the monad [M]; the state
      reached before the exception is kept, as in Python.
    - Everything behind a network call (the language model, the platform
      adapters) is read from an environment [Env], indexed by the number of
      external events so far, and every such call is recorded in [trace].
    - Rows carry the columns the pipeline and the scheduler read or write;
      the JSON metadata, the author id, the parent comment, the URL and the
      media kind are left out, and so is the [ghl_actions] table.  A row's
      creation time is its position in its table.
    - A model constructor refuses a keyword that names no attribute of its
      class.  Of the dicts the adapters and the pipeline build, the post
      dict of the YouTube adapter is the one with such a key, "title";
      [PostData] carries it. *)

From Stdlib Require Import List String Ascii Bool Arith ZArith QArith Qminmax Lia.
Import ListNotations.
Open Scope string_scope.

Set Implicit Arguments.

(* ------------------------------------------------------------------ *)
(** ** Python strings *)

Definition lower_ascii (c : ascii) : ascii :=
  let n := nat_of_ascii c in
  if (65 <=? n)%nat && (n <=? 90)%nat then ascii_of_nat (n + 32) else c.

(** [s.lower()] *)
Fixpoint lower (s : string) : string :=
  match s with
  | EmptyString => EmptyString
  | String c s' => String (lower_ascii c) (lower s')
  end.

(** [needle in hay] on strings *)
Fixpoint contains (needle hay : string) : bool :=
  String.prefix needle hay ||
  match hay with
  | EmptyString => false
  | String _ hay' => contains needle hay'
  end.

(** [any(word in text for word in words)] *)
Definition any_in (words : list string) (text : string) : bool :=
  existsb (fun word => contains word text) words.

(** [x in [a, b, ...]] on strings *)
Definition mem (x : string) (l : list string) : bool :=
  existsb (String.eqb x) l.

Definition is_space (c : ascii) : bool :=
  let n := nat_of_ascii c in
  ((9 <=? n)%nat && (n <=? 13)%nat) || ((28 <=? n)%nat && (n <=? 32)%nat).

Fixpoint lstrip (l : list ascii) : list ascii :=
  match l with
  | c :: l' => if is_space c then lstrip l' else l
  | [] => []
  end.

(** [s.strip()] *)
Definition strip (s : string) : string :=
  string_of_list_ascii
    (rev (lstrip (rev (lstrip (list_ascii_of_string s))))).

(** [len(s.split())]: the number of maximal runs of non-space characters;
    [in_word] tells whether the previous character belonged to a word. *)
Fixpoint count_words (in_word : bool) (l : list ascii) : nat :=
  match l with
  | [] => 0
  | c :: l' =>
      if is_space c then count_words false l'
      else if in_word then count_words true l'
      else S (count_words true l')
  end.

Definition word_count (s : string) : nat :=
  count_words false (list_ascii_of_string s).

(* ------------------------------------------------------------------ *)
(** ** Configuration ([config.py]) *)

Record Settings := mkSettings {
  fetch_interval : nat;
  max_comments_per_fetch : nat;
  auto_approve_confidence : Q;
  max_reply_tokens : nat
}.

Definition default_settings : Settings :=
  {| fetch_interval := 300;
     max_comments_per_fetch := 50;
     auto_approve_confidence := 0.8%Q;
     max_reply_tokens := 200 |}.

(** [COMMENT_TYPES], in the order of the dict literal: the keywords of each
    category. *)
Definition COMMENT_TYPES : list (string * list string) :=
  [ ("lead",
     ["interested"; "how much"; "price"; "buy"; "want"; "need"; "sign up"]);
    ("praise",
     ["amazing"; "great"; "awesome"; "love"; "fantastic"; "thank you"]);
    ("question",
     ["?"; "how"; "what"; "when"; "where"; "why"; "can you"]);
    ("complaint",
     ["problem"; "issue"; "wrong"; "bad"; "terrible"; "hate"; "disappointed"]);
    ("spam",
     ["click here"; "follow me"; "check my"; "dm me"; "link in bio"]) ].

(** The platforms of [TaskScheduler.integrations], in dict order. *)
Definition PLATFORMS : list string :=
  ["youtube"; "facebook"; "instagram"; "linkedin"; "twitter"].

(* ------------------------------------------------------------------ *)
(** ** Data model ([database/models.py]) *)

Record Post := mkPost {
  post_id : nat;
  post_platform : string;
  platform_post_id : string;
  post_content : option string
}.

Record Comment := mkComment {
  comment_id : nat;
  c_post_id : option nat;
  c_platform : string;
  platform_comment_id : string;
  c_author : option string;
  c_content : option string;
  comment_type : option string;
  sentiment : option string;
  c_confidence : option Q;
  has_reply : bool
}.

Record Triggers := mkTriggers {
  tags : list string;
  workflows : list string
}.

Record Reply := mkReply {
  reply_id : nat;
  r_comment_id : nat;
  r_content : string;
  status : string;
  reply_type : string;
  platform_reply_id : option string;
  r_confidence : option Q;
  ghl_triggers : Triggers;
  posted_at : option nat;
  approved_at : option nat;
  approved_by : option string
}.

Record Setting := mkSetting {
  s_key : string;
  s_value : option string
}.

Record Metric := mkMetric {
  m_date : nat;
  m_platform : string;
  metric_type : string
}.

(* ------------------------------------------------------------------ *)
(** ** External events and the environment *)

Inductive Event :=
| ModelCall (purpose text : string)
    (* [self.client.chat.completions.create] *)
| AdapterFetchPosts (platform : string)
| AdapterFetchComments (platform post : string)
| AdapterPost (platform : string) (target : option string) (text : string)
    (* [integration.reply_to_comment] / [reply_to_tweet] *)
| Notify (update_type : string)
    (* [notify_update]: every registered callback is invoked *)
| CRM (comment : nat) (wfs : list string).
    (* [_process_ghl_actions] *)

(** What a platform adapter's reply method does: it returns a result dict
    ([success], [reply_id]) or raises. *)
Inductive PostResponse :=
| PostRaises
| PostReturns (success : bool) (rid : option string).

(** [metadata] of a raw comment: a dict, of which the scheduler reads four
    keys, or some object that is not a dict. *)
Inductive Metadata :=
| MdDict (md_post_id md_video_id md_media_id md_post_urn : option string)
| MdOther.

(** A raw comment dict; [None] is an absent key. *)
Record CommentData := mkCommentData {
  cd_platform : option string;
  cd_platform_comment_id : option string;
  cd_content : option string;
  cd_author : option string;
  cd_post_id : option nat;
  cd_metadata : option Metadata;
  cd_comment_type : option string;
  cd_confidence : option Q
}.

(** A post dict as the adapters build it.  ["title"] is an entry of the
    YouTube adapter's dicts only; [Post] declares no such attribute. *)
Record PostData := mkPostData {
  pd_platform : string;
  pd_platform_post_id : string;
  pd_content : option string;
  pd_title : option string
}.

Record Env := mkEnv {
  (* the try block of [classify_comment]: [None] when the call or the
     parsing of its JSON answer raises *)
  classify_response : nat -> option (string * Q);
  (* the model's reply text; [None] when the call raises *)
  generate_response : nat -> option string;
  (* [analyze_sentiment]'s model call: [None] when the call or the parsing
     raises, [Some None] when the parsed answer has no "sentiment" entry *)
  sentiment_response : nat -> option (option string);
  post_response : nat -> PostResponse;
  is_configured : string -> bool;
  fetched_posts : nat -> list PostData;
  fetched_comments : nat -> list CommentData;
  utcnow : nat -> nat
}.

(* ------------------------------------------------------------------ *)
(** ** Session state and the exception monad *)

Record State := mkState {
  posts : list Post;
  comments : list Comment;
  replies : list Reply;
  settings_rows : list Setting;
  analytics : list Metric;
  next_post_id : nat;
  next_comment_id : nat;
  next_reply_id : nat;
  last_fetch : list (string * nat);
  trace : list Event
}.

Definition init : State :=
  {| posts := []; comments := []; replies := []; settings_rows := [];
     analytics := []; next_post_id := 1; next_comment_id := 1;
     next_reply_id := 1; last_fetch := []; trace := [] |}.

Inductive Exn :=
| KeyError (key : string)
| TypeError (msg : string)
| AttributeError (msg : string)
| AdapterError.

Inductive result (A : Type) :=
| Ok (a : A)
| Raise (e : Exn).

Arguments Raise {A} e.

Definition M (A : Type) : Type := State -> result A * State.

Definition ret {A} (a : A) : M A := fun st => (Ok a, st).

Definition raise {A} (e : Exn) : M A := fun st => (Raise e, st).

Definition bind {A B} (m : M A) (f : A -> M B) : M B :=
  fun st =>
    match m st with
    | (Ok a, st') => f a st'
    | (Raise e, st') => (Raise e, st')
    end.

(** [try: m except Exception as e: h e] *)
Definition catch {A} (m : M A) (h : Exn -> M A) : M A :=
  fun st =>
    match m st with
    | (Ok a, st') => (Ok a, st')
    | (Raise e, st') => h e st'
    end.

Declare Scope py_scope.
Delimit Scope py_scope with py.
Notation "x <- m ;; k" := (bind m (fun x => k))
  (at level 61, m at next level, right associativity) : py_scope.
Notation "m ;;; k" := (bind m (fun _ => k))
  (at level 61, right associativity) : py_scope.
Open Scope py_scope.

(** [for x in l: body x] *)
Fixpoint for_each {A} (l : list A) (body : A -> M unit) : M unit :=
  match l with
  | [] => ret tt
  | x :: l' => body x ;;; for_each l' body
  end.

(** [d[key]] on an optional entry *)
Definition subscript {A} (key : string) (o : option A) : M A :=
  match o with
  | Some a => ret a
  | None => raise (KeyError key)
  end.

(** [o.name] on an object that may be [None] *)
Definition attribute {A} (name : string) (o : option A) : M A :=
  match o with
  | Some a => ret a
  | None => raise (AttributeError name)
  end.

Definition get_state : M State := fun st => (Ok st, st).

Definition modify (f : State -> State) : M unit := fun st => (Ok tt, f st).

Definition emit (e : Event) (st : State) : State :=
  {| posts := posts st; comments := comments st; replies := replies st;
     settings_rows := settings_rows st; analytics := analytics st;
     next_post_id := next_post_id st; next_comment_id := next_comment_id st;
     next_reply_id := next_reply_id st; last_fetch := last_fetch st;
     trace := trace st ++ [e] |}.

(** An external call: its answer is the environment's at the current
    instant, and the call is recorded. *)
Definition external {A} (e : Event) (answer : nat -> A) : M A :=
  fun st => (Ok (answer (List.length (trace st))), emit e st).

Definition now (env : Env) : M nat :=
  fun st => (Ok (utcnow env (List.length (trace st))), st).

(* ------------------------------------------------------------------ *)
(** ** AI processor ([core/ai_processor.py]) *)

Record Classification := mkClassification {
  cl_confidence : Q;
  cl_method : string;
  matched_keywords : list string
}.

Record ReplyResult := mkReplyResult {
  rr_reply : string;
  rr_confidence : Q;
  rr_triggers : Triggers;
  rr_needs_approval : bool;
  rr_error : bool
}.

(** [confidence >= threshold] and [confidence < threshold] *)
Definition Qge_bool (x y : Q) : bool := Qle_bool y x.

Definition Qlt_bool (x y : Q) : bool :=
  match (x ?= y)%Q with
  | Lt => true
  | _ => false
  end.

(** [AIProcessor._detect_triggers] *)
Definition _detect_triggers (comment reply comment_type : string) : Triggers :=
  let combined_text := lower (comment ++ " " ++ reply) in
  let lead :=
    String.eqb comment_type "lead"
    || any_in ["interested"; "price"; "buy"; "info"] combined_text in
  let support :=
    String.eqb comment_type "complaint"
    || any_in ["help"; "problem"; "issue"] combined_text in
  let testimonial := String.eqb comment_type "praise" in
  let high_value :=
    any_in ["course"; "program"; "coaching"; "consultation"] combined_text in
  {| tags :=
       (if lead then ["hot_lead"] else [])
       ++ (if support then ["needs_support"] else [])
       ++ (if testimonial then ["happy_customer"] else [])
       ++ (if high_value then ["high_value_prospect"] else []);
     workflows :=
       (if lead then ["lead_nurture"] else [])
       ++ (if support then ["customer_service"] else [])
       ++ (if testimonial then ["testimonial_request"] else [])
       ++ (if high_value then ["sales_followup"] else []) |}.

(** [AIProcessor._calculate_confidence] *)
Definition _calculate_confidence (comment_type reply : string) : Q :=
  let base_confidence := 0.7%Q in
  let base_confidence :=
    if mem comment_type ["praise"; "general"] then (base_confidence + 0.15)%Q
    else if mem comment_type ["lead"; "complaint"] then (base_confidence - 0.1)%Q
    else base_confidence in
  let base_confidence :=
    if (20 <=? word_count reply)%nat && (word_count reply <=? 50)%nat
    then (base_confidence + 0.05)%Q
    else base_confidence in
  Qmin (Qmax base_confidence 0.1%Q) 1.0%Q.

(** [AIProcessor._get_fallback_reply] *)
Definition _get_fallback_reply (comment_type platform : string) : string :=
  if String.eqb comment_type "praise" then
    "Thank you so much for your kind words! ðŸ™"
  else if String.eqb comment_type "question" then
    "Great question! Let me get back to you on this."
  else if String.eqb comment_type "lead" then
    "Thanks for your interest! Please check the link in bio for more details."
  else if String.eqb comment_type "complaint" then
    "I appreciate your feedback and want to help. Please DM me so we can resolve this."
  else if String.eqb comment_type "general" then
    "Thanks for being part of this community! ðŸ™Œ"
  else "Thanks for your comment!".

Section AIProcessor.

Variable cfg : Settings.
Variable env : Env.

(** [AIProcessor._needs_approval] *)
Definition _needs_approval (comment_type : string) (confidence : Q) : bool :=
  if mem comment_type ["praise"; "general"]
     && Qge_bool confidence (auto_approve_confidence cfg)
  then false
  else if mem comment_type ["complaint"; "lead"] then true
  else Qlt_bool confidence (auto_approve_confidence cfg).

(** The keyword test of one entry of [COMMENT_TYPES]. *)
Definition keyword_hit (comment_lower : string)
    (entry : string * list string) : bool :=
  any_in (snd entry) comment_lower.

(** [AIProcessor.classify_comment] *)
Definition classify_comment (comment_text platform : string)
  : M (string * Classification) :=
  let comment_lower := lower comment_text in
  match find (keyword_hit comment_lower) COMMENT_TYPES with
  | Some (comment_type, keywords) =>
      ret (comment_type,
           {| cl_confidence := 0.85%Q;
              cl_method := "keyword";
              matched_keywords :=
                filter (fun k => contains k comment_lower) keywords |})
  | None =>
      answer <- external (ModelCall "classify" comment_text)
                         (classify_response env) ;;
      match answer with
      | Some (type, confidence) =>
          ret (type,
               {| cl_confidence := confidence;
                  cl_method := "ai";
                  matched_keywords := [] |})
      | None =>
          ret ("general",
               {| cl_confidence := 0.5%Q;
                  cl_method := "fallback";
                  matched_keywords := [] |})
      end
  end.

(** [AIProcessor.generate_reply] *)
Definition generate_reply (comment_text comment_type platform : string)
    (post_context : option string) (author_name : string) : M ReplyResult :=
  answer <- external (ModelCall "generate" comment_text)
                     (generate_response env) ;;
  match answer with
  | Some content =>
      let reply_text := strip content in
      let triggers := _detect_triggers comment_text reply_text comment_type in
      let confidence := _calculate_confidence comment_type reply_text in
      ret {| rr_reply := reply_text;
             rr_confidence := confidence;
             rr_triggers := triggers;
             rr_needs_approval := _needs_approval comment_type confidence;
             rr_error := false |}
  | None =>
      ret {| rr_reply := _get_fallback_reply comment_type platform;
             rr_confidence := 0.3%Q;
             rr_triggers := {| tags := []; workflows := [] |};
             rr_needs_approval := true;
             rr_error := true |}
  end.

(** [AIProcessor.analyze_sentiment]: the "sentiment" entry of the dict it
    returns, when there is one. *)
Definition analyze_sentiment (text : string) : M (option string) :=
  answer <- external (ModelCall "sentiment" text) (sentiment_response env) ;;
  match answer with
  | Some parsed => ret parsed
  | None => ret (Some "neutral")
  end.

End AIProcessor.

(* ------------------------------------------------------------------ *)
(** ** Repository ([database/crud.py]) *)

Definition set_posts (l : list Post) (n : nat) (st : State) : State :=
  {| posts := l; comments := comments st; replies := replies st;
     settings_rows := settings_rows st; analytics := analytics st;
     next_post_id := n; next_comment_id := next_comment_id st;
     next_reply_id := next_reply_id st; last_fetch := last_fetch st;
     trace := trace st |}.

Definition set_comments (l : list Comment) (n : nat) (st : State) : State :=
  {| posts := posts st; comments := l; replies := replies st;
     settings_rows := settings_rows st; analytics := analytics st;
     next_post_id := next_post_id st; next_comment_id := n;
     next_reply_id := next_reply_id st; last_fetch := last_fetch st;
     trace := trace st |}.

Definition set_replies (l : list Reply) (n : nat) (st : State) : State :=
  {| posts := posts st; comments := comments st; replies := l;
     settings_rows := settings_rows st; analytics := analytics st;
     next_post_id := next_post_id st; next_comment_id := next_comment_id st;
     next_reply_id := n; last_fetch := last_fetch st;
     trace := trace st |}.

Definition set_settings_rows (l : list Setting) (st : State) : State :=
  {| posts := posts st; comments := comments st; replies := replies st;
     settings_rows := l; analytics := analytics st;
     next_post_id := next_post_id st; next_comment_id := next_comment_id st;
     next_reply_id := next_reply_id st; last_fetch := last_fetch st;
     trace := trace st |}.

Definition set_analytics (l : list Metric) (st : State) : State :=
  {| posts := posts st; comments := comments st; replies := replies st;
     settings_rows := settings_rows st; analytics := l;
     next_post_id := next_post_id st; next_comment_id := next_comment_id st;
     next_reply_id := next_reply_id st; last_fetch := last_fetch st;
     trace := trace st |}.

Definition set_last_fetch (l : list (string * nat)) (st : State) : State :=
  {| posts := posts st; comments := comments st; replies := replies st;
     settings_rows := settings_rows st; analytics := analytics st;
     next_post_id := next_post_id st; next_comment_id := next_comment_id st;
     next_reply_id := next_reply_id st; last_fetch := l;
     trace := trace st |}.

(** [CRUDBase.update] on a table: the first row selected by [p] is changed
    by [f] ([.filter(...).first()], then [setattr] field by field). *)
Fixpoint update_first {A} (p : A -> bool) (f : A -> A) (l : list A) : list A :=
  match l with
  | [] => []
  | x :: l' => if p x then f x :: l' else x :: update_first p f l'
  end.

(** A present key of the update dict replaces the column, an absent one
    leaves it. *)
Definition or_keep {A} (new old : option A) : option A :=
  match new with
  | Some _ => new
  | None => old
  end.

(** *** [CRUDPost] *)

Definition crud_post_get (id : nat) : M (option Post) :=
  fun st => (Ok (find (fun p => post_id p =? id)%nat (posts st)), st).

(** The filter of [CRUDPost.get_by_platform_id]; no row matches the
    reference [None], the column being filled in every row. *)
Definition post_has_key (platform : string) (ppid : option string)
    (p : Post) : bool :=
  match ppid with
  | Some k => String.eqb (post_platform p) platform
              && String.eqb (platform_post_id p) k
  | None => false
  end.

Definition crud_post_get_by_platform_id (platform : string)
    (ppid : option string) : M (option Post) :=
  fun st => (Ok (find (post_has_key platform ppid) (posts st)), st).

Definition set_post_fields (post_data : PostData) (p : Post) : Post :=
  {| post_id := post_id p;
     post_platform := pd_platform post_data;
     platform_post_id := pd_platform_post_id post_data;
     post_content := or_keep (pd_content post_data) (post_content p) |}.

(** [CRUDBase.update] on posts; its [setattr] accepts every key of the
    dict, and what it sets under a name that is no column is not stored. *)
Definition crud_post_update (id : nat) (f : Post -> Post) : M (option Post) :=
  modify (fun st =>
    set_posts (update_first (fun p => post_id p =? id)%nat f (posts st))
              (next_post_id st) st) ;;;
  crud_post_get id.

(** [CRUDBase.create] on posts: the constructor [Post] is called with the
    entries of the dict as keyword arguments and refuses a keyword that
    names no attribute of the class, before anything is added to the
    session. *)
Definition crud_post_create (post_data : PostData) : M (option Post) :=
  match pd_title post_data with
  | Some _ =>
      raise (TypeError "'title' is an invalid keyword argument for Post")
  | None =>
      st <- get_state ;;
      let p := {| post_id := next_post_id st;
                  post_platform := pd_platform post_data;
                  platform_post_id := pd_platform_post_id post_data;
                  post_content := pd_content post_data |} in
      modify (set_posts (posts st ++ [p]) (S (next_post_id st))) ;;;
      ret (Some p)
  end.

(** [CRUDPost.create_or_update] *)
Definition crud_post_create_or_update (post_data : PostData)
  : M (option Post) :=
  existing <- crud_post_get_by_platform_id
                (pd_platform post_data)
                (Some (pd_platform_post_id post_data)) ;;
  match existing with
  | Some e => crud_post_update (post_id e) (set_post_fields post_data)
  | None => crud_post_create post_data
  end.

(** *** [CRUDComment] *)

Definition crud_comment_get (id : nat) : M (option Comment) :=
  fun st => (Ok (find (fun c => comment_id c =? id)%nat (comments st)), st).

Definition comment_has_key (platform pcid : string) (c : Comment) : bool :=
  String.eqb (c_platform c) platform
  && String.eqb (platform_comment_id c) pcid.

Definition crud_comment_get_by_platform_id (platform pcid : string)
  : M (option Comment) :=
  fun st => (Ok (find (comment_has_key platform pcid) (comments st)), st).

(** [CRUDBase.update] with a raw comment dict *)
Definition set_comment_fields (platform pcid : string) (cd : CommentData)
    (c : Comment) : Comment :=
  {| comment_id := comment_id c;
     c_post_id := or_keep (cd_post_id cd) (c_post_id c);
     c_platform := platform;
     platform_comment_id := pcid;
     c_author := or_keep (cd_author cd) (c_author c);
     c_content := or_keep (cd_content cd) (c_content c);
     comment_type := or_keep (cd_comment_type cd) (comment_type c);
     sentiment := sentiment c;
     c_confidence := or_keep (cd_confidence cd) (c_confidence c);
     has_reply := has_reply c |}.

(** The row built from a raw comment dict by the model's constructor;
    unset columns take their defaults. *)
Definition new_comment (id : nat) (platform pcid : string) (cd : CommentData)
  : Comment :=
  {| comment_id := id;
     c_post_id := cd_post_id cd;
     c_platform := platform;
     platform_comment_id := pcid;
     c_author := cd_author cd;
     c_content := cd_content cd;
     comment_type := cd_comment_type cd;
     sentiment := None;
     c_confidence := cd_confidence cd;
     has_reply := false |}.

Definition crud_comment_update (id : nat) (f : Comment -> Comment)
  : M (option Comment) :=
  modify (fun st =>
    set_comments (update_first (fun c => comment_id c =? id)%nat f (comments st))
                 (next_comment_id st) st) ;;;
  crud_comment_get id.

Definition crud_comment_create_or_update (comment_data : CommentData)
  : M (option Comment) :=
  platform <- subscript "platform" (cd_platform comment_data) ;;
  pcid <- subscript "platform_comment_id"
                    (cd_platform_comment_id comment_data) ;;
  existing <- crud_comment_get_by_platform_id platform pcid ;;
  match existing with
  | Some e =>
      crud_comment_update (comment_id e)
                          (set_comment_fields platform pcid comment_data)
  | None =>
      st <- get_state ;;
      let c := new_comment (next_comment_id st) platform pcid comment_data in
      modify (set_comments (comments st ++ [c]) (S (next_comment_id st))) ;;;
      ret (Some c)
  end.

Definition set_sentiment (s : string) (c : Comment) : Comment :=
  {| comment_id := comment_id c; c_post_id := c_post_id c;
     c_platform := c_platform c; platform_comment_id := platform_comment_id c;
     c_author := c_author c; c_content := c_content c;
     comment_type := comment_type c; sentiment := Some s;
     c_confidence := c_confidence c; has_reply := has_reply c |}.

Definition set_has_reply (b : bool) (c : Comment) : Comment :=
  {| comment_id := comment_id c; c_post_id := c_post_id c;
     c_platform := c_platform c; platform_comment_id := platform_comment_id c;
     c_author := c_author c; c_content := c_content c;
     comment_type := comment_type c; sentiment := sentiment c;
     c_confidence := c_confidence c; has_reply := b |}.

(** [CRUDComment.mark_as_replied] *)
Definition crud_comment_mark_as_replied (id : nat) : M (option Comment) :=
  crud_comment_update id (set_has_reply true).

(** *** [CRUDReply] *)

Definition crud_reply_get (id : nat) : M (option Reply) :=
  fun st => (Ok (find (fun r => reply_id r =? id)%nat (replies st)), st).

Definition crud_reply_create (comment : nat) (content status : string)
    (confidence : Q) (triggers : Triggers) : M Reply :=
  st <- get_state ;;
  let r := {| reply_id := next_reply_id st;
              r_comment_id := comment;
              r_content := content;
              status := status;
              reply_type := "ai";
              platform_reply_id := None;
              r_confidence := Some confidence;
              ghl_triggers := triggers;
              posted_at := None;
              approved_at := None;
              approved_by := None |} in
  modify (set_replies (replies st ++ [r]) (S (next_reply_id st))) ;;;
  ret r.

Definition crud_reply_update (id : nat) (f : Reply -> Reply)
  : M (option Reply) :=
  modify (fun st =>
    set_replies (update_first (fun r => reply_id r =? id)%nat f (replies st))
                (next_reply_id st) st) ;;;
  crud_reply_get id.

(** The pending replies, newest first ([order_by(desc(created_at))]; rows
    are kept in creation order), at most [limit] of them. *)
Definition crud_reply_get_pending (limit : nat) : M (list Reply) :=
  fun st =>
    (Ok (firstn limit
           (rev (filter (fun r => String.eqb (status r) "pending")
                        (replies st)))),
     st).

Definition set_approved (at_ : nat) (by_ : string) (r : Reply) : Reply :=
  {| reply_id := reply_id r; r_comment_id := r_comment_id r;
     r_content := r_content r; status := "approved";
     reply_type := reply_type r; platform_reply_id := platform_reply_id r;
     r_confidence := r_confidence r; ghl_triggers := ghl_triggers r;
     posted_at := posted_at r; approved_at := Some at_;
     approved_by := Some by_ |}.

Definition set_rejected (r : Reply) : Reply :=
  {| reply_id := reply_id r; r_comment_id := r_comment_id r;
     r_content := r_content r; status := "rejected";
     reply_type := reply_type r; platform_reply_id := platform_reply_id r;
     r_confidence := r_confidence r; ghl_triggers := ghl_triggers r;
     posted_at := posted_at r; approved_at := approved_at r;
     approved_by := approved_by r |}.

Definition set_posted (at_ : nat) (prid : string) (r : Reply) : Reply :=
  {| reply_id := reply_id r; r_comment_id := r_comment_id r;
     r_content := r_content r; status := "posted";
     reply_type := reply_type r; platform_reply_id := Some prid;
     r_confidence := r_confidence r; ghl_triggers := ghl_triggers r;
     posted_at := Some at_; approved_at := approved_at r;
     approved_by := approved_by r |}.

Section Repository.

Variable env : Env.

(** [CRUDReply.approve] *)
Definition crud_reply_approve (id : nat) (approved_by : string)
  : M (option Reply) :=
  t <- now env ;;
  crud_reply_update id (set_approved t approved_by).

(** [CRUDReply.reject] *)
Definition crud_reply_reject (id : nat) : M (option Reply) :=
  crud_reply_update id set_rejected.

(** [CRUDReply.mark_as_posted] *)
Definition crud_reply_mark_as_posted (id : nat) (prid : string)
  : M (option Reply) :=
  t <- now env ;;
  crud_reply_update id (set_posted t prid).

(** [CRUDAnalytics.record_metric] *)
Definition crud_analytics_record_metric (platform metric : string)
  : M unit :=
  t <- now env ;;
  modify (fun st =>
    set_analytics
      (analytics st
       ++ [{| m_date := t; m_platform := platform; metric_type := metric |}])
      st).

End Repository.

(** *** [CRUDSettings]; a row is identified by its unique key. *)

Definition crud_settings_get_by_key (key : string) : M (option Setting) :=
  fun st => (Ok (find (fun s => String.eqb (s_key s) key) (settings_rows st)),
             st).

(** [CRUDSettings.get_value] *)
Definition crud_settings_get_value (key : string) (default : option string)
  : M (option string) :=
  setting <- crud_settings_get_by_key key ;;
  match setting with
  | Some s => ret (s_value s)
  | None => ret default
  end.

(** [CRUDSettings.set_value] *)
Definition crud_settings_set_value (key value : string) : M unit :=
  setting <- crud_settings_get_by_key key ;;
  match setting with
  | Some s =>
      modify (fun st =>
        set_settings_rows
          (update_first (fun s' => String.eqb (s_key s') key)
                        (fun s' => {| s_key := s_key s';
                                      s_value := Some value |})
                        (settings_rows st))
          st)
  | None =>
      modify (fun st =>
        set_settings_rows
          (settings_rows st ++ [{| s_key := key; s_value := Some value |}])
          st)
  end.

(** [CRUDSettings.get_owner_active] *)
Definition crud_settings_get_owner_active : M bool :=
  value <- crud_settings_get_value "owner_active" (Some "false") ;;
  match value with
  | Some v => ret (String.eqb (lower v) "true")
  | None => raise (AttributeError "'NoneType' object has no attribute 'lower'")
  end.

(** [CRUDSettings.set_owner_active] *)
Definition crud_settings_set_owner_active (active : bool) : M unit :=
  crud_settings_set_value "owner_active" (if active then "true" else "false").

(* ------------------------------------------------------------------ *)
(** ** Comment processor ([core/comment_processor.py]) *)

(** The "reply" entry of a pipeline result; also the [reply_data] dict that
    the sweep builds (which carries [id] and [content] only). *)
Record ReplyInfo := mkReplyInfo {
  ri_id : nat;
  ri_content : string;
  ri_status : string;
  ri_confidence : option Q
}.

(** What [process_comment] returns: the [success: True] dict or the
    [success: False] dict with the error and the raw comment's id. *)
Inductive ProcessResult :=
| ProcessOk (comment : nat) (type sentiment : string) (reply : ReplyInfo)
            (auto_posted : bool)
| ProcessFailed (error : Exn) (raw_comment_id : option string).

Definition set_classification (type : string) (confidence : Q)
    (cd : CommentData) : CommentData :=
  {| cd_platform := cd_platform cd;
     cd_platform_comment_id := cd_platform_comment_id cd;
     cd_content := cd_content cd;
     cd_author := cd_author cd;
     cd_post_id := cd_post_id cd;
     cd_metadata := cd_metadata cd;
     cd_comment_type := Some type;
     cd_confidence := Some confidence |}.

Definition option_default {A} (d : A) (o : option A) : A :=
  match o with
  | Some a => a
  | None => d
  end.

Section CommentProcessor.

Variable cfg : Settings.
Variable env : Env.

(** [CommentProcessor._process_ghl_actions]: the CRM calls and the rows
    of the [ghl_actions] table, kept as one event; it catches whatever
    it raises. *)
Definition _process_ghl_actions (comment : Comment) (triggers : Triggers)
  : M unit :=
  modify (emit (CRM (comment_id comment) (workflows triggers))).

(** The post context handed to the reply prompt. *)
Definition post_context_of (post_id : option nat) : M (option string) :=
  match post_id with
  | Some (S _ as id) =>
      post <- crud_post_get id ;;
      match post with
      | Some p =>
          match post_content p with
          | Some content =>
              if String.eqb content EmptyString then ret None
              else ret (Some (substring 0 100 content ++ "..."))
          | None => ret None
          end
      | None => ret None
      end
  | _ => ret None
  end.

(** The body of the [try] block of [process_comment]. *)
Definition process_comment_body (comment_data : CommentData)
  : M ProcessResult :=
  platform <- subscript "platform" (cd_platform comment_data) ;;
  comment_text <- subscript "content" (cd_content comment_data) ;;
  let author := option_default "Unknown" (cd_author comment_data) in
  post_context <- post_context_of (cd_post_id comment_data) ;;
  (* Step 1: classify *)
  classified <- classify_comment env comment_text platform ;;
  let comment_type := fst classified in
  let comment_data :=
    set_classification comment_type (cl_confidence (snd classified))
                       comment_data in
  match cd_metadata comment_data with
  | Some MdOther => raise (TypeError "'metadata' is not a mapping")
  | _ => ret tt
  end ;;;
  saved <- crud_comment_create_or_update comment_data ;;
  (* Step 2: generate the reply *)
  reply_result <- generate_reply cfg env comment_text comment_type platform
                                 post_context author ;;
  (* Step 3: sentiment *)
  analysis <- analyze_sentiment env comment_text ;;
  db_comment <- attribute "id" saved ;;
  sentiment <- subscript "sentiment" analysis ;;
  crud_comment_update (comment_id db_comment) (set_sentiment sentiment) ;;;
  (* Step 4: the reply record *)
  db_reply <- crud_reply_create
                (comment_id db_comment)
                (rr_reply reply_result)
                (if rr_needs_approval reply_result
                 then "pending" else "auto_approved")
                (rr_confidence reply_result)
                (rr_triggers reply_result) ;;
  (* Step 5: CRM *)
  match workflows (rr_triggers reply_result) with
  | [] => ret tt
  | _ :: _ => _process_ghl_actions db_comment (rr_triggers reply_result)
  end ;;;
  (* Step 6: posting itself is left to the scheduler *)
  posted <-
    (if rr_needs_approval reply_result then ret false
     else owner_active <- crud_settings_get_owner_active ;;
          ret (negb owner_active)) ;;
  crud_analytics_record_metric env platform "comment_processed" ;;;
  ret (ProcessOk (comment_id db_comment) comment_type sentiment
         {| ri_id := reply_id db_reply;
            ri_content := rr_reply reply_result;
            ri_status := status db_reply;
            ri_confidence := Some (rr_confidence reply_result) |}
         posted).

(** [CommentProcessor.process_comment] *)
Definition process_comment (comment_data : CommentData) : M ProcessResult :=
  catch (process_comment_body comment_data)
    (fun e =>
       crud_analytics_record_metric env
         (option_default "unknown" (cd_platform comment_data))
         "processing_error" ;;;
       ret (ProcessFailed e (cd_platform_comment_id comment_data))).

(** [CommentProcessor.approve_reply] *)
Definition approve_reply (reply_id : nat) (approved_by : string) : M bool :=
  catch
    (reply <- crud_reply_approve env reply_id approved_by ;;
     match reply with
     | Some r =>
         crud_comment_mark_as_replied (r_comment_id r) ;;;
         crud_analytics_record_metric env "system" "reply_approved" ;;;
         ret true
     | None => ret false
     end)
    (fun _ => ret false).

(** [CommentProcessor.reject_reply] *)
Definition reject_reply (reply_id : nat) : M bool :=
  catch
    (reply <- crud_reply_reject reply_id ;;
     match reply with
     | Some _ =>
         crud_analytics_record_metric env "system" "reply_rejected" ;;;
         ret true
     | None => ret false
     end)
    (fun _ => ret false).

End CommentProcessor.

(* ------------------------------------------------------------------ *)
(** ** Scheduler ([utils/scheduler.py]) *)

(** [x or y] on optional strings: [None] and the empty string are falsy. *)
Definition truthy (o : option string) : bool :=
  match o with
  | Some s => negb (String.eqb s EmptyString)
  | None => false
  end.

Definition py_or (a b : option string) : option string :=
  if truthy a then a else b.

Definition set_cd_post_id (id : nat) (cd : CommentData) : CommentData :=
  {| cd_platform := cd_platform cd;
     cd_platform_comment_id := cd_platform_comment_id cd;
     cd_content := cd_content cd;
     cd_author := cd_author cd;
     cd_post_id := Some id;
     cd_metadata := cd_metadata cd;
     cd_comment_type := cd_comment_type cd;
     cd_confidence := cd_confidence cd |}.

Section Scheduler.

Variable cfg : Settings.
Variable env : Env.

(** [TaskScheduler.notify_update]: an exception of a callback is caught
    inside the loop over the callbacks. *)
Definition notify_update (update_type : string) : M unit :=
  modify (emit (Notify update_type)).

(** The reply method of a platform adapter ([reply_to_comment],
    [reply_to_tweet]): an adapter without credentials reports failure,
    and so does the Twitter adapter in every case. *)
Definition adapter_reply (platform : string) (target : option string)
    (text : string) : M (bool * option string) :=
  answer <- external (AdapterPost platform target text)
                     (post_response env) ;;
  if negb (is_configured env platform) || String.eqb platform "twitter"
  then ret (false, None)
  else match answer with
       | PostReturns success rid => ret (success, rid)
       | PostRaises => raise AdapterError
       end.

(** [comment_data.get("metadata", {}).get(key)] for the post reference
    ([post_id or video_id or media_id]) and for [post_urn]. *)
Definition metadata_post_ref (md : option Metadata) : M (option string) :=
  match md with
  | None => ret None
  | Some (MdDict p v m _) => ret (py_or p (py_or v m))
  | Some MdOther => raise (AttributeError "get")
  end.

Definition metadata_post_urn (md : option Metadata) : M (option string) :=
  match md with
  | None => ret None
  | Some (MdDict _ _ _ urn) => ret urn
  | Some MdOther => raise (AttributeError "get")
  end.

(** [TaskScheduler._post_reply] *)
Definition _post_reply (platform : string) (comment_data : CommentData)
    (reply_data : ReplyInfo) : M unit :=
  catch
    (let reply_text := ri_content reply_data in
     comment_id <- subscript "platform_comment_id"
                     (cd_platform_comment_id comment_data) ;;
     result <-
       (if mem platform ["youtube"; "facebook"; "instagram"] then
          adapter_reply platform (Some comment_id) reply_text
        else if String.eqb platform "linkedin" then
          post_urn <- metadata_post_urn (cd_metadata comment_data) ;;
          adapter_reply platform post_urn reply_text
        else if String.eqb platform "twitter" then
          adapter_reply platform (Some comment_id) reply_text
        else ret (false, None)) ;;
     if fst result then
       crud_reply_mark_as_posted env (ri_id reply_data)
         (option_default EmptyString (snd result)) ;;;
       notify_update "reply_posted"
     else ret tt)
    (fun _ => ret tt).

(** The comments of every fetched post, in order. *)
Fixpoint fetch_comments_of (platform : string) (posts : list PostData)
  : M (list CommentData) :=
  match posts with
  | [] => ret []
  | post :: posts' =>
      comments <- external
                    (AdapterFetchComments platform (pd_platform_post_id post))
                    (fetched_comments env) ;;
      rest <- fetch_comments_of platform posts' ;;
      ret (comments ++ rest)%list
  end.

(** The body of the loop over [new_comments] in [_fetch_platform_data]. *)
Definition fetch_comment (platform : string) (owner_active : bool)
    (comment_data : CommentData) : M unit :=
  cplatform <- subscript "platform" (cd_platform comment_data) ;;
  ref <- metadata_post_ref (cd_metadata comment_data) ;;
  post <- crud_post_get_by_platform_id cplatform ref ;;
  match post with
  | Some p =>
      let comment_data := set_cd_post_id (post_id p) comment_data in
      pcid <- subscript "platform_comment_id"
                (cd_platform_comment_id comment_data) ;;
      existing <- crud_comment_get_by_platform_id cplatform pcid ;;
      match existing with
      | None =>
          result <- process_comment cfg env comment_data ;;
          notify_update "new_comment" ;;;
          match result with
          | ProcessOk _ _ _ reply _ =>
              if negb owner_active
                 && String.eqb (ri_status reply) "auto_approved"
              then _post_reply platform comment_data reply
              else ret tt
          | ProcessFailed _ _ => ret tt
          end
      | Some _ => ret tt
      end
  | None => ret tt
  end.

(** [TaskScheduler._fetch_platform_data]; its five platform branches
    differ only in the name of the adapter method they call. *)
Definition _fetch_platform_data (platform : string) (owner_active : bool)
  : M unit :=
  new_posts <-
    (if mem platform PLATFORMS
     then external (AdapterFetchPosts platform) (fetched_posts env)
     else ret []) ;;
  new_comments <- fetch_comments_of platform new_posts ;;
  for_each new_posts
    (fun post_data =>
       db_post <- crud_post_create_or_update post_data ;;
       attribute "id" db_post ;;; ret tt) ;;;
  for_each new_comments (fetch_comment platform owner_active) ;;;
  t <- now env ;;
  modify (fun st => set_last_fetch ((platform, t) :: last_fetch st) st).

(** [TaskScheduler.fetch_all_comments] *)
Definition fetch_all_comments : M unit :=
  owner_active <- crud_settings_get_owner_active ;;
  for_each PLATFORMS
    (fun platform =>
       if is_configured env platform
       then catch (_fetch_platform_data platform owner_active)
                  (fun _ => ret tt)
       else ret tt).

(** The body of the loop over the pending replies in
    [process_pending_replies].  It hands [comment.metadata] on to
    [_post_reply]; [models.Comment] declares no such column (its JSON
    column is [extra_data]), so what is read from the row is the
    declarative base's table registry, not a dict. *)
Definition sweep_reply (reply : Reply) : M unit :=
  confidence <- match r_confidence reply with
                | Some c => ret c
                | None => raise (TypeError "'>=' not supported")
                end ;;
  if Qge_bool confidence (auto_approve_confidence cfg) then
    crud_reply_approve env (reply_id reply) "ai_auto" ;;;
    comment <- crud_comment_get (r_comment_id reply) ;;
    match comment with
    | Some c =>
        let platform := c_platform c in
        if mem platform PLATFORMS && is_configured env platform then
          _post_reply platform
            {| cd_platform := None;
               cd_platform_comment_id := Some (platform_comment_id c);
               cd_content := None;
               cd_author := None;
               cd_post_id := None;
               cd_metadata := Some MdOther;
               cd_comment_type := None;
               cd_confidence := None |}
            {| ri_id := reply_id reply;
               ri_content := r_content reply;
               ri_status := EmptyString;
               ri_confidence := None |}
        else ret tt
    | None => ret tt
    end
  else ret tt.

(** [TaskScheduler.process_pending_replies] *)
Definition process_pending_replies : M unit :=
  owner_active <- crud_settings_get_owner_active ;;
  if negb owner_active then
    pending <- crud_reply_get_pending 50 ;;
    for_each pending sweep_reply
  else ret tt.

End Scheduler.

(* ------------------------------------------------------------------ *)
(** ** Operations on the repository and what is observed of a state *)

(** The entry points that change the repository: the two scheduled
    activities, the pipeline called on its own (dashboard, batch), manual
    approval and rejection, and the operator's switch. *)
Inductive Op :=
| OpFetch
| OpSweep
| OpProcess (comment_data : CommentData)
| OpApprove (reply : nat) (approved_by : string)
| OpReject (reply : nat)
| OpSetOwnerActive (active : bool).

Definition run_op (cfg : Settings) (env : Env) (op : Op) (st : State) : State :=
  match op with
  | OpFetch => snd (fetch_all_comments cfg env st)
  | OpSweep => snd (process_pending_replies cfg env st)
  | OpProcess cd => snd (process_comment cfg env cd st)
  | OpApprove id by_ => snd (approve_reply env id by_ st)
  | OpReject id => snd (reject_reply env id st)
  | OpSetOwnerActive b => snd (crud_settings_set_owner_active b st)
  end.

Definition run (cfg : Settings) (env : Env) (ops : list Op) (st : State)
  : State :=
  fold_left (fun s op => run_op cfg env op s) ops st.

Definition is_reject (op : Op) : bool :=
  match op with
  | OpReject _ => true
  | _ => false
  end.

(** A computation keeps a relation between the state it starts in and the
    state it leaves, whether it returns or raises. *)
Definition preserves (R : State -> State -> Prop) {A} (m : M A) : Prop :=
  forall st, R st (snd (m st)).

(** A computation that only reads the state. *)
Definition reads {A} (m : M A) : Prop := forall st, snd (m st) = st.

(** The identity key of a comment row. *)
Definition key_of (c : Comment) : string * string :=
  (c_platform c, platform_comment_id c).

(** The comment rows with a given identity key. *)
Definition rows_with_key (platform pcid : string) (st : State)
  : list Comment :=
  filter (comment_has_key platform pcid) (comments st).

(** Primary keys of comments are distinct and below the counter, and no
    identity key occurs twice. *)
Definition comments_wf (st : State) : Prop :=
  NoDup (map comment_id (comments st))
  /\ Forall (fun c => comment_id c < next_comment_id st)%nat (comments st)
  /\ NoDup (map key_of (comments st)).

(** [crud_comment.get(id).has_reply], false when there is no such row. *)
Definition has_reply_at (st : State) (id : nat) : bool :=
  match find (fun c => comment_id c =? id)%nat (comments st) with
  | Some c => has_reply c
  | None => false
  end.

Definition has_reply_kept (st st' : State) : Prop :=
  forall id, has_reply_at st id = true -> has_reply_at st' id = true.

Definition approved_or_posted (s : string) : bool :=
  String.eqb s "approved" || String.eqb s "posted".

Definition posted_or_auto_approved (s : string) : bool :=
  String.eqb s "posted" || String.eqb s "auto_approved".

(** Every comment flagged [has_reply] has a reply whose status satisfies
    [ok]. *)
Definition replied_have (ok : string -> bool) (st : State) : Prop :=
  forall c, In c (comments st) -> has_reply c = true ->
    exists r, In r (replies st)
              /\ r_comment_id r = comment_id c
              /\ ok (status r) = true.

Definition is_post_event (e : Event) : bool :=
  match e with
  | AdapterPost _ _ _ => true
  | _ => false
  end.

(** The calls of adapter reply methods recorded so far. *)
Definition post_calls (st : State) : list Event :=
  filter is_post_event (trace st).

Definition is_posted (r : Reply) : bool := String.eqb (status r) "posted".

Definition is_pending (r : Reply) : bool := String.eqb (status r) "pending".

(** Nothing was posted between two states: no adapter reply method was
    called and the posted replies are the same rows. *)
Definition nothing_posted (st st' : State) : Prop :=
  post_calls st' = post_calls st
  /\ filter is_posted (replies st') = filter is_posted (replies st).

(** The tables of two states agree (the trace may differ). *)
Definition same_tables (st st' : State) : Prop :=
  posts st' = posts st /\ comments st' = comments st
  /\ replies st' = replies st /\ settings_rows st' = settings_rows st
  /\ analytics st' = analytics st.

(** [_post_reply] posted the reply: the adapter, called at the instant of
    [st], reported success with [rid]; the reply row is marked, the call
    and the notification are in the trace, and nothing else changed. *)
Definition posted_by (env : Env) (platform : string) (target : option string)
    (rd : ReplyInfo) (rid : option string) (st st' : State) : Prop :=
  post_response env (List.length (trace st)) = PostReturns true rid
  /\ is_configured env platform = true
  /\ replies st'
     = update_first (fun r => Nat.eqb (reply_id r) (ri_id rd))
         (set_posted (utcnow env (S (List.length (trace st))))
                     (option_default EmptyString rid))
         (replies st)
  /\ trace st'
     = (trace st ++ [AdapterPost platform target (ri_content rd);
                     Notify "reply_posted"])%list
  /\ posts st' = posts st /\ comments st' = comments st
  /\ settings_rows st' = settings_rows st /\ analytics st' = analytics st.

(** [crud_reply.get(id)] *)
Definition reply_at (st : State) (id : nat) : option Reply :=
  find (fun r => reply_id r =? id)%nat (replies st).

Definition replies_wf (st : State) : Prop :=
  NoDup (map reply_id (replies st)).

(** The sweep approved the reply, and perhaps posted it. *)
Definition promoted (r : Reply) : Prop :=
  approved_by r = Some "ai_auto"
  /\ (status r = "approved" \/ status r = "posted").

(** The reply is marked as posted. *)
Definition marked_posted (r : Reply) : Prop :=
  status r = "posted" /\ platform_reply_id r <> None /\ posted_at r <> None.

(** The conditions under which the sweep goes on to post the reply [r]
    and the adapter accepts it. *)
Definition postable (env : Env) (st : State) (r : Reply) : Prop :=
  exists cm,
    find (fun c => Nat.eqb (comment_id c) (r_comment_id r)) (comments st)
    = Some cm
    /\ mem (c_platform cm) ["youtube"; "facebook"; "instagram"] = true
    /\ is_configured env (c_platform cm) = true
    /\ forall n, exists rid, post_response env n = PostReturns true rid.

(** Relations between the states before and after a computation. *)

(** The uniqueness of identity keys is kept. *)
Definition wf_kept (st st' : State) : Prop :=
  comments_wf st -> comments_wf st'.

(** A relation that looks at the comment table only. *)
Definition comments_only (R : State -> State -> Prop) : Prop :=
  forall st st',
    comments st' = comments st -> next_comment_id st' = next_comment_id st ->
    R st st'.

(** Every flagged comment keeps an approved or posted reply. *)
Definition replied_kept (st st' : State) : Prop :=
  replied_have approved_or_posted st -> replied_have approved_or_posted st'.

(** The flags of all comments are the same. *)
Definition has_reply_same (st st' : State) : Prop :=
  forall id, has_reply_at st' id = has_reply_at st id.

(** The analytics table is the same. *)
Definition analytics_same (st st' : State) : Prop :=
  analytics st' = analytics st.

(** One metric is recorded when the computation returns, none when it
    raises. *)
Definition metric_once {A} (m : M A) : Prop :=
  forall st,
    match m st with
    | (Ok _, st') =>
        List.length (analytics st') = S (List.length (analytics st))
    | (Raise _, st') => analytics st' = analytics st
    end.

(** At most [k] more calls of adapter reply methods. *)
Definition calls_within (k : nat) (st st' : State) : Prop :=
  (List.length (post_calls st') <= List.length (post_calls st) + k)%nat.

(** Primary keys of replies are distinct and below the counter, and every
    reply carries a confidence. *)
Definition replies_ok (st : State) : Prop :=
  NoDup (map reply_id (replies st))
  /\ Forall (fun r => reply_id r < next_reply_id st)%nat (replies st)
  /\ Forall (fun r => r_confidence r <> None) (replies st).

(** The well-formedness of the reply rows is kept. *)
Definition replies_ok_kept (st st' : State) : Prop :=
  replies_ok st -> replies_ok st'.

(** *** Sample data used to exercise the statements *)

(** A comment as the Facebook adapter builds it, on the post "p1". *)
Definition sample_comment (pcid text : string) : CommentData :=
  {| cd_platform := Some "facebook";
     cd_platform_comment_id := Some pcid;
     cd_content := Some text;
     cd_author := Some "Ann";
     cd_post_id := None;
     cd_metadata := Some (MdDict (Some "p1") None None None);
     cd_comment_type := None;
     cd_confidence := None |}.

(** An environment in which every external call succeeds: the Facebook
    adapter is the one configured, and its post dict has no "title". *)
Definition sample_env : Env :=
  {| classify_response := fun _ => Some ("question", 0.9%Q);
     generate_response := fun _ => Some "Thanks for watching!";
     sentiment_response := fun _ => Some (Some "positive");
     post_response := fun _ => PostReturns true (Some "fb-reply-1");
     is_configured := fun p => String.eqb p "facebook";
     fetched_posts := fun _ =>
       [{| pd_platform := "facebook"; pd_platform_post_id := "p1";
           pd_content := Some "A video"; pd_title := None |}];
     fetched_comments := fun _ =>
       [sample_comment "c1" "nice video"; sample_comment "c1" "nice video";
        sample_comment "c2" "thank you so much"];
     utcnow := fun n => (1000 + n)%nat |}.

(** The same, with the model unreachable for classification. *)
Definition classify_down_env : Env :=
  {| classify_response := fun _ => None;
     generate_response := generate_response sample_env;
     sentiment_response := sentiment_response sample_env;
     post_response := post_response sample_env;
     is_configured := is_configured sample_env;
     fetched_posts := fetched_posts sample_env;
     fetched_comments := fetched_comments sample_env;
     utcnow := utcnow sample_env |}.

(** The same, with every reply attempt reported as failed. *)
Definition post_fails_env : Env :=
  {| classify_response := classify_response sample_env;
     generate_response := generate_response sample_env;
     sentiment_response := sentiment_response sample_env;
     post_response := fun _ => PostReturns false None;
     is_configured := is_configured sample_env;
     fetched_posts := fetched_posts sample_env;
     fetched_comments := fetched_comments sample_env;
     utcnow := utcnow sample_env |}.

Definition set_threshold (q : Q) (cfg : Settings) : Settings :=
  {| fetch_interval := fetch_interval cfg;
     max_comments_per_fetch := max_comments_per_fetch cfg;
     auto_approve_confidence := q;
     max_reply_tokens := max_reply_tokens cfg |}.

Definition sample_comment_row (id : nat) : Comment :=
  {| comment_id := id; c_post_id := Some 1%nat; c_platform := "facebook";
     platform_comment_id := "c1"; c_author := Some "Ann";
     c_content := Some "nice video"; comment_type := Some "general";
     sentiment := Some "positive"; c_confidence := Some 0.5%Q;
     has_reply := false |}.

(** A pending reply to comment 1 with confidence 0.82. *)
Definition pending_reply (id : nat) : Reply :=
  {| reply_id := id; r_comment_id := 1; r_content := "Thanks for watching!";
     status := "pending"; reply_type := "ai"; platform_reply_id := None;
     r_confidence := Some 0.82%Q;
     ghl_triggers := {| tags := []; workflows := [] |};
     posted_at := None; approved_at := None; approved_by := None |}.

(** A repository with one comment and [n] pending replies, numbered from 1
    in creation order; the owner is not active. *)
Definition backlog (n : nat) : State :=
  {| posts := []; comments := [sample_comment_row 1];
     replies := map pending_reply (seq 1 n);
     settings_rows := [{| s_key := "owner_active"; s_value := Some "false" |}];
     analytics := []; next_post_id := 1; next_comment_id := 2;
     next_reply_id := S n; last_fetch := []; trace := [] |}.

(** The owner switched to active on an empty repository. *)
Definition owner_active_state : State :=
  snd (crud_settings_set_owner_active true init).

(* ------------------------------------------------------------------ *)
(** ** Further queries and entry points

    *** [database/crud.py] *)

(** [CRUDComment.get_pending]: the comments not flagged as replied, newest
    first, at most [limit] of them. *)
Definition crud_comment_get_pending (limit : nat) : M (list Comment) :=
  fun st =>
    (Ok (firstn limit
           (rev (filter (fun c => negb (has_reply c)) (comments st)))),
     st).

(** [CRUDReply.get_by_comment] *)
Definition crud_reply_get_by_comment (comment : nat) : M (list Reply) :=
  fun st =>
    (Ok (filter (fun r => r_comment_id r =? comment)%nat (replies st)), st).

(** [x is not None] *)
Definition present {A} (o : option A) : bool :=
  match o with
  | Some _ => true
  | None => false
  end.

(** The list a query returns, empty when it raises. *)
Definition rows {A} (m : M (list A)) (st : State) : list A :=
  match fst (m st) with
  | Ok l => l
  | Raise _ => []
  end.

(** *** [core/comment_processor.py] *)

(** One entry of the "results" list of [process_batch]: the dict that
    [process_comment] returned, or the dict built in the [except] branch
    of the loop. *)
Inductive BatchEntry :=
| BatchResult (result : ProcessResult)
| BatchError (error : Exn) (comment : CommentData).

Record BatchSummary := mkBatchSummary {
  b_processed : nat;
  b_failed : nat;
  b_auto_approved : nat;
  b_results : list BatchEntry
}.

Record BulkSummary := mkBulkSummary {
  ba_approved : nat;
  ba_failed : nat
}.

Section Batches.

Variable cfg : Settings.
Variable env : Env.

(** The body of the loop of [process_batch]. *)
Definition process_batch_step (results : BatchSummary)
    (comment : CommentData) : M BatchSummary :=
  catch
    (result <- process_comment cfg env comment ;;
     let entries := (b_results results ++ [BatchResult result])%list in
     match result with
     | ProcessOk _ _ _ _ auto_posted =>
         ret {| b_processed := S (b_processed results);
                b_failed := b_failed results;
                b_auto_approved :=
                  if auto_posted then S (b_auto_approved results)
                  else b_auto_approved results;
                b_results := entries |}
     | ProcessFailed _ _ =>
         ret {| b_processed := b_processed results;
                b_failed := S (b_failed results);
                b_auto_approved := b_auto_approved results;
                b_results := entries |}
     end)
    (fun e =>
       ret {| b_processed := b_processed results;
              b_failed := S (b_failed results);
              b_auto_approved := b_auto_approved results;
              b_results :=
                (b_results results ++ [BatchError e comment])%list |}).

Fixpoint process_batch_from (results : BatchSummary)
    (comments : list CommentData) : M BatchSummary :=
  match comments with
  | [] => ret results
  | comment :: rest =>
      results' <- process_batch_step results comment ;;
      process_batch_from results' rest
  end.

(** [CommentProcessor.process_batch] *)
Definition process_batch (comments : list CommentData) : M BatchSummary :=
  process_batch_from
    {| b_processed := 0; b_failed := 0; b_auto_approved := 0;
       b_results := [] |}
    comments.

Fixpoint bulk_approve_from (results : BulkSummary) (reply_ids : list nat)
  : M BulkSummary :=
  match reply_ids with
  | [] => ret results
  | reply_id :: rest =>
      ok <- approve_reply env reply_id "bulk_manual" ;;
      bulk_approve_from
        (if ok
         then {| ba_approved := S (ba_approved results);
                 ba_failed := ba_failed results |}
         else {| ba_approved := ba_approved results;
                 ba_failed := S (ba_failed results) |})
        rest
  end.

(** [CommentProcessor.bulk_approve_replies] *)
Definition bulk_approve_replies (reply_ids : list nat) : M BulkSummary :=
  bulk_approve_from {| ba_approved := 0; ba_failed := 0 |} reply_ids.

End Batches.

(** Every entry is a dict returned by [process_comment]. *)
Definition only_results (l : list BatchEntry) : Prop :=
  forall e, In e l -> exists r, e = BatchResult r.

(** *** [core/ai_processor.py], [core/ghl_manager.py] *)

(** What [test_reply_generation] returns: the reply dict with the
    classification and the sentiment added. *)
Record TestResult := mkTestResult {
  tr_reply : ReplyResult;
  tr_type : string;
  tr_classification : Classification;
  tr_sentiment : option string
}.

(** [AIProcessor.test_reply_generation] *)
Definition test_reply_generation (cfg : Settings) (env : Env)
    (comment platform : string) : M TestResult :=
  classified <- classify_comment env comment platform ;;
  let comment_type := fst classified in
  result <- generate_reply cfg env comment comment_type platform None
                           "Test User" ;;
  sentiment <- analyze_sentiment env comment ;;
  ret {| tr_reply := result;
         tr_type := comment_type;
         tr_classification := snd classified;
         tr_sentiment := sentiment |}.

(** [GHLManager._get_workflow_id] *)
Definition _get_workflow_id (workflow_name : string) : option string :=
  if String.eqb workflow_name "lead_nurture_sequence" then Some "workflow_001"
  else if String.eqb workflow_name "testimonial_request" then Some "workflow_002"
  else if String.eqb workflow_name "support_followup" then Some "workflow_003"
  else if String.eqb workflow_name "customer_service" then Some "workflow_004"
  else if String.eqb workflow_name "sales_followup" then Some "workflow_005"
  else None.

(** *** What is observed of the further operations *)

Definition is_approve (op : Op) : bool :=
  match op with
  | OpApprove _ _ => true
  | _ => false
  end.

(** The operations of the dashboard's reply queue. *)
Definition is_manual (op : Op) : bool :=
  match op with
  | OpApprove _ _ | OpReject _ => true
  | _ => false
  end.

(** The reply table and its counter are the same. *)
Definition replies_same (st st' : State) : Prop :=
  replies st' = replies st /\ next_reply_id st' = next_reply_id st.

(** The primary keys of the comment rows are still there. *)
Definition comment_ids_kept (st st' : State) : Prop :=
  forall id, In id (map comment_id (comments st)) ->
             In id (map comment_id (comments st')).

(** The reply rows whose key is not among [ids] are still there,
    unchanged. *)
Definition rows_kept_but (ids : list nat) (st st' : State) : Prop :=
  forall x, In x (replies st) -> ~ In (reply_id x) ids -> In x (replies st').

(** From a well-formed reply table: the table stays well-formed and every
    row is still there, unchanged. *)
Definition reply_rows_kept (st st' : State) : Prop :=
  replies_ok st ->
  replies_ok st' /\ forall x, In x (replies st) -> In x (replies st').

(** The identity key of a post row. *)
Definition post_key_of (p : Post) : string * string :=
  (post_platform p, platform_post_id p).

(** Primary keys of posts are distinct and below the counter, and no
    identity key occurs twice. *)
Definition posts_wf (st : State) : Prop :=
  NoDup (map post_id (posts st))
  /\ Forall (fun p => post_id p < next_post_id st)%nat (posts st)
  /\ NoDup (map post_key_of (posts st)).

Definition posts_wf_kept (st st' : State) : Prop :=
  posts_wf st -> posts_wf st'.

(** The post rows with a given identity key. *)
Definition posts_with_key (platform ppid : string) (st : State) : list Post :=
  filter (post_has_key platform (Some ppid)) (posts st).

(** *** More sample data *)

(** A comment as the LinkedIn adapter builds it: its metadata carries the
    post's URN only. *)
Definition linkedin_comment : CommentData :=
  {| cd_platform := Some "linkedin";
     cd_platform_comment_id := Some "urn:li:comment:7";
     cd_content := Some "how much is the course?";
     cd_author := Some "Bo";
     cd_post_id := None;
     cd_metadata := Some (MdDict None None None (Some "urn:li:share:3"));
     cd_comment_type := None;
     cd_confidence := None |}.

(** A post dict as the YouTube adapter builds it. *)
Definition youtube_video : PostData :=
  {| pd_platform := "youtube"; pd_platform_post_id := "v1";
     pd_content := Some "A talk, recorded"; pd_title := Some "Sunday talk" |}.

(** The same as [sample_env], with a sentiment answer that parses but has
    no "sentiment" entry. *)
Definition sentiment_keyless_env : Env :=
  {| classify_response := classify_response sample_env;
     generate_response := generate_response sample_env;
     sentiment_response := fun _ => Some None;
     post_response := post_response sample_env;
     is_configured := is_configured sample_env;
     fetched_posts := fetched_posts sample_env;
     fetched_comments := fetched_comments sample_env;
     utcnow := utcnow sample_env |}.

(** [backlog 1] after a sweep: its reply has been posted. *)
Definition swept_backlog : State :=
  snd (process_pending_replies default_settings sample_env (backlog 1)).

(** The reply of [swept_backlog]. *)
Definition posted_reply : Reply :=
  {| reply_id := 1; r_comment_id := 1; r_content := "Thanks for watching!";
     status := "posted"; reply_type := "ai";
     platform_reply_id := Some "fb-reply-1"; r_confidence := Some 0.82%Q;
     ghl_triggers := {| tags := []; workflows := [] |};
     posted_at := Some 1001%nat; approved_at := Some 1000%nat;
     approved_by := Some "ai_auto" |}.

(** The empty repository after the pipeline has processed one comment. *)
Definition once_processed : State :=
  snd (process_comment default_settings sample_env
         (sample_comment "c2" "thank you so much") init).

(** A pending reply to comment 1 that carries no confidence. *)
Definition manual_reply (id : nat) : Reply :=
  {| reply_id := id; r_comment_id := 1; r_content := "Typed by hand";
     status := "pending"; reply_type := "manual"; platform_reply_id := None;
     r_confidence := None;
     ghl_triggers := {| tags := []; workflows := [] |};
     posted_at := None; approved_at := None; approved_by := None |}.

(** [backlog 3] with a reply without confidence in the place of its
    second reply. *)
Definition backlog_with_manual_reply : State :=
  set_replies [pending_reply 1; manual_reply 2; pending_reply 3] 4
              (backlog 3).

(* ------------------------------------------------------------------ *)
(** ** Helpers ([utils/helpers.py])

    Text is ASCII here as in the rest of the development: [len] is the
    number of characters, [\w] is a letter, a digit or the underscore, and
    whitespace is what [strip] removes. *)

(** [s[:stop]], for a stop of either sign *)
Definition slice_to (stop : Z) (s : string) : string :=
  if (0 <=? stop)%Z then substring 0 (Z.to_nat stop) s
  else substring 0 (Z.to_nat (Z.of_nat (String.length s) + stop)) s.

(** [truncate_text] *)
Definition truncate_text (text : string) (max_length : Z) (suffix : string)
  : string :=
  if (Z.of_nat (String.length text) <=? max_length)%Z then text
  else slice_to (max_length - Z.of_nat (String.length suffix)) text ++ suffix.

(** [text.split()]: the maximal runs of characters that are not
    whitespace; [word] is the run being read, backwards. *)
Fixpoint split_from (word : list ascii) (l : list ascii) : list string :=
  match l with
  | [] =>
      match word with
      | [] => []
      | _ => [string_of_list_ascii (rev word)]
      end
  | c :: l' =>
      if is_space c then
        match word with
        | [] => split_from [] l'
        | _ => string_of_list_ascii (rev word) :: split_from [] l'
        end
      else split_from (c :: word) l'
  end.

Definition str_split (text : string) : list string :=
  split_from [] (list_ascii_of_string text).

(** [\w] *)
Definition is_word_char (c : ascii) : bool :=
  let n := nat_of_ascii c in
  ((48 <=? n) && (n <=? 57) || (65 <=? n) && (n <=? 90)
   || (97 <=? n) && (n <=? 122) || (n =? 95))%nat.

(** The class [\w\s\.\,\!\?\-\#\@] *)
Definition is_kept_char (c : ascii) : bool :=
  is_word_char c || is_space c
  || existsb (Ascii.eqb c) (list_ascii_of_string ".,!?-#@").

Definition filter_chars (keep : ascii -> bool) (s : string) : string :=
  string_of_list_ascii (filter keep (list_ascii_of_string s)).

(** [clean_text] *)
Definition clean_text (text : string) : string :=
  let text := String.concat " " (str_split text) in
  let text := filter_chars is_kept_char text in
  strip text.

(** [text.replace(a, b)] for single characters *)
Definition replace_char (a b : ascii) (s : string) : string :=
  string_of_list_ascii
    (map (fun c => if Ascii.eqb c a then b else c) (list_ascii_of_string s)).

Definition platform_limits : list (string * Z) :=
  [("twitter", 280%Z); ("instagram", 2200%Z); ("facebook", 63206%Z);
   ("linkedin", 3000%Z); ("youtube", 10000%Z)].

(** [platform_limits.get(platform, 2000)] *)
Definition platform_limit (platform : string) : Z :=
  match find (fun e => String.eqb (fst e) platform) platform_limits with
  | Some e => snd e
  | None => 2000%Z
  end.

(** [max_length or platform_limits.get(platform, 2000)]; [None] and 0 are
    falsy. *)
Definition effective_limit (platform : string) (max_length : option Z) : Z :=
  match max_length with
  | Some n => if (n =? 0)%Z then platform_limit platform else n
  | None => platform_limit platform
  end.

(** [sanitize_for_platform] *)
Definition sanitize_for_platform (text platform : string)
    (max_length : option Z) : string :=
  let limit := effective_limit platform max_length in
  let text := clean_text text in
  let text :=
    if String.eqb platform "instagram"
    then replace_char "010"%char " "%char text
    else text in
  if (limit <? Z.of_nat (String.length text))%Z
  then truncate_text text (limit - 3) "..."
  else text.

(** [range(0, stop, step)] for a positive step *)
Definition py_range (stop step : nat) : list nat :=
  map (fun k => k * step)%nat (seq 0 ((stop + step - 1) / step)).

(** [batch_process]; [None] is the [ValueError] that [range] raises for
    a step of zero. *)
Definition batch_process {A} (items : list A) (batch_size : Z)
  : option (list (list A)) :=
  if (batch_size =? 0)%Z then None
  else if (batch_size <? 0)%Z then Some []
  else
    let size := Z.to_nat batch_size in
    Some (map (fun i => firstn size (skipn i items))
              (py_range (List.length items) size)).

(** [generate_comment_id] *)
Definition generate_comment_id (platform comment_id : string) : string :=
  platform ++ "_" ++ comment_id.

(** [re.findall(r'#\w+', text)], read in one pass: [run] is [None]
    outside a tag and otherwise holds, backwards, the word characters
    read since the last '#'. *)
Definition close_tag (run : option (list ascii)) : list string :=
  match run with
  | Some (c :: run') => [string_of_list_ascii ("#"%char :: rev (c :: run'))]
  | _ => []
  end.

Fixpoint findall_hashtags (run : option (list ascii)) (l : list ascii)
  : list string :=
  match l with
  | [] => close_tag run
  | c :: l' =>
      match run with
      | Some word =>
          if is_word_char c then findall_hashtags (Some (c :: word)) l'
          else (close_tag run
                ++ findall_hashtags
                     (if Ascii.eqb c "#"%char then Some [] else None) l')%list
      | None =>
          findall_hashtags (if Ascii.eqb c "#"%char then Some [] else None) l'
      end
  end.

(** [extract_hashtags], and [ContentGenerator._extract_hashtags] *)
Definition extract_hashtags (text : string) : list string :=
  map lower (findall_hashtags None (list_ascii_of_string text)).

Definition has_underscore (s : string) : bool :=
  existsb (Ascii.eqb "_"%char) (list_ascii_of_string s).

Definition is_ascii_text (s : string) : bool :=
  forallb (fun c => nat_of_ascii c <? 128)%nat (list_ascii_of_string s).

(** A tag as [findall] returns it, before lower-casing. *)
Definition tag_shape (t : string) : Prop :=
  exists w, t = String "#"%char w /\ w <> EmptyString
            /\ forallb is_word_char (list_ascii_of_string w) = true.

Definition no_space (w : string) : Prop :=
  forall c, In c (list_ascii_of_string w) -> is_space c = false.

(** *** [merge_metadata] *)

Unset Elimination Schemes.

(** A metadata value: a dict, its entries in insertion order, or any
    value that is not a dict. *)
Inductive Json :=
| JValue (v : string)
| JDict (entries : list (string * Json)).

Set Elimination Schemes.

(** [d.get(key)] *)
Fixpoint dict_get (key : string) (d : list (string * Json)) : option Json :=
  match d with
  | [] => None
  | (k, v) :: d' => if String.eqb k key then Some v else dict_get key d'
  end.

(** [d[key] = value]: an existing key keeps its place, a new one goes to
    the end. *)
Fixpoint dict_set (key : string) (value : Json) (d : list (string * Json))
  : list (string * Json) :=
  match d with
  | [] => [(key, value)]
  | (k, v) :: d' =>
      if String.eqb k key then (k, value) :: d'
      else (k, v) :: dict_set key value d'
  end.

(** The loop of [merge_metadata] over [new.items()]; [merge_sub] is the
    recursive call. *)
Fixpoint merge_items
    (merge_sub : list (string * Json) -> Json -> list (string * Json))
    (merged items : list (string * Json)) : list (string * Json) :=
  match items with
  | [] => merged
  | (key, value) :: rest =>
      merge_items merge_sub
        (dict_set key
           match dict_get key merged, value with
           | Some (JDict sub), JDict _ => JDict (merge_sub sub value)
           | _, _ => value
           end
           merged)
        rest
  end.

(** [merge_metadata existing new] for a dict [new], recursive on [new]: the
    source calls it on dicts only, so that the [JValue] case is never
    reached. *)
Fixpoint merge_json (existing : list (string * Json)) (new : Json)
  : list (string * Json) :=
  match new with
  | JDict items => merge_items (fun sub value => merge_json sub value)
                               existing items
  | JValue _ => existing
  end.

(** [merge_metadata] *)
Definition merge_metadata (existing new : list (string * Json))
  : list (string * Json) :=
  merge_json existing (JDict new).

(** The value [merge_metadata] stores under a key of [new]. *)
Definition merged_value (old : option Json) (value : Json) : Json :=
  match old, value with
  | Some (JDict sub), JDict sub' => JDict (merge_metadata sub sub')
  | _, _ => value
  end.

(* ================================================================== *)
(** * Properties *)

Unset Implicit Arguments.

(** ** Comparisons of confidences *)

Lemma Qge_bool_iff (x y : Q) : Qge_bool x y = true <-> (y <= x)%Q.
Proof. unfold Qge_bool. apply Qle_bool_iff. Qed.

Lemma Qlt_bool_iff (x y : Q) : Qlt_bool x y = true <-> (x < y)%Q.
Proof.
  unfold Qlt_bool. rewrite Qlt_alt.
  destruct (x ?= y)%Q; split; intro H; congruence.
Qed.

Lemma Qlt_bool_not_ge (x y : Q) : Qlt_bool x y = negb (Qge_bool x y).
Proof.
  destruct (Qlt_bool x y) eqn:L, (Qge_bool x y) eqn:G; try reflexivity.
  - apply Qlt_bool_iff in L. apply Qge_bool_iff in G.
    exfalso. exact (Qlt_not_le _ _ L G).
  - exfalso.
    destruct (Qlt_le_dec x y) as [H | H].
    + apply Qlt_bool_iff in H. congruence.
    + apply Qge_bool_iff in H. congruence.
Qed.

(** ** Running a computation *)

Lemma bind_ok_inv {A B} (m : M A) (f : A -> M B) st b st' :
  bind m f st = (Ok b, st') ->
  exists a st1, m st = (Ok a, st1) /\ f a st1 = (Ok b, st').
Proof.
  unfold bind. destruct (m st) as [[a | e] st1]; intro H.
  - exists a, st1. split; [reflexivity | exact H].
  - discriminate.
Qed.

Lemma bind_run {A B} (m : M A) (f : A -> M B) st a st1 :
  m st = (Ok a, st1) -> bind m f st = f a st1.
Proof. intro H. unfold bind. rewrite H. reflexivity. Qed.

Lemma bind_raise {A B} (m : M A) (f : A -> M B) st e st1 :
  m st = (Raise e, st1) -> bind m f st = (Raise e, st1).
Proof. intro H. unfold bind. rewrite H. reflexivity. Qed.

Lemma catch_ret_tt (m : M unit) st :
  catch m (fun _ => ret tt) st = (Ok tt, snd (m st)).
Proof. unfold catch. destruct (m st) as [[[] | e] s]; reflexivity. Qed.

Lemma bind_ret_run {A B} (a : A) (f : A -> M B) st :
  bind (ret a) f st = f a st.
Proof. reflexivity. Qed.

Lemma bind_assoc_run {A B C} (m : M A) (g : A -> M B) (k : B -> M C) st :
  bind (bind m g) k st = bind m (fun a => bind (g a) k) st.
Proof. unfold bind. destruct (m st) as [[a | e] s]; reflexivity. Qed.

(** ** The settings store *)

Lemma get_owner_active_absent st :
  find (fun s => String.eqb (s_key s) "owner_active") (settings_rows st)
  = None ->
  crud_settings_get_owner_active st = (Ok false, st).
Proof.
  intro H.
  unfold crud_settings_get_owner_active, crud_settings_get_value,
    crud_settings_get_by_key, bind, ret.
  rewrite H. reflexivity.
Qed.

(** C10. With no "owner_active" row in the settings store,
    [get_owner_active] returns false and touches nothing, so the owner
    counts as inactive by default: the fetch cycle then runs every
    configured platform with the flag false, and the sweep goes through its
    batch of pending replies. *)
Theorem get_owner_active_default :
  forall st : State,
    find (fun s => String.eqb (s_key s) "owner_active") (settings_rows st)
    = None ->
    crud_settings_get_owner_active st = (Ok false, st)
    /\ (forall cfg env,
          fetch_all_comments cfg env st
          = for_each PLATFORMS
              (fun platform =>
                 if is_configured env platform
                 then catch (_fetch_platform_data cfg env platform false)
                            (fun _ => ret tt)
                 else ret tt) st)
    /\ (forall cfg env,
          process_pending_replies cfg env st
          = for_each (firstn 50 (rev (filter is_pending (replies st))))
                     (sweep_reply cfg env) st).
Proof.
  intros st H. pose proof (get_owner_active_absent st H) as E.
  split; [exact E |]. split.
  - intros cfg env. unfold fetch_all_comments.
    rewrite (bind_run _ _ _ _ _ E). reflexivity.
  - intros cfg env. unfold process_pending_replies.
    rewrite (bind_run _ _ _ _ _ E). reflexivity.
Qed.

Lemma get_owner_active_default_fresh :
  crud_settings_get_owner_active init = (Ok false, init).
Proof. apply (get_owner_active_default init). reflexivity. Defined.

(** [get_owner_active] only reads. *)
Lemma get_owner_active_reads st :
  snd (crud_settings_get_owner_active st) = st.
Proof.
  unfold crud_settings_get_owner_active, crud_settings_get_value,
    crud_settings_get_by_key, bind, ret, raise.
  destruct (find _ (settings_rows st)) as [s |]; [| reflexivity].
  destruct (s_value s); reflexivity.
Qed.

(** ** The approval decision *)

Lemma praise_general_not_sensitive comment_type :
  mem comment_type ["praise"; "general"] = true ->
  mem comment_type ["complaint"; "lead"] = false.
Proof.
  unfold mem. simpl. repeat rewrite orb_false_r. intro P.
  apply orb_true_iff in P.
  destruct P as [P | P]; apply String.eqb_eq in P; subst; reflexivity.
Qed.

Lemma needs_approval_formula cfg comment_type confidence :
  _needs_approval cfg comment_type confidence
  = mem comment_type ["complaint"; "lead"]
    || Qlt_bool confidence (auto_approve_confidence cfg).
Proof.
  unfold _needs_approval. rewrite Qlt_bool_not_ge.
  destruct (mem comment_type ["praise"; "general"]) eqn:P.
  - rewrite (praise_general_not_sensitive _ P).
    destruct (Qge_bool confidence (auto_approve_confidence cfg));
      reflexivity.
  - simpl. destruct (mem comment_type ["complaint"; "lead"]); reflexivity.
Qed.

Lemma generate_reply_run cfg env text ty platform ctx author st :
  exists rr,
    generate_reply cfg env text ty platform ctx author st
    = (Ok rr, emit (ModelCall "generate" text) st)
    /\ (rr_error rr = false ->
        rr_needs_approval rr = _needs_approval cfg ty (rr_confidence rr))
    /\ (rr_error rr = true ->
        rr_needs_approval rr = true
        /\ rr_confidence rr = 0.3%Q
        /\ rr_reply rr = _get_fallback_reply ty platform)
    /\ (rr_needs_approval rr = false ->
        mem ty ["complaint"; "lead"] = false
        /\ (auto_approve_confidence cfg <= rr_confidence rr)%Q).
Proof.
  unfold generate_reply, bind, external, ret.
  destruct (generate_response env (List.length (trace st))) as [content |].
  - eexists. split; [reflexivity |]. simpl.
    split; [reflexivity |]. split; [discriminate |]. intro H.
    rewrite needs_approval_formula in H.
    apply orb_false_iff in H. destruct H as [H1 H2].
    split; [exact H1 |].
    rewrite Qlt_bool_not_ge in H2. apply negb_false_iff in H2.
    apply Qge_bool_iff. exact H2.
  - eexists. split; [reflexivity |]. simpl.
    split; [discriminate |]. split; [auto | discriminate].
Qed.

Ltac bind_inv H :=
  repeat (let a := fresh "a" in
          let s := fresh "s" in
          let E := fresh "E" in
          apply bind_ok_inv in H; destruct H as (a & s & E & H)).

Lemma crud_reply_create_run comment content stat conf trig st :
  exists r,
    crud_reply_create comment content stat conf trig st
    = (Ok r, set_replies (replies st ++ [r]) (S (next_reply_id st)) st)
    /\ reply_id r = next_reply_id st /\ r_comment_id r = comment
    /\ status r = stat /\ r_content r = content
    /\ r_confidence r = Some conf.
Proof.
  cbv [crud_reply_create bind get_state modify ret].
  eexists. split; [reflexivity |]. simpl. repeat split.
Qed.

Lemma record_metric_run env platform metric st :
  exists st', crud_analytics_record_metric env platform metric st
              = (Ok tt, st').
Proof. eexists. reflexivity. Qed.

(** The status the pipeline stores for the result of [generate_reply]. *)
Lemma stored_status_exact cfg env text ty platform ctx author st rr st'
    (stored : string) :
  generate_reply cfg env text ty platform ctx author st = (Ok rr, st') ->
  stored = (if rr_needs_approval rr then "pending" else "auto_approved") ->
  (stored = "auto_approved"
   <-> rr_error rr = false
       /\ mem ty ["complaint"; "lead"] = false
       /\ (auto_approve_confidence cfg <= rr_confidence rr)%Q)
  /\ (stored = "pending"
      <-> rr_error rr = true
          \/ mem ty ["complaint"; "lead"] = true
          \/ (rr_confidence rr < auto_approve_confidence cfg)%Q)
  /\ ((0.3 < auto_approve_confidence cfg)%Q
      \/ (forall n, generate_response env n <> None) ->
      (stored = "auto_approved"
       <-> mem ty ["complaint"; "lead"] = false
           /\ (auto_approve_confidence cfg <= rr_confidence rr)%Q)).
Proof.
  intros G ->.
  assert (Hgen : rr_error rr = true ->
                 generate_response env (List.length (trace st)) = None
                 /\ rr_confidence rr = 0.3%Q /\ rr_needs_approval rr = true).
  { revert G. unfold generate_reply, bind, external, ret.
    destruct (generate_response env (List.length (trace st)));
      intros G He; injection G as <- _; simpl in *;
      [discriminate | auto]. }
  assert (Hok : rr_error rr = false ->
                rr_needs_approval rr
                = mem ty ["complaint"; "lead"]
                  || Qlt_bool (rr_confidence rr) (auto_approve_confidence cfg)).
  { revert G. unfold generate_reply, bind, external, ret.
    destruct (generate_response env (List.length (trace st)));
      intros G He; injection G as <- _; simpl in *;
      [apply needs_approval_formula | discriminate]. }
  assert (Hge : (auto_approve_confidence cfg <= rr_confidence rr)%Q
                <-> Qlt_bool (rr_confidence rr) (auto_approve_confidence cfg)
                    = false).
  { rewrite Qlt_bool_not_ge, negb_false_iff. symmetry. apply Qge_bool_iff. }
  assert (Hlt : (rr_confidence rr < auto_approve_confidence cfg)%Q
                <-> Qlt_bool (rr_confidence rr) (auto_approve_confidence cfg)
                    = true).
  { symmetry. apply Qlt_bool_iff. }
  destruct (rr_error rr) eqn:Er.
  - destruct (Hgen eq_refl) as (Hnone & Hq & ->).
    split; [| split].
    + split; [discriminate | intros (H & _); discriminate].
    + split; [auto | reflexivity].
    + intros [Hthr | Hne].
      * split; [discriminate |]. intros (_ & Hle). exfalso.
        rewrite Hq in Hle. exact (Qlt_not_le _ _ Hthr Hle).
      * exfalso. exact (Hne _ Hnone).
  - rewrite (Hok eq_refl). rewrite Hge, Hlt.
    destruct (mem ty ["complaint"; "lead"]),
      (Qlt_bool (rr_confidence rr) (auto_approve_confidence cfg)); simpl;
      (split; [| split]); try intros _;
      split; intro H; try discriminate; try reflexivity; try tauto;
      try (destruct H as (? & ? & ?); discriminate);
      try (destruct H as (? & ?); discriminate);
      try (destruct H as [? | [? | ?]]; discriminate).
Qed.

(** A successful pipeline run went through [generate_reply] for the
    category it reports, and its reply entry is read off the result. *)
Lemma process_comment_ok_inv cfg env cd st c ty s reply ap st' :
  process_comment cfg env cd st = (Ok (ProcessOk c ty s reply ap), st') ->
  exists text platform ctx author st1 rr st2,
    generate_reply cfg env text ty platform ctx author st1 = (Ok rr, st2)
    /\ ri_status reply
       = (if rr_needs_approval rr then "pending" else "auto_approved")
    /\ ri_confidence reply = Some (rr_confidence rr)
    /\ ri_content reply = rr_reply rr.
Proof.
  unfold process_comment, catch.
  destruct (process_comment_body cfg env cd st) as [[r | e] s0] eqn:E.
  - intro H. injection H as -> _.
    unfold process_comment_body in E.
    bind_inv E.
    match goal with
    | Hc : crud_reply_create ?cid ?content ?stat ?conf ?trig ?s1
           = (Ok ?r, _) |- _ =>
        destruct (crud_reply_create_run cid content stat conf trig s1)
          as (r' & Hr & _ & _ & Hs & _);
        rewrite Hr in Hc; injection Hc as <- _
    end.
    unfold ret in E. injection E as <- <- <- <- <- _.
    match goal with
    | Hg : generate_reply cfg env ?text _ ?platform ?ctx ?author ?s1
           = (Ok ?rr, ?s2) |- _ =>
        exists text, platform, ctx, author, s1, rr, s2;
        split; [exact Hg |]
    end.
    simpl. rewrite Hs. repeat split.
  - unfold bind, crud_analytics_record_metric, bind, now, modify, ret.
    simpl. discriminate.
Qed.

(** C1 (amended).  [_needs_approval] is the table: complaint and lead
    always need approval; praise and general at or above the threshold do
    not; every category other than complaint and lead (question, spam and
    any other label included) needs approval exactly when its confidence is
    below the threshold.  A generated reply asks for no approval exactly
    when generation did not fall back and that table says so.  A reply
    stored by the pipeline is "auto_approved" or "pending": it is
    "auto_approved" exactly when generation did not fall back, the category
    is neither complaint nor lead and the confidence is at or above the
    threshold.  With a threshold above 0.3 (the confidence of a fallback
    reply), or with a model that always answers, that is exactly when the
    category is neither complaint nor lead and the stored confidence is at
    or above the threshold. *)
Theorem approval_decision_table :
  forall (cfg : Settings) (comment_type : string) (confidence : Q),
    (mem comment_type ["complaint"; "lead"] = true ->
     _needs_approval cfg comment_type confidence = true)
    /\ (mem comment_type ["praise"; "general"] = true ->
        (auto_approve_confidence cfg <= confidence)%Q ->
        _needs_approval cfg comment_type confidence = false)
    /\ (mem comment_type ["complaint"; "lead"] = false ->
        (_needs_approval cfg comment_type confidence = true
         <-> (confidence < auto_approve_confidence cfg)%Q))
    /\ (forall env text platform ctx author st rr st',
          generate_reply cfg env text comment_type platform ctx author st
          = (Ok rr, st') ->
          rr_needs_approval rr
          = rr_error rr
            || _needs_approval cfg comment_type (rr_confidence rr))
    /\ (forall env cd st c s reply ap,
          fst (process_comment cfg env cd st)
          = Ok (ProcessOk c comment_type s reply ap) ->
          (ri_status reply = "auto_approved" \/ ri_status reply = "pending")
          /\ (ri_status reply = "auto_approved" ->
              mem comment_type ["complaint"; "lead"] = false
              /\ exists q, ri_confidence reply = Some q
                           /\ (auto_approve_confidence cfg <= q)%Q))
    /\ (forall env cd st c s reply ap,
          fst (process_comment cfg env cd st)
          = Ok (ProcessOk c comment_type s reply ap) ->
          exists text platform ctx author st1 rr st2,
            generate_reply cfg env text comment_type platform ctx author st1
            = (Ok rr, st2)
            /\ ri_confidence reply = Some (rr_confidence rr)
            /\ (ri_status reply = "auto_approved"
                <-> rr_error rr = false
                    /\ mem comment_type ["complaint"; "lead"] = false
                    /\ (auto_approve_confidence cfg <= rr_confidence rr)%Q)
            /\ (ri_status reply = "pending"
                <-> rr_error rr = true
                    \/ mem comment_type ["complaint"; "lead"] = true
                    \/ (rr_confidence rr < auto_approve_confidence cfg)%Q)
            /\ ((0.3 < auto_approve_confidence cfg)%Q
                \/ (forall n, generate_response env n <> None) ->
                (ri_status reply = "auto_approved"
                 <-> mem comment_type ["complaint"; "lead"] = false
                     /\ (auto_approve_confidence cfg
                         <= rr_confidence rr)%Q))).
Proof.
  intros cfg ty q.
  split; [| split; [| split; [| split; [| split]]]].
  - intro S. rewrite needs_approval_formula, S. reflexivity.
  - intros P G. rewrite needs_approval_formula.
    rewrite (praise_general_not_sensitive _ P). simpl.
    rewrite Qlt_bool_not_ge. apply negb_false_iff.
    apply Qge_bool_iff. exact G.
  - intro S. rewrite needs_approval_formula, S. simpl. apply Qlt_bool_iff.
  - intros env text platform ctx author st rr st' G.
    destruct (generate_reply_run cfg env text ty platform ctx author st)
      as (rr' & G' & Hok & Herr & _).
    rewrite G in G'. injection G' as <- _.
    destruct (rr_error rr).
    + destruct Herr as (-> & _); reflexivity.
    + simpl. apply Hok. reflexivity.
  - intros env cd st c s reply ap H.
    destruct (process_comment cfg env cd st) as [r st'] eqn:E.
    simpl in H. subst r.
    apply process_comment_ok_inv in E
      as (text & platform & ctx & author & st1 & rr & st2 & G & Hs & Hc & _).
    destruct (generate_reply_run cfg env text ty platform ctx author st1)
      as (rr' & G' & _ & _ & Hn).
    rewrite G in G'. injection G' as <- _.
    rewrite Hs. destruct (rr_needs_approval rr).
    + split; [right; reflexivity | discriminate].
    + split; [left; reflexivity |]. intros _.
      destruct (Hn eq_refl) as [H1 H2].
      split; [exact H1 |]. exists (rr_confidence rr). split; assumption.
  - intros env cd st c s reply ap H.
    destruct (process_comment cfg env cd st) as [r st'] eqn:E.
    simpl in H. subst r.
    apply process_comment_ok_inv in E
      as (text & platform & ctx & author & st1 & rr & st2 & G & Hs & Hc & _).
    exists text, platform, ctx, author, st1, rr, st2.
    split; [exact G |]. split; [exact Hc |].
    apply (stored_status_exact cfg env text ty platform ctx author st1 rr st2
             (ri_status reply) G Hs).
Qed.

Lemma approval_decision_table_lead_099 :
  _needs_approval default_settings "lead" 0.99%Q = true
  /\ _needs_approval default_settings "praise" 0.85%Q = false
  /\ _needs_approval default_settings "praise" 0.79%Q = true
  /\ (exists text platform ctx author st1 rr st2,
        generate_reply default_settings sample_env text "praise" platform
                       ctx author st1 = (Ok rr, st2)
        /\ rr_error rr = false
        /\ (auto_approve_confidence default_settings
            <= rr_confidence rr)%Q).
Proof.
  split; [| split; [| split]].
  - apply (proj1 (approval_decision_table default_settings "lead" 0.99%Q)).
    reflexivity.
  - apply (proj1 (proj2 (approval_decision_table default_settings "praise"
                           0.85%Q))).
    + reflexivity.
    + vm_compute. discriminate.
  - apply (proj1 (proj2 (proj2 (approval_decision_table default_settings
                                  "praise" 0.79%Q)))).
    + reflexivity.
    + vm_compute. reflexivity.
  - destruct (proj2 (proj2 (proj2 (proj2 (proj2
                (approval_decision_table default_settings "praise" 0.85%Q)))))
              sample_env (sample_comment "c2" "thank you so much") init
              1%nat "positive"
              {| ri_id := 1; ri_content := "Thanks for watching!";
                 ri_status := "auto_approved";
                 ri_confidence := Some (0.7 + 0.15)%Q |} true eq_refl)
      as (text & platform & ctx & author & st1 & rr & st2 & G & _ & Ha & _).
    exists text, platform, ctx, author, st1, rr, st2.
    split; [exact G |].
    destruct (proj1 Ha eq_refl) as (He & _ & Hq). split; assumption.
Defined.

(** C1 as stated fails: a question at confidence 0.9 is not held for
    approval, and with the threshold configured at 0.7 the pipeline stores
    the reply to a question as "auto_approved". *)
Lemma question_auto_approved :
  _needs_approval default_settings "question" 0.9%Q = false
  /\ mem "question" ["praise"; "general"] = false
  /\ fst (process_comment (set_threshold 0.7%Q default_settings) sample_env
            (sample_comment "c1" "nice video") init)
     = Ok (ProcessOk 1 "question" "positive"
             {| ri_id := 1; ri_content := "Thanks for watching!";
                ri_status := "auto_approved";
                ri_confidence := Some 0.7%Q |} true).
Proof. repeat split; vm_compute; reflexivity. Qed.

(** ** Keyword classification *)

Lemma find_first {A} (p : A -> bool) l1 x l2 :
  (forall y, In y l1 -> p y = false) -> p x = true ->
  find p (l1 ++ x :: l2) = Some x.
Proof.
  intros H Hx. induction l1 as [| y l1 IH]; simpl.
  - rewrite Hx. reflexivity.
  - rewrite (H y (or_introl eq_refl)). apply IH.
    intros z Hz. apply H. right. exact Hz.
Qed.

Lemma find_exists {A} (p : A -> bool) l x :
  In x l -> p x = true -> exists y, find p l = Some y.
Proof.
  intros Hin Hp. destruct (find p l) as [y |] eqn:E.
  - exists y. reflexivity.
  - rewrite (find_none p l E x Hin) in Hp. discriminate.
Qed.

Lemma keyword_hit_intro text kw entry :
  In kw (snd entry) -> contains kw text = true ->
  keyword_hit text entry = true.
Proof.
  intros Hin Hc. unfold keyword_hit, any_in. apply existsb_exists.
  exists kw. split; assumption.
Qed.

(** C7 (amended).  When the lowercased text contains a keyword of some
    category, classification returns at once, without a model call (the
    state, trace included, is unchanged), with confidence 0.85 and method
    "keyword"; the category is the first one in the configured order
    (lead, praise, question, complaint, spam) that has a keyword in the
    text.  So a lead keyword such as "how much" always gives lead, and a
    keyword of another category gives that category when no earlier
    category matches. *)
Theorem keyword_match_short_circuits :
  forall (env : Env) (text platform : string) (st : State)
         (cat kw : string) (kws : list string),
    In (cat, kws) COMMENT_TYPES -> In kw kws ->
    contains kw (lower text) = true ->
    exists ty kws',
      find (keyword_hit (lower text)) COMMENT_TYPES = Some (ty, kws')
      /\ classify_comment env text platform st
         = (Ok (ty, {| cl_confidence := 0.85%Q;
                       cl_method := "keyword";
                       matched_keywords :=
                         filter (fun k => contains k (lower text)) kws' |}),
            st)
      /\ (cat = "lead" -> ty = "lead")
      /\ (forall before after,
            COMMENT_TYPES = (before ++ (cat, kws) :: after)%list ->
            (forall e, In e before -> keyword_hit (lower text) e = false) ->
            ty = cat).
Proof.
  intros env text platform st cat kw kws Hin Hkw Hc.
  assert (Hhit : keyword_hit (lower text) (cat, kws) = true)
    by (apply keyword_hit_intro with (kw := kw); assumption).
  destruct (find_exists _ _ _ Hin Hhit) as [[ty kws'] Hf].
  exists ty, kws'. split; [exact Hf |]. split.
  - unfold classify_comment. rewrite Hf. reflexivity.
  - split.
    + intros ->.
      assert (kws = ["interested"; "how much"; "price"; "buy"; "want";
                     "need"; "sign up"]) as ->.
      { unfold COMMENT_TYPES in Hin. simpl in Hin.
        destruct Hin as [H | [H | [H | [H | [H | []]]]]];
          try discriminate H.
        injection H as <-. reflexivity. }
      unfold COMMENT_TYPES in Hf. simpl in Hf. rewrite Hhit in Hf.
      injection Hf as <- _. reflexivity.
    + intros before after Heq Hbefore.
      rewrite Heq in Hf.
      rewrite (find_first _ before (cat, kws) after Hbefore Hhit) in Hf.
      injection Hf as <- _. reflexivity.
Qed.

Lemma keyword_match_how_much :
  exists ty kws',
    find (keyword_hit (lower "How much is it")) COMMENT_TYPES
    = Some (ty, kws')
    /\ classify_comment classify_down_env "How much is it" "youtube" init
       = (Ok (ty, {| cl_confidence := 0.85%Q;
                     cl_method := "keyword";
                     matched_keywords :=
                       filter (fun k => contains k (lower "How much is it"))
                              kws' |}),
          init)
    /\ ty = "lead".
Proof.
  destruct (keyword_match_short_circuits classify_down_env
              "How much is it" "youtube" init "lead" "how much"
              ["interested"; "how much"; "price"; "buy"; "want"; "need";
               "sign up"])
    as (ty & kws' & Hf & Hc & Hlead & _).
  - simpl. left. reflexivity.
  - simpl. right. left. reflexivity.
  - vm_compute. reflexivity.
  - exists ty, kws'. split; [exact Hf |]. split; [exact Hc |].
    apply Hlead. reflexivity.
Defined.

(** C7 as stated fails: "bad price" contains the complaint keyword "bad",
    yet it is classified as lead, whose keyword "price" comes first. *)
Lemma complaint_keyword_classified_lead :
  In ("complaint",
      ["problem"; "issue"; "wrong"; "bad"; "terrible"; "hate";
       "disappointed"]) COMMENT_TYPES
  /\ contains "bad" (lower "bad price") = true
  /\ fst (classify_comment sample_env "bad price" "youtube" init)
     = Ok ("lead", {| cl_confidence := 0.85%Q; cl_method := "keyword";
                      matched_keywords := ["price"] |}).
Proof.
  repeat split; try (vm_compute; reflexivity).
  unfold COMMENT_TYPES. simpl. tauto.
Qed.

(** ** Framing: what a computation leaves related

    *** Computations that only read *)

Lemma reads_ret A (a : A) : reads (ret a).
Proof. intro st. reflexivity. Qed.

Lemma reads_raise A e : reads (@raise A e).
Proof. intro st. reflexivity. Qed.

Lemma reads_bind A B (m : M A) (f : A -> M B) :
  reads m -> (forall a, reads (f a)) -> reads (bind m f).
Proof.
  intros Hm Hf st. unfold bind. specialize (Hm st).
  destruct (m st) as [[a | e] st1]; simpl in Hm; subst st1.
  - apply Hf.
  - reflexivity.
Qed.

Lemma reads_get_state : reads get_state.
Proof. intro st. reflexivity. Qed.

Lemma reads_subscript A key (o : option A) : reads (subscript key o).
Proof. destruct o; intro st; reflexivity. Qed.

Lemma reads_attribute A name (o : option A) : reads (attribute name o).
Proof. destruct o; intro st; reflexivity. Qed.

Lemma reads_now env : reads (now env).
Proof. intro st. reflexivity. Qed.

Lemma reads_crud_post_get id : reads (crud_post_get id).
Proof. intro st. reflexivity. Qed.

Lemma reads_crud_post_get_by_platform_id p k :
  reads (crud_post_get_by_platform_id p k).
Proof. intro st. reflexivity. Qed.

Lemma reads_crud_comment_get id : reads (crud_comment_get id).
Proof. intro st. reflexivity. Qed.

Lemma reads_crud_comment_get_by_platform_id p k :
  reads (crud_comment_get_by_platform_id p k).
Proof. intro st. reflexivity. Qed.

Lemma reads_crud_reply_get id : reads (crud_reply_get id).
Proof. intro st. reflexivity. Qed.

Lemma reads_crud_reply_get_pending n : reads (crud_reply_get_pending n).
Proof. intro st. reflexivity. Qed.

Lemma reads_get_owner_active : reads crud_settings_get_owner_active.
Proof. intro st. apply get_owner_active_reads. Qed.

Lemma reads_metadata_post_ref md : reads (metadata_post_ref md).
Proof. destruct md as [[] |]; intro st; reflexivity. Qed.

Lemma reads_metadata_post_urn md : reads (metadata_post_urn md).
Proof. destruct md as [[] |]; intro st; reflexivity. Qed.

Lemma reads_post_context_of id : reads (post_context_of id).
Proof.
  unfold post_context_of. destruct id as [[| n] |];
    try apply reads_ret.
  apply reads_bind; [apply reads_crud_post_get |].
  intros [p |]; [| apply reads_ret].
  destruct (post_content p) as [c |]; [| apply reads_ret].
  destruct (String.eqb c EmptyString); apply reads_ret.
Qed.

Create HintDb frame.

#[local] Hint Resolve reads_ret reads_raise reads_get_state reads_subscript
  reads_attribute reads_now
  reads_crud_post_get reads_crud_post_get_by_platform_id
  reads_crud_comment_get reads_crud_comment_get_by_platform_id
  reads_crud_reply_get reads_crud_reply_get_pending reads_get_owner_active
  reads_metadata_post_ref reads_metadata_post_urn reads_post_context_of
  : frame.

Section Frame.

Variable cfg : Settings.
Variable env : Env.
Variable R : State -> State -> Prop.
Hypothesis R_refl : forall st, R st st.
Hypothesis R_trans : forall a b c, R a b -> R b c -> R a c.

Lemma preserves_ret A (a : A) : preserves R (ret a).
Proof. intro st. apply R_refl. Qed.

Lemma preserves_raise A e : preserves R (@raise A e).
Proof. intro st. apply R_refl. Qed.

Lemma preserves_reads A (m : M A) : reads m -> preserves R m.
Proof. intros H st. rewrite H. apply R_refl. Qed.

Lemma preserves_bind A B (m : M A) (f : A -> M B) :
  preserves R m -> (forall a, preserves R (f a)) -> preserves R (bind m f).
Proof.
  intros Hm Hf st. unfold bind. specialize (Hm st).
  destruct (m st) as [[a | e] st1]; simpl in Hm.
  - apply R_trans with st1; [exact Hm | apply Hf].
  - exact Hm.
Qed.

Lemma preserves_catch A (m : M A) (h : Exn -> M A) :
  preserves R m -> (forall e, preserves R (h e)) -> preserves R (catch m h).
Proof.
  intros Hm Hh st. unfold catch. specialize (Hm st).
  destruct (m st) as [[a | e] st1]; simpl in Hm.
  - exact Hm.
  - apply R_trans with st1; [exact Hm | apply Hh].
Qed.

Lemma preserves_for_each A (l : list A) (body : A -> M unit) :
  (forall x, preserves R (body x)) -> preserves R (for_each l body).
Proof.
  intro H. induction l as [| x l IH]; simpl.
  - apply preserves_ret.
  - apply preserves_bind; [apply H | intros _; exact IH].
Qed.

Lemma preserves_modify (f : State -> State) :
  (forall st, R st (f st)) -> preserves R (modify f).
Proof. intros H st. apply H. Qed.

Ltac frame_step :=
  match goal with
  | |- preserves _ (bind _ _) => apply preserves_bind; [| intro]
  | |- preserves _ (catch _ _) => apply preserves_catch; [| intro]
  | |- preserves _ (for_each _ _) => apply preserves_for_each; intro
  | |- preserves _ (ret _) => apply preserves_ret
  | |- preserves _ (raise _) => apply preserves_raise
  | |- preserves _ (match ?x with _ => _ end) => destruct x
  end.

(** *** What the pipeline and the gated fetch cycle are made of *)

Hypothesis R_quiet :
  forall e st, is_post_event e = false -> R st (emit e st).
Hypothesis R_posts : forall l n st, R st (set_posts l n st).
Hypothesis R_settings : forall l st, R st (set_settings_rows l st).
Hypothesis R_analytics : forall l st, R st (set_analytics l st).
Hypothesis R_last_fetch : forall l st, R st (set_last_fetch l st).
Hypothesis R_upsert :
  forall cd, preserves R (crud_comment_create_or_update cd).
Hypothesis R_sentiment :
  forall id s, preserves R (crud_comment_update id (set_sentiment s)).
Hypothesis R_reply_create :
  forall c content (needs : bool) conf trig,
    preserves R (crud_reply_create c content
                   (if needs then "pending" else "auto_approved")
                   conf trig).

Lemma preserves_external_quiet A e (answer : nat -> A) :
  is_post_event e = false -> preserves R (external e answer).
Proof. intros H st. apply R_quiet. exact H. Qed.

Ltac frame :=
  repeat first
    [ frame_step
    | solve [apply preserves_reads; auto with frame]
    | solve [apply preserves_modify; intro; cbv beta; auto with frame]
    | solve [apply preserves_external_quiet; reflexivity]
    | solve [auto with frame] ].

Lemma preserves_record_metric platform metric :
  preserves R (crud_analytics_record_metric env platform metric).
Proof.
  unfold crud_analytics_record_metric. frame.
Qed.

Lemma preserves_classify text platform :
  preserves R (classify_comment env text platform).
Proof.
  unfold classify_comment.
  destruct (find _ COMMENT_TYPES) as [[ty kws] |]; frame.
Qed.

Lemma preserves_generate text ty platform ctx author :
  preserves R (generate_reply cfg env text ty platform ctx author).
Proof.
  unfold generate_reply. frame.
Qed.

Lemma preserves_sentiment text : preserves R (analyze_sentiment env text).
Proof.
  unfold analyze_sentiment. frame.
Qed.

Lemma preserves_ghl c t : preserves R (_process_ghl_actions c t).
Proof.
  unfold _process_ghl_actions. apply preserves_modify.
  intro st. apply R_quiet. reflexivity.
Qed.

Lemma preserves_notify u : preserves R (notify_update u).
Proof.
  unfold notify_update. apply preserves_modify.
  intro st. apply R_quiet. reflexivity.
Qed.

Hint Resolve preserves_record_metric preserves_classify preserves_generate
  preserves_sentiment preserves_ghl preserves_notify : frame.

Lemma preserves_process_comment cd :
  preserves R (process_comment cfg env cd).
Proof.
  unfold process_comment, process_comment_body. frame.
Qed.

Lemma preserves_set_owner_active b :
  preserves R (crud_settings_set_owner_active b).
Proof.
  unfold crud_settings_set_owner_active, crud_settings_set_value.
  apply preserves_bind.
  - intro st. apply R_refl.
  - intros [s |]; frame.
Qed.

Lemma preserves_post_create_or_update pd :
  preserves R (crud_post_create_or_update pd).
Proof.
  unfold crud_post_create_or_update, crud_post_create, crud_post_update.
  frame.
Qed.

Lemma preserves_fetch_comments_of platform posts :
  preserves R (fetch_comments_of env platform posts).
Proof.
  induction posts as [| p posts IH]; simpl; frame.
Qed.

Hint Resolve preserves_process_comment preserves_post_create_or_update
  preserves_fetch_comments_of preserves_set_owner_active : frame.

(** The fetch cycle while the owner is active. *)
Lemma preserves_fetch_comment_gated platform cd :
  preserves R (fetch_comment cfg env platform true cd).
Proof. unfold fetch_comment. simpl. frame. Qed.

Hint Resolve preserves_fetch_comment_gated : frame.

Lemma preserves_fetch_platform_gated platform :
  preserves R (_fetch_platform_data cfg env platform true).
Proof.
  unfold _fetch_platform_data. frame.
Qed.

Lemma fetch_all_gated st :
  crud_settings_get_owner_active st = (Ok true, st) ->
  R st (snd (fetch_all_comments cfg env st)).
Proof.
  intro H. unfold fetch_all_comments.
  rewrite (bind_run _ _ _ _ _ H).
  apply preserves_for_each. intro platform.
  destruct (is_configured env platform); frame.
  apply preserves_fetch_platform_gated.
Qed.

(** *** Posting *)

Hypothesis R_post_event :
  forall p t x st, R st (emit (AdapterPost p t x) st).
Hypothesis R_mark_posted :
  forall id prid, preserves R (crud_reply_mark_as_posted env id prid).
Hypothesis R_approve :
  forall id by_, preserves R (crud_reply_approve env id by_).

Lemma preserves_adapter_reply platform target text :
  preserves R (adapter_reply env platform target text).
Proof.
  unfold adapter_reply. frame.
  intro st. apply R_post_event.
Qed.

Hint Resolve preserves_adapter_reply : frame.

Lemma preserves_post_reply platform cd rd :
  preserves R (_post_reply env platform cd rd).
Proof. unfold _post_reply. frame. Qed.

Hint Resolve preserves_post_reply : frame.

Lemma preserves_fetch_comment platform owner_active cd :
  preserves R (fetch_comment cfg env platform owner_active cd).
Proof. unfold fetch_comment. frame. Qed.

Hint Resolve preserves_fetch_comment : frame.

Lemma preserves_fetch_platform platform owner_active :
  preserves R (_fetch_platform_data cfg env platform owner_active).
Proof.
  unfold _fetch_platform_data. frame.
Qed.

Hint Resolve preserves_fetch_platform : frame.

Lemma preserves_fetch_all : preserves R (fetch_all_comments cfg env).
Proof. unfold fetch_all_comments. frame. Qed.

Lemma preserves_sweep_reply r : preserves R (sweep_reply cfg env r).
Proof. unfold sweep_reply. frame. Qed.

Hint Resolve preserves_sweep_reply : frame.

Lemma preserves_sweep : preserves R (process_pending_replies cfg env).
Proof. unfold process_pending_replies. frame. Qed.

(** *** Manual approval and rejection, from their parts *)

Hypothesis R_mark_replied :
  forall id, preserves R (crud_comment_mark_as_replied id).
Hypothesis R_reject : forall id, preserves R (crud_reply_reject id).

Lemma preserves_approve_reply_parts id by_ :
  preserves R (approve_reply env id by_).
Proof. unfold approve_reply. frame. Qed.

Lemma preserves_reject_reply_parts id :
  preserves R (reject_reply env id).
Proof. unfold reject_reply. frame. Qed.

(** *** Whole operations *)

Hypothesis R_approve_reply :
  forall id by_, preserves R (approve_reply env id by_).

Lemma run_op_without_reject op st :
  is_reject op = false -> R st (run_op cfg env op st).
Proof.
  destruct op; simpl; intro H; try discriminate.
  - apply preserves_fetch_all.
  - apply preserves_sweep.
  - apply preserves_process_comment.
  - apply R_approve_reply.
  - apply preserves_set_owner_active.
Qed.

Lemma run_without_reject ops st :
  forallb (fun op => negb (is_reject op)) ops = true ->
  R st (run cfg env ops st).
Proof.
  revert st. induction ops as [| op ops IH]; simpl; intros st H.
  - apply R_refl.
  - apply andb_true_iff in H. destruct H as [H1 H2].
    apply R_trans with (run_op cfg env op st).
    + apply run_op_without_reject. apply negb_true_iff. exact H1.
    + apply IH. exact H2.
Qed.

Hypothesis R_reject_reply : forall id, preserves R (reject_reply env id).

Lemma run_op_related op st : R st (run_op cfg env op st).
Proof.
  destruct (is_reject op) eqn:E.
  - destruct op; try discriminate. apply R_reject_reply.
  - apply run_op_without_reject. exact E.
Qed.

Lemma run_related ops st : R st (run cfg env ops st).
Proof.
  revert st. induction ops as [| op ops IH]; simpl; intro st.
  - apply R_refl.
  - apply R_trans with (run_op cfg env op st);
      [apply run_op_related | apply IH].
Qed.

End Frame.

(** ** Tables as lists *)

Lemma update_first_map {A B} (g : A -> B) p f (l : list A) :
  (forall x, In x l -> p x = true -> g (f x) = g x) ->
  map g (update_first p f l) = map g l.
Proof.
  induction l as [| x l IH]; simpl; intro H; [reflexivity |].
  destruct (p x) eqn:E; simpl.
  - rewrite (H x (or_introl eq_refl) E). reflexivity.
  - rewrite IH; [reflexivity |]. intros y Hy. apply H. right. exact Hy.
Qed.

Lemma update_first_Forall {A} (P : A -> Prop) p f (l : list A) :
  (forall x, P x -> P (f x)) -> Forall P l -> Forall P (update_first p f l).
Proof.
  intros Hf H. induction H as [| x l Hx Hl IH]; simpl.
  - constructor.
  - destruct (p x); constructor; auto.
Qed.

Lemma update_first_In {A} p f (l : list A) y :
  In y (update_first p f l) ->
  In y l \/ exists x, In x l /\ p x = true /\ y = f x.
Proof.
  induction l as [| x l IH]; simpl; [tauto |].
  destruct (p x) eqn:E; simpl.
  - intros [<- | H].
    + right. exists x. auto.
    + left. right. exact H.
  - intros [<- | H].
    + left. left. reflexivity.
    + destruct (IH H) as [H1 | (z & Hz & Hp & ->)].
      * left. right. exact H1.
      * right. exists z. auto.
Qed.

Lemma update_first_keeps {A} p f (l : list A) x :
  In x l -> In x (update_first p f l) \/ In (f x) (update_first p f l).
Proof.
  induction l as [| z l IH]; simpl; [tauto |].
  destruct (p z) eqn:E; simpl; intros [Hz | H].
  - subst z. right. left. reflexivity.
  - left. right. exact H.
  - subst z. left. left. reflexivity.
  - destruct (IH H); [left | right]; right; assumption.
Qed.

Lemma update_first_none {A} p f (l : list A) :
  find p l = None -> update_first p f l = l.
Proof.
  induction l as [| x l IH]; simpl; [reflexivity |].
  destruct (p x); [discriminate |]. intro H. rewrite IH; auto.
Qed.

(** Looking up by one key in a table updated by another (or the same)
    key, when the update keeps the key. *)
Lemma update_first_length {A} p f (l : list A) :
  List.length (update_first p f l) = List.length l.
Proof.
  induction l as [| x l IH]; simpl; [reflexivity |].
  destruct (p x); simpl; congruence.
Qed.

Lemma find_update_first {A} (key : A -> nat) f (l : list A) (a b : nat) :
  (forall x, key (f x) = key x) ->
  find (fun x => Nat.eqb (key x) b)
       (update_first (fun x => Nat.eqb (key x) a) f l)
  = option_map (fun x => if Nat.eqb a b then f x else x)
               (find (fun x => Nat.eqb (key x) b) l).
Proof.
  intro Hf. induction l as [| x l IH]; simpl; [reflexivity |].
  destruct (Nat.eqb (key x) a) eqn:Ea; simpl.
  - rewrite Hf. destruct (Nat.eqb (key x) b) eqn:Eb; simpl.
    + apply Nat.eqb_eq in Ea, Eb. subst.
      rewrite Nat.eqb_refl. reflexivity.
    + destruct (find (fun y => Nat.eqb (key y) b) l) as [y |] eqn:F; simpl;
        [| reflexivity].
      destruct (Nat.eqb a b) eqn:Eab; [| reflexivity].
      apply Nat.eqb_eq in Ea, Eab. subst.
      rewrite Nat.eqb_refl in Eb. discriminate.
  - destruct (Nat.eqb (key x) b) eqn:Eb; simpl.
    + destruct (Nat.eqb a b) eqn:Eab; [| reflexivity].
      apply Nat.eqb_eq in Eb, Eab. subst.
      rewrite Nat.eqb_refl in Ea. discriminate.
    + exact IH.
Qed.

Lemma find_app_last {A} (p : A -> bool) l x :
  find p (l ++ [x])
  = match find p l with
    | Some y => Some y
    | None => if p x then Some x else None
    end.
Proof.
  induction l as [| y l IH]; simpl; [reflexivity |].
  destruct (p y); [reflexivity | exact IH].
Qed.

Lemma NoDup_map_inj {A B} (g : A -> B) (l : list A) x y :
  NoDup (map g l) -> In x l -> In y l -> g x = g y -> x = y.
Proof.
  induction l as [| z l IH]; simpl; [tauto |].
  intros H Hx Hy E. inversion H as [| ? ? Hn Hd]; subst.
  destruct Hx as [-> | Hx], Hy as [-> | Hy]; auto.
  - exfalso. apply Hn. rewrite E. apply in_map. exact Hy.
  - exfalso. apply Hn. rewrite <- E. apply in_map. exact Hx.
Qed.

Lemma NoDup_app_last {A} (l : list A) x :
  NoDup l -> ~ In x l -> NoDup (l ++ [x]).
Proof.
  intros H Hx. induction H as [| y l Hy Hl IH]; simpl.
  - constructor; [tauto | constructor].
  - constructor.
    + rewrite in_app_iff. simpl. intros [H1 | [-> | []]].
      * contradiction.
      * apply Hx. left. reflexivity.
    + apply IH. intro H1. apply Hx. right. exact H1.
Qed.

Lemma filter_none {A} (p : A -> bool) l :
  find p l = None -> filter p l = [].
Proof.
  induction l as [| x l IH]; simpl; [reflexivity |].
  destruct (p x); [discriminate | exact IH].
Qed.

Lemma comment_has_key_eq platform pcid c :
  comment_has_key platform pcid c = true <-> key_of c = (platform, pcid).
Proof.
  unfold comment_has_key, key_of. rewrite andb_true_iff.
  rewrite !String.eqb_eq. split.
  - intros [-> ->]. reflexivity.
  - intro H. injection H as -> ->. auto.
Qed.

(** Distinct keys: at most one row per key. *)
Lemma NoDup_keys_filter (l : list Comment) platform pcid :
  NoDup (map key_of l) ->
  (List.length (filter (comment_has_key platform pcid) l) <= 1)%nat.
Proof.
  induction l as [| c l IH]; simpl; intro H; [lia |].
  inversion H as [| ? ? Hn Hd]; subst.
  destruct (comment_has_key platform pcid c) eqn:E; [| auto].
  simpl. apply comment_has_key_eq in E.
  destruct (filter (comment_has_key platform pcid) l) as [| c' l'] eqn:F;
    [simpl; lia |].
  exfalso. apply Hn.
  assert (Hc' : In c' (filter (comment_has_key platform pcid) l))
    by (rewrite F; left; reflexivity).
  apply filter_In in Hc'. destruct Hc' as [Hin Hk].
  apply comment_has_key_eq in Hk. rewrite E, <- Hk.
  apply in_map. exact Hin.
Qed.

(** ** What the repository primitives do to the state *)

Lemma crud_comment_update_run id f st :
  crud_comment_update id f st
  = (Ok (find (fun c => Nat.eqb (comment_id c) id)
              (update_first (fun c => Nat.eqb (comment_id c) id) f
                            (comments st))),
     set_comments (update_first (fun c => Nat.eqb (comment_id c) id) f
                                (comments st))
                  (next_comment_id st) st).
Proof. reflexivity. Qed.

Lemma crud_reply_update_run id f st :
  crud_reply_update id f st
  = (Ok (find (fun r => Nat.eqb (reply_id r) id)
              (update_first (fun r => Nat.eqb (reply_id r) id) f
                            (replies st))),
     set_replies (update_first (fun r => Nat.eqb (reply_id r) id) f
                               (replies st))
                 (next_reply_id st) st).
Proof. reflexivity. Qed.

Lemma crud_reply_approve_run env id by_ st :
  crud_reply_approve env id by_ st
  = crud_reply_update id (set_approved (utcnow env (List.length (trace st)))
                                       by_) st.
Proof. reflexivity. Qed.

Lemma crud_reply_mark_as_posted_run env id prid st :
  crud_reply_mark_as_posted env id prid st
  = crud_reply_update id (set_posted (utcnow env (List.length (trace st)))
                                     prid) st.
Proof. reflexivity. Qed.

(** The three outcomes of create-or-update: a missing key of the dict, an
    update of the row that has the identity key, a new row. *)
Lemma upsert_cases cd st :
  snd (crud_comment_create_or_update cd st) = st
  \/ (exists platform pcid e,
        cd_platform cd = Some platform
        /\ cd_platform_comment_id cd = Some pcid
        /\ find (comment_has_key platform pcid) (comments st) = Some e
        /\ snd (crud_comment_create_or_update cd st)
           = set_comments
               (update_first (fun c => Nat.eqb (comment_id c) (comment_id e))
                             (set_comment_fields platform pcid cd)
                             (comments st))
               (next_comment_id st) st)
  \/ (exists platform pcid,
        cd_platform cd = Some platform
        /\ cd_platform_comment_id cd = Some pcid
        /\ find (comment_has_key platform pcid) (comments st) = None
        /\ snd (crud_comment_create_or_update cd st)
           = set_comments
               (comments st
                ++ [new_comment (next_comment_id st) platform pcid cd])
               (S (next_comment_id st)) st).
Proof.
  unfold crud_comment_create_or_update.
  destruct (cd_platform cd) as [platform |]; [| left; reflexivity].
  destruct (cd_platform_comment_id cd) as [pcid |]; [| left; reflexivity].
  cbv [bind subscript ret crud_comment_get_by_platform_id].
  destruct (find (comment_has_key platform pcid) (comments st))
    as [e |] eqn:F.
  - right. left. exists platform, pcid, e.
    repeat split; try exact F; reflexivity.
  - right. right. exists platform, pcid.
    repeat split; try exact F; reflexivity.
Qed.

(** ** Identity keys stay unique *)

Lemma comments_wf_ext st st' :
  comments st' = comments st -> next_comment_id st' = next_comment_id st ->
  wf_kept st st'.
Proof. unfold wf_kept, comments_wf. intros -> ->. auto. Qed.

Lemma wf_kept_refl st : wf_kept st st.
Proof. intro H. exact H. Qed.

Lemma wf_kept_trans a b c : wf_kept a b -> wf_kept b c -> wf_kept a c.
Proof. unfold wf_kept. auto. Qed.

Lemma wf_kept_update st a f :
  (forall c, comment_id (f c) = comment_id c) ->
  (forall c, In c (comments st) -> comment_id c = a ->
             comments_wf st -> key_of (f c) = key_of c) ->
  wf_kept st
    (set_comments (update_first (fun c => Nat.eqb (comment_id c) a) f
                                (comments st))
                  (next_comment_id st) st).
Proof.
  intros Hid Hkey (Hn & Hlt & Hk). unfold comments_wf. simpl.
  split; [| split].
  - rewrite update_first_map; [exact Hn | auto].
  - apply update_first_Forall; [| exact Hlt].
    intros c Hc. rewrite Hid. exact Hc.
  - rewrite update_first_map; [exact Hk |].
    intros c Hc E. apply Nat.eqb_eq in E.
    apply Hkey; auto. repeat split; assumption.
Qed.

Lemma wf_kept_upsert cd : preserves wf_kept (crud_comment_create_or_update cd).
Proof.
  intro st.
  destruct (upsert_cases cd st)
    as [-> | [(p & k & e & _ & _ & F & ->) | (p & k & _ & _ & F & ->)]].
  - apply wf_kept_refl.
  - apply wf_kept_update; [reflexivity |].
    intros c Hc E (Hn & _ & _).
    destruct (find_some _ _ F) as [He Hk].
    assert (c = e) as -> by (apply (NoDup_map_inj comment_id (comments st));
                            assumption).
    apply comment_has_key_eq in Hk. rewrite Hk. reflexivity.
  - intros (Hn & Hlt & Hk). unfold comments_wf. simpl.
    rewrite !map_app. simpl. split; [| split].
    + apply NoDup_app_last; [exact Hn |].
      intro H. apply in_map_iff in H. destruct H as (c & E & Hc).
      rewrite Forall_forall in Hlt. specialize (Hlt c Hc). lia.
    + apply Forall_app. split.
      * eapply Forall_impl; [| exact Hlt]. simpl. intros; lia.
      * constructor; [simpl; lia | constructor].
    + apply NoDup_app_last; [exact Hk |].
      intro H. apply in_map_iff in H. destruct H as (c & E & Hc).
      pose proof (find_none _ _ F c Hc) as Hno.
      assert (comment_has_key p k c = true)
        by (apply comment_has_key_eq; exact E).
      congruence.
Qed.

Lemma wf_kept_comment_update id f :
  (forall c, comment_id (f c) = comment_id c) ->
  (forall c, key_of (f c) = key_of c) ->
  preserves wf_kept (crud_comment_update id f).
Proof.
  intros Hid Hkey st. rewrite crud_comment_update_run. simpl.
  apply wf_kept_update; auto.
Qed.

Lemma wf_kept_reply_update id f : preserves wf_kept (crud_reply_update id f).
Proof.
  intro st. rewrite crud_reply_update_run. simpl.
  apply comments_wf_ext; reflexivity.
Qed.

(** ** Relations that look at the comment table only *)

Section CommentsOnly.

Variable cfg : Settings.
Variable env : Env.
Variable R : State -> State -> Prop.
Hypothesis R_trans : forall a b c, R a b -> R b c -> R a c.
Hypothesis R_ext : comments_only R.
Hypothesis R_upsert :
  forall cd, preserves R (crud_comment_create_or_update cd).
Hypothesis R_sentiment :
  forall id s, preserves R (crud_comment_update id (set_sentiment s)).
Hypothesis R_has_reply :
  forall id, preserves R (crud_comment_update id (set_has_reply true)).

Lemma comments_only_refl st : R st st.
Proof. apply R_ext; reflexivity. Qed.

Lemma comments_only_untouched A (m : M A) :
  (forall st, comments (snd (m st)) = comments st) ->
  (forall st, next_comment_id (snd (m st)) = next_comment_id st) ->
  preserves R m.
Proof. intros H1 H2 st. apply R_ext; auto. Qed.

Ltac untouched :=
  intros;
  first [ apply comments_only_untouched; reflexivity
        | apply R_ext; reflexivity ].

Lemma comments_only_approve_reply id by_ :
  preserves R (approve_reply env id by_).
Proof.
  apply (preserves_approve_reply_parts env R);
    try exact R_trans; try exact comments_only_refl;
    try exact R_has_reply; untouched.
Qed.

Lemma comments_only_reject_reply id :
  preserves R (reject_reply env id).
Proof.
  apply (preserves_reject_reply_parts env R);
    try exact R_trans; try exact comments_only_refl; untouched.
Qed.

Lemma comments_only_run_op op st : R st (run_op cfg env op st).
Proof.
  apply (run_op_related cfg env R);
    try exact R_trans; try exact R_upsert; try exact R_sentiment;
    try exact comments_only_refl;
    try exact comments_only_approve_reply;
    try exact comments_only_reject_reply; untouched.
Qed.

Lemma comments_only_run ops st : R st (run cfg env ops st).
Proof.
  revert st. induction ops as [| op ops IH]; simpl; intro st.
  - apply comments_only_refl.
  - apply R_trans with (run_op cfg env op st);
      [apply comments_only_run_op | apply IH].
Qed.

Lemma comments_only_post_reply platform cd rd :
  preserves R (_post_reply env platform cd rd).
Proof.
  apply (preserves_post_reply env R);
    try exact R_trans; try exact comments_only_refl; untouched.
Qed.

End CommentsOnly.

Lemma wf_kept_ext : comments_only wf_kept.
Proof. intros st st' H1 H2. apply comments_wf_ext; assumption. Qed.

Lemma wf_kept_run cfg env ops st : wf_kept st (run cfg env ops st).
Proof.
  apply (comments_only_run cfg env wf_kept).
  - exact wf_kept_trans.
  - exact wf_kept_ext.
  - exact wf_kept_upsert.
  - intros id s. apply wf_kept_comment_update; reflexivity.
  - intro id. apply wf_kept_comment_update; reflexivity.
Qed.

Lemma comments_wf_init : comments_wf init.
Proof.
  unfold comments_wf. simpl. repeat split; constructor.
Qed.

(** ** The [has_reply] flag is never taken back *)

Lemma has_reply_kept_trans a b c :
  has_reply_kept a b -> has_reply_kept b c -> has_reply_kept a c.
Proof. unfold has_reply_kept. auto. Qed.

Lemma has_reply_kept_ext : comments_only has_reply_kept.
Proof.
  intros st st' H _ id. unfold has_reply_at. rewrite H. auto.
Qed.

Lemma has_reply_at_update st a f id :
  (forall c, comment_id (f c) = comment_id c) ->
  has_reply_at
    (set_comments (update_first (fun c => Nat.eqb (comment_id c) a) f
                                (comments st))
                  (next_comment_id st) st) id
  = match find (fun c => Nat.eqb (comment_id c) id) (comments st) with
    | Some c => if Nat.eqb a id then has_reply (f c) else has_reply c
    | None => false
    end.
Proof.
  intro Hid. unfold has_reply_at. simpl.
  rewrite (find_update_first comment_id f (comments st) a id Hid).
  destruct (find _ (comments st)) as [c |]; simpl; [| reflexivity].
  destruct (Nat.eqb a id); reflexivity.
Qed.

Lemma has_reply_kept_update id f :
  (forall c, comment_id (f c) = comment_id c) ->
  (forall c, has_reply c = true -> has_reply (f c) = true) ->
  preserves has_reply_kept (crud_comment_update id f).
Proof.
  intros Hid Hhr st b. rewrite crud_comment_update_run. simpl.
  rewrite has_reply_at_update by exact Hid.
  unfold has_reply_at.
  destruct (find _ (comments st)) as [c |]; [| discriminate].
  destruct (Nat.eqb id b); auto.
Qed.

Lemma has_reply_at_append st c n id :
  has_reply_at (set_comments (comments st ++ [c]) n st) id
  = match find (fun c => Nat.eqb (comment_id c) id) (comments st) with
    | Some c' => has_reply c'
    | None => Nat.eqb (comment_id c) id && has_reply c
    end.
Proof.
  unfold has_reply_at. simpl. rewrite find_app_last.
  destruct (find _ (comments st)); [reflexivity |].
  destruct (Nat.eqb (comment_id c) id); reflexivity.
Qed.

(** Create-or-update leaves the flag of every row as it was. *)
Lemma upsert_has_reply_at cd st id :
  has_reply_at (snd (crud_comment_create_or_update cd st)) id
  = has_reply_at st id.
Proof.
  destruct (upsert_cases cd st)
    as [-> | [(p & k & e & _ & _ & F & ->) | (p & k & _ & _ & F & ->)]].
  - reflexivity.
  - rewrite has_reply_at_update by reflexivity. unfold has_reply_at.
    destruct (find (fun c => Nat.eqb (comment_id c) id) (comments st));
      [| reflexivity].
    destruct (Nat.eqb (comment_id e) id); reflexivity.
  - rewrite has_reply_at_append. unfold has_reply_at.
    destruct (find (fun c => Nat.eqb (comment_id c) id) (comments st));
      [reflexivity |].
    simpl. apply andb_false_r.
Qed.

Lemma has_reply_kept_upsert cd :
  preserves has_reply_kept (crud_comment_create_or_update cd).
Proof. intros st id. rewrite upsert_has_reply_at. auto. Qed.

Lemma has_reply_kept_run cfg env ops st :
  has_reply_kept st (run cfg env ops st).
Proof.
  apply (comments_only_run cfg env has_reply_kept).
  - exact has_reply_kept_trans.
  - exact has_reply_kept_ext.
  - exact has_reply_kept_upsert.
  - intros id s. apply has_reply_kept_update; auto.
  - intro id. apply has_reply_kept_update; auto.
Qed.

(** ** A flagged comment has an approved or posted reply *)

Lemma replied_kept_refl st : replied_kept st st.
Proof. intro H. exact H. Qed.

Lemma replied_kept_trans a b c :
  replied_kept a b -> replied_kept b c -> replied_kept a c.
Proof. unfold replied_kept. auto. Qed.

Lemma replied_kept_same st st' :
  comments st' = comments st -> replies st' = replies st ->
  replied_kept st st'.
Proof.
  intros Hc Hr H c. unfold replied_have in *. rewrite Hc, Hr. apply H.
Qed.

Lemma replied_kept_comment_update id f :
  (forall c, comment_id (f c) = comment_id c) ->
  (forall c, has_reply (f c) = has_reply c) ->
  preserves replied_kept (crud_comment_update id f).
Proof.
  intros Hid Hhr st H c. rewrite crud_comment_update_run. simpl.
  intros Hc Hflag.
  apply update_first_In in Hc. destruct Hc as [Hc | (x & Hx & _ & ->)].
  - apply H; assumption.
  - rewrite Hid. rewrite Hhr in Hflag. apply H; assumption.
Qed.

Lemma replied_kept_upsert cd :
  preserves replied_kept (crud_comment_create_or_update cd).
Proof.
  intros st H.
  destruct (upsert_cases cd st)
    as [-> | [(p & k & e & _ & _ & F & ->) | (p & k & _ & _ & F & ->)]].
  - exact H.
  - intro c. simpl. intros Hc Hflag.
    apply update_first_In in Hc. destruct Hc as [Hc | (x & Hx & _ & ->)].
    + apply H; assumption.
    + apply (H x); assumption.
  - intro c. simpl. intros Hc Hflag.
    apply in_app_iff in Hc. destruct Hc as [Hc | [<- | []]].
    + apply H; assumption.
    + discriminate.
Qed.

Lemma replied_kept_reply_create c content stat conf trig :
  preserves replied_kept (crud_reply_create c content stat conf trig).
Proof.
  intros st H.
  destruct (crud_reply_create_run c content stat conf trig st)
    as (r & -> & _).
  intros c0 Hc Hflag. simpl in *.
  destruct (H c0 Hc Hflag) as (r0 & Hr0 & Hid & Hok).
  exists r0. split; [apply in_app_iff; left; exact Hr0 | auto].
Qed.

Lemma replied_kept_reply_update id f :
  (forall r, r_comment_id (f r) = r_comment_id r) ->
  (forall r, approved_or_posted (status (f r)) = true) ->
  preserves replied_kept (crud_reply_update id f).
Proof.
  intros Hid Hok st H c. rewrite crud_reply_update_run. simpl.
  intros Hc Hflag.
  destruct (H c Hc Hflag) as (r & Hr & Hrc & Hrok).
  destruct (update_first_keeps (fun r => Nat.eqb (reply_id r) id) f
              (replies st) r Hr) as [Hin | Hin].
  - exists r. auto.
  - exists (f r). rewrite Hid. auto.
Qed.

Lemma replied_kept_approve env id by_ :
  preserves replied_kept (crud_reply_approve env id by_).
Proof.
  intro st. rewrite crud_reply_approve_run.
  apply replied_kept_reply_update; reflexivity.
Qed.

Lemma replied_kept_mark_posted env id prid :
  preserves replied_kept (crud_reply_mark_as_posted env id prid).
Proof.
  intro st. rewrite crud_reply_mark_as_posted_run.
  apply replied_kept_reply_update; reflexivity.
Qed.

(** Manual approval: the reply it approves vouches for the comment it
    flags. *)
Lemma replied_kept_approve_reply env id by_ :
  preserves replied_kept (approve_reply env id by_).
Proof.
  intros st H. unfold approve_reply, catch, bind at 1.
  pose proof (replied_kept_approve env id by_ st H) as H1.
  rewrite crud_reply_approve_run, crud_reply_update_run in *.
  simpl in H1. cbv beta iota.
  set (t := utcnow env (List.length (trace st))) in *.
  set (rs := update_first (fun r => Nat.eqb (reply_id r) id)
                          (set_approved t by_) (replies st)) in *.
  set (st1 := set_replies rs (next_reply_id st) st) in *.
  destruct (find (fun r => Nat.eqb (reply_id r) id) rs) as [r |] eqn:F;
    [| exact H1].
  assert (Hr : In r rs /\ status r = "approved").
  { split; [exact (proj1 (find_some _ _ F)) |].
    unfold rs in F.
    rewrite (find_update_first reply_id (set_approved t by_) (replies st)
               id id) in F by reflexivity.
    destruct (find _ (replies st)) as [r0 |]; [| discriminate].
    simpl in F. rewrite Nat.eqb_refl in F. injection F as <-. reflexivity. }
  destruct Hr as [Hin Hst].
  unfold bind. unfold crud_comment_mark_as_replied.
  rewrite crud_comment_update_run.
  destruct (record_metric_run env "system" "reply_approved"
              (set_comments
                 (update_first
                    (fun c => Nat.eqb (comment_id c) (r_comment_id r))
                    (set_has_reply true) (comments st1))
                 (next_comment_id st1) st1)) as (st2 & E).
  rewrite E. simpl.
  assert (Hst2 : comments st2
                 = update_first
                     (fun c => Nat.eqb (comment_id c) (r_comment_id r))
                     (set_has_reply true) (comments st)
                 /\ replies st2 = rs).
  { unfold crud_analytics_record_metric, bind, now, modify in E.
    injection E as <-. split; reflexivity. }
  destruct Hst2 as [Hc2 Hr2].
  intros c Hc Hflag. rewrite Hc2 in Hc. rewrite Hr2.
  apply update_first_In in Hc. destruct Hc as [Hc | (x & Hx & Hp & ->)].
  - apply (H1 c); assumption.
  - exists r. simpl. apply Nat.eqb_eq in Hp.
    split; [exact Hin |]. split; [symmetry; exact Hp |].
    rewrite Hst. reflexivity.
Qed.

Lemma replied_kept_run cfg env ops st :
  forallb (fun op => negb (is_reject op)) ops = true ->
  replied_kept st (run cfg env ops st).
Proof.
  apply (run_without_reject cfg env replied_kept).
  - exact replied_kept_refl.
  - exact replied_kept_trans.
  - intros. apply replied_kept_same; reflexivity.
  - intros. apply replied_kept_same; reflexivity.
  - intros. apply replied_kept_same; reflexivity.
  - intros. apply replied_kept_same; reflexivity.
  - intros. apply replied_kept_same; reflexivity.
  - exact replied_kept_upsert.
  - intros id s. apply replied_kept_comment_update; reflexivity.
  - intros. apply replied_kept_reply_create.
  - intros. apply replied_kept_same; reflexivity.
  - exact (replied_kept_mark_posted env).
  - exact (replied_kept_approve env).
  - exact (replied_kept_approve_reply env).
Qed.

(** C2 (amended).  Every comment with [has_reply = true] has an associated
    reply whose status is "approved" or "posted", and pipeline processing,
    manual approval, the sweep, the fetch cycle with its posting and the
    owner switch all preserve this; rejecting a reply is not among them. *)
Theorem replied_comment_has_approved_reply :
  forall (cfg : Settings) (env : Env) (ops : list Op) (st : State),
    forallb (fun op => negb (is_reject op)) ops = true ->
    replied_have approved_or_posted st ->
    replied_have approved_or_posted (run cfg env ops st).
Proof. intros cfg env ops st H. apply replied_kept_run. exact H. Qed.

Lemma replied_comment_has_approved_reply_sample :
  replied_have approved_or_posted
    (run default_settings sample_env
         [OpFetch; OpApprove 1 "manual"; OpSweep; OpFetch] init).
Proof.
  apply replied_comment_has_approved_reply.
  - reflexivity.
  - intros c [].
Defined.

(** C2 as stated fails: after the pipeline stored a pending reply, manual
    approval sets [has_reply] while the only reply is "approved", neither
    "posted" nor "auto_approved". *)
Lemma approval_flags_comment_without_posted_reply :
  ~ replied_have posted_or_auto_approved
      (run default_settings sample_env
           [OpProcess (sample_comment "c1" "nice video");
            OpApprove 1 "manual"] init).
Proof.
  intro H.
  set (st := run default_settings sample_env
               [OpProcess (sample_comment "c1" "nice video");
                OpApprove 1 "manual"] init) in *.
  assert (Hc : exists c, In c (comments st) /\ has_reply c = true
                         /\ comment_id c = 1%nat).
  { eexists. split; [vm_compute; left; reflexivity |].
    split; reflexivity. }
  destruct Hc as (c & Hin & Hflag & Hid).
  destruct (H c Hin Hflag) as (r & Hr & _ & Hok).
  assert (Hall : forallb (fun r => negb (posted_or_auto_approved (status r)))
                         (replies st) = true) by (vm_compute; reflexivity).
  rewrite forallb_forall in Hall. specialize (Hall r Hr).
  rewrite Hok in Hall. discriminate.
Qed.

(** ** Nothing is posted while the owner is active *)

Lemma nothing_posted_refl st : nothing_posted st st.
Proof. split; reflexivity. Qed.

Lemma nothing_posted_trans a b c :
  nothing_posted a b -> nothing_posted b c -> nothing_posted a c.
Proof.
  intros [H1 H2] [H3 H4]. split; congruence.
Qed.

Lemma nothing_posted_same st st' :
  trace st' = trace st -> replies st' = replies st -> nothing_posted st st'.
Proof.
  intros Ht Hr. unfold nothing_posted, post_calls. rewrite Ht, Hr.
  split; reflexivity.
Qed.

Lemma nothing_posted_quiet e st :
  is_post_event e = false -> nothing_posted st (emit e st).
Proof.
  intro H. unfold nothing_posted, post_calls. simpl.
  rewrite filter_app. simpl. rewrite H, app_nil_r. split; reflexivity.
Qed.

Lemma nothing_posted_upsert cd :
  preserves nothing_posted (crud_comment_create_or_update cd).
Proof.
  intro st.
  destruct (upsert_cases cd st)
    as [-> | [(p & k & e & _ & _ & F & ->) | (p & k & _ & _ & F & ->)]].
  - apply nothing_posted_refl.
  - apply nothing_posted_same; reflexivity.
  - apply nothing_posted_same; reflexivity.
Qed.

Lemma nothing_posted_reply_create c content (needs : bool) conf trig :
  preserves nothing_posted
    (crud_reply_create c content
       (if needs then "pending" else "auto_approved") conf trig).
Proof.
  intro st.
  destruct (crud_reply_create_run c content
              (if needs then "pending" else "auto_approved") conf trig st)
    as (r & -> & _ & _ & Hs & _).
  unfold nothing_posted, post_calls. simpl. split; [reflexivity |].
  rewrite filter_app. simpl. unfold is_posted at 2. rewrite Hs.
  destruct needs; simpl; apply app_nil_r.
Qed.

(** C4.  When [owner_active] reads true at the start of a cycle, the fetch
    cycle calls no adapter's reply method and marks no reply posted, even
    for replies it stores as auto_approved, and the pending-reply sweep
    changes nothing at all: it neither approves nor posts. *)
Theorem owner_active_gates_posting :
  forall (cfg : Settings) (env : Env) (st : State),
    fst (crud_settings_get_owner_active st) = Ok true ->
    nothing_posted st (snd (fetch_all_comments cfg env st))
    /\ process_pending_replies cfg env st = (Ok tt, st).
Proof.
  intros cfg env st H.
  assert (E : crud_settings_get_owner_active st = (Ok true, st)).
  { pose proof (get_owner_active_reads st) as Hs.
    destruct (crud_settings_get_owner_active st) as [r s].
    simpl in *. subst. reflexivity. }
  split.
  - apply (fetch_all_gated cfg env nothing_posted); try exact E.
    + exact nothing_posted_refl.
    + exact nothing_posted_trans.
    + exact nothing_posted_quiet.
    + intros. apply nothing_posted_same; reflexivity.
    + intros. apply nothing_posted_same; reflexivity.
    + intros. apply nothing_posted_same; reflexivity.
    + exact nothing_posted_upsert.
    + intros id s st0. apply nothing_posted_same; reflexivity.
    + exact nothing_posted_reply_create.
  - unfold process_pending_replies.
    rewrite (bind_run _ _ _ _ _ E). reflexivity.
Qed.

Lemma owner_active_gates_posting_sample :
  nothing_posted owner_active_state
    (snd (fetch_all_comments default_settings sample_env owner_active_state))
  /\ process_pending_replies default_settings sample_env owner_active_state
     = (Ok tt, owner_active_state).
Proof.
  apply owner_active_gates_posting. reflexivity.
Defined.

(** ** Posting a reply *)

Lemma post_calls_emit e st :
  post_calls (emit e st)
  = (post_calls st ++ (if is_post_event e then [e] else []))%list.
Proof. unfold post_calls. simpl. apply filter_app. Qed.

Lemma same_tables_refl st : same_tables st st.
Proof. repeat split. Qed.

Lemma same_tables_emit e st : same_tables st (emit e st).
Proof. repeat split. Qed.

Lemma adapter_reply_run env platform target text st :
  adapter_reply env platform target text st
  = (if negb (is_configured env platform) || String.eqb platform "twitter"
     then Ok (false, None)
     else match post_response env (List.length (trace st)) with
          | PostReturns success rid => Ok (success, rid)
          | PostRaises => Raise AdapterError
          end,
     emit (AdapterPost platform target text) st).
Proof.
  unfold adapter_reply, bind, external.
  destruct (negb (is_configured env platform) || String.eqb platform "twitter");
    [reflexivity |].
  destruct (post_response env (List.length (trace st))); reflexivity.
Qed.

(** From the call of the adapter's reply method on: either the tables are
    untouched, or the adapter reported success and the reply is marked. *)
Lemma post_reply_after_call env platform target rd st :
  let m :=
    (result <- adapter_reply env platform target (ri_content rd) ;;
     if fst result then
       crud_reply_mark_as_posted env (ri_id rd)
         (option_default EmptyString (snd result)) ;;;
       notify_update "reply_posted"
     else ret tt) in
  snd (m st) = emit (AdapterPost platform target (ri_content rd)) st
  \/ (exists rid, fst (m st) = Ok tt
                  /\ posted_by env platform target rd rid st (snd (m st))).
Proof.
  intro m. unfold m.
  pose proof (adapter_reply_run env platform target (ri_content rd) st) as E.
  destruct (negb (is_configured env platform) || String.eqb platform "twitter")
    eqn:G.
  - rewrite (bind_run _ _ _ _ _ E). left. reflexivity.
  - apply orb_false_iff in G. destruct G as [C T].
    apply negb_false_iff in C.
    destruct (post_response env (List.length (trace st))) as [| [|] rid] eqn:P.
    + rewrite (bind_raise _ _ _ _ _ E). left. reflexivity.
    + rewrite (bind_run _ _ _ _ _ E). right. exists rid.
      split; [reflexivity |].
      unfold posted_by. rewrite P, C.
      repeat split; try reflexivity.
      * simpl. rewrite length_app. simpl.
        rewrite Nat.add_1_r. reflexivity.
      * simpl. rewrite <- app_assoc. reflexivity.
    + rewrite (bind_run _ _ _ _ _ E). left. reflexivity.
Qed.

Lemma post_reply_cases env platform cd rd st :
  fst (_post_reply env platform cd rd st) = Ok tt
  /\ (snd (_post_reply env platform cd rd st) = st
      \/ (exists target,
            snd (_post_reply env platform cd rd st)
            = emit (AdapterPost platform target (ri_content rd)) st)
      \/ (exists target rid,
            posted_by env platform target rd rid st
                      (snd (_post_reply env platform cd rd st)))).
Proof.
  unfold _post_reply. rewrite catch_ret_tt. split; [reflexivity |].
  cbv zeta. simpl snd.
  assert (Hcall : forall target,
    let m :=
      (result <- adapter_reply env platform target (ri_content rd) ;;
       if fst result then
         crud_reply_mark_as_posted env (ri_id rd)
           (option_default EmptyString (snd result)) ;;;
         notify_update "reply_posted"
       else ret tt) in
    snd (m st) = st
    \/ (exists target,
          snd (m st) = emit (AdapterPost platform target (ri_content rd)) st)
    \/ (exists target rid,
          posted_by env platform target rd rid st (snd (m st)))).
  { intros target m.
    destruct (post_reply_after_call env platform target rd st)
      as [H | (rid & _ & H)].
    - right. left. exists target. exact H.
    - right. right. exists target, rid. exact H. }
  destruct (cd_platform_comment_id cd) as [pcid |]; [| left; reflexivity].
  cbn [subscript]. rewrite bind_ret_run.
  match goal with
  | |- context [if ?b then adapter_reply _ _ (Some pcid) _ else _] =>
      destruct b
  end.
  { apply Hcall. }
  destruct (String.eqb platform "linkedin").
  { rewrite bind_assoc_run.
    destruct (cd_metadata cd) as [[p v m0 urn |] |]; cbn [metadata_post_urn].
    - rewrite bind_ret_run. apply Hcall.
    - left. reflexivity.
    - rewrite bind_ret_run. apply Hcall. }
  destruct (String.eqb platform "twitter").
  { apply Hcall. }
  left. reflexivity.
Qed.

Lemma posted_by_one_call env platform target rd rid st st' :
  posted_by env platform target rd rid st st' ->
  List.length (post_calls st') = S (List.length (post_calls st)).
Proof.
  intros (_ & _ & _ & Ht & _). unfold post_calls. rewrite Ht.
  rewrite filter_app, length_app. simpl. lia.
Qed.

Lemma posted_by_success env platform target rd rid st st' :
  posted_by env platform target rd rid st st' ->
  post_response env (List.length (trace st)) = PostReturns true rid.
Proof. intros (H & _). exact H. Qed.

(** *** No second attempt *)

Lemma calls_within_refl k st : calls_within k st st.
Proof. unfold calls_within. lia. Qed.

Lemma calls_within_add a b x y z :
  calls_within a x y -> calls_within b y z -> calls_within (a + b) x z.
Proof. unfold calls_within. lia. Qed.

Lemma calls_within_trans a b c :
  calls_within 0 a b -> calls_within 0 b c -> calls_within 0 a c.
Proof. apply (calls_within_add 0 0). Qed.

Lemma calls_within_same k st st' :
  trace st' = trace st -> calls_within k st st'.
Proof. intro H. unfold calls_within, post_calls. rewrite H. lia. Qed.

Lemma calls_within_quiet e st :
  is_post_event e = false -> calls_within 0 st (emit e st).
Proof.
  intro H. unfold calls_within. rewrite post_calls_emit, H, app_nil_r. lia.
Qed.

Lemma calls_within_reads k {A} (m : M A) :
  reads m -> preserves (calls_within k) m.
Proof. intros H st. rewrite H. apply calls_within_refl. Qed.

Lemma calls_within_bind k {A B} (m : M A) (f : A -> M B) :
  preserves (calls_within 0) m ->
  (forall a, preserves (calls_within k) (f a)) ->
  preserves (calls_within k) (bind m f).
Proof.
  intros Hm Hf st. unfold bind. specialize (Hm st).
  destruct (m st) as [[a | e] s1]; simpl in Hm.
  - apply (calls_within_add 0 k st s1); [exact Hm | apply Hf].
  - unfold calls_within in *. simpl. lia.
Qed.

Lemma calls_within_upsert cd :
  preserves (calls_within 0) (crud_comment_create_or_update cd).
Proof.
  intro st.
  destruct (upsert_cases cd st)
    as [-> | [(p & k & e & _ & _ & F & ->) | (p & k & _ & _ & F & ->)]];
    apply calls_within_same; reflexivity.
Qed.

Lemma calls_within_process_comment cfg env cd :
  preserves (calls_within 0) (process_comment cfg env cd).
Proof.
  apply (preserves_process_comment cfg env (calls_within 0)).
  - exact (calls_within_refl 0).
  - exact calls_within_trans.
  - exact calls_within_quiet.
  - intros. apply calls_within_same. reflexivity.
  - exact calls_within_upsert.
  - intros id s st. apply calls_within_same. reflexivity.
  - intros c content needs conf trig st. apply calls_within_same. reflexivity.
Qed.

Lemma calls_within_post_reply env platform cd rd :
  preserves (calls_within 1) (_post_reply env platform cd rd).
Proof.
  intro st. unfold calls_within.
  destruct (post_reply_cases env platform cd rd st)
    as (_ & [H | [(target & H) | (target & rid & H)]]).
  - rewrite H. lia.
  - rewrite H, post_calls_emit, length_app. simpl. lia.
  - rewrite (posted_by_one_call _ _ _ _ _ _ _ H). lia.
Qed.

(** One iteration of the sweep calls an adapter at most once. *)
Lemma calls_within_sweep_reply cfg env r :
  preserves (calls_within 1) (sweep_reply cfg env r).
Proof.
  unfold sweep_reply. apply calls_within_bind.
  - destruct (r_confidence r); apply calls_within_reads; auto with frame.
  - intro c. destruct (Qge_bool c (auto_approve_confidence cfg));
      [| apply calls_within_reads; auto with frame].
    apply calls_within_bind.
    + intro st. apply calls_within_same. reflexivity.
    + intros _. apply calls_within_bind.
      * apply calls_within_reads; auto with frame.
      * intros [cm |]; [| apply calls_within_reads; auto with frame].
        destruct (mem (c_platform cm) PLATFORMS
                  && is_configured env (c_platform cm)).
        -- apply calls_within_post_reply.
        -- apply calls_within_reads; auto with frame.
Qed.

(** So does the fetch cycle for one fetched comment. *)
Lemma calls_within_fetch_comment cfg env platform owner_active cd :
  preserves (calls_within 1) (fetch_comment cfg env platform owner_active cd).
Proof.
  unfold fetch_comment.
  repeat first
    [ apply calls_within_bind;
      [ first [ solve [apply calls_within_reads; auto with frame]
              | apply calls_within_process_comment
              | solve [intro st; apply calls_within_quiet; reflexivity] ]
      | intro ]
    | match goal with
      | |- preserves _ (match ?x with _ => _ end) => destruct x
      end
    | apply calls_within_post_reply
    | solve [apply calls_within_reads; auto with frame] ].
Qed.

Lemma calls_within_for_each {A} (body : A -> M unit) (l : list A) :
  (forall x, preserves (calls_within 1) (body x)) ->
  preserves (calls_within (List.length l)) (for_each l body).
Proof.
  intro H. induction l as [| x l IH]; simpl.
  - apply calls_within_reads. auto with frame.
  - intro st. unfold bind. specialize (H x st).
    destruct (body x st) as [[[] | e] s1]; simpl in H.
    + apply (calls_within_add 1 (List.length l) st s1); [exact H | apply IH].
    + unfold calls_within in *. simpl. lia.
Qed.

(** On the three platforms with a working reply call, a configured adapter
    that reports success gets the reply marked. *)
Lemma post_reply_success env platform cd rd st pcid rid :
  mem platform ["youtube"; "facebook"; "instagram"] = true ->
  cd_platform_comment_id cd = Some pcid ->
  is_configured env platform = true ->
  post_response env (List.length (trace st)) = PostReturns true rid ->
  posted_by env platform (Some pcid) rd rid st
            (snd (_post_reply env platform cd rd st)).
Proof.
  intros Hm Hk Hc Hp.
  assert (Ht : String.eqb platform "twitter" = false).
  { unfold mem in Hm. simpl in Hm. rewrite orb_false_r in Hm.
    destruct (String.eqb platform "twitter") eqn:T; [| reflexivity].
    apply String.eqb_eq in T. subst. discriminate. }
  unfold _post_reply. rewrite catch_ret_tt. cbn [snd].
  rewrite Hk. cbn [subscript]. rewrite bind_ret_run. rewrite Hm.
  destruct (post_reply_after_call env platform (Some pcid) rd st)
    as [H | (rid' & _ & H)]; cbv zeta in H.
  - exfalso.
    pose proof (adapter_reply_run env platform (Some pcid) (ri_content rd) st)
      as E.
    rewrite Hc, Ht, Hp in E. simpl in E.
    rewrite (bind_run _ _ _ _ _ E) in H. simpl in H.
    apply (f_equal trace) in H. simpl in H.
    apply (f_equal (@List.length Event)) in H.
    rewrite !length_app in H. simpl in H. lia.
  - pose proof (posted_by_success _ _ _ _ _ _ _ H) as Hp'.
    rewrite Hp in Hp'. injection Hp' as <-. exact H.
Qed.

(** The same on LinkedIn, where the call is addressed to the post named in
    the comment's metadata. *)
Lemma post_reply_success_linkedin env cd rd st pcid rid :
  cd_platform_comment_id cd = Some pcid ->
  cd_metadata cd <> Some MdOther ->
  is_configured env "linkedin" = true ->
  post_response env (List.length (trace st)) = PostReturns true rid ->
  exists urn,
    metadata_post_urn (cd_metadata cd) st = (Ok urn, st)
    /\ posted_by env "linkedin" urn rd rid st
                 (snd (_post_reply env "linkedin" cd rd st)).
Proof.
  intros Hk Hmd Hc Hp.
  assert (Hu : exists urn, metadata_post_urn (cd_metadata cd) st = (Ok urn, st)).
  { destruct (cd_metadata cd) as [[p v m urn |] |];
      [exists urn | congruence | exists None]; reflexivity. }
  destruct Hu as (urn & Hu). exists urn. split; [exact Hu |].
  unfold _post_reply. rewrite catch_ret_tt. cbn [snd].
  rewrite Hk. cbn [subscript]. rewrite bind_ret_run.
  change (mem "linkedin" ["youtube"; "facebook"; "instagram"]) with false.
  change (String.eqb "linkedin" "linkedin") with true. cbv iota.
  rewrite bind_assoc_run. rewrite (bind_run _ _ _ _ _ Hu).
  destruct (post_reply_after_call env "linkedin" urn rd st)
    as [H | (rid' & _ & H)]; cbv zeta in H.
  - exfalso.
    pose proof (adapter_reply_run env "linkedin" urn (ri_content rd) st) as E.
    rewrite Hc, Hp in E. simpl in E.
    rewrite (bind_run _ _ _ _ _ E) in H. simpl in H.
    apply (f_equal trace) in H. simpl in H.
    apply (f_equal (@List.length Event)) in H.
    rewrite !length_app in H. simpl in H. lia.
  - pose proof (posted_by_success _ _ _ _ _ _ _ H) as Hp'.
    rewrite Hp in Hp'. injection Hp' as <-. exact H.
Qed.

(** What a posted reply looks like in the table. *)
Lemma posted_by_rows env platform target rd rid st st' :
  posted_by env platform target rd rid st st' ->
  (forall id,
     find (fun r => Nat.eqb (reply_id r) id) (replies st')
     = option_map
         (fun x => if Nat.eqb (ri_id rd) id
                   then set_posted (utcnow env (S (List.length (trace st))))
                                   (option_default EmptyString rid) x
                   else x)
         (find (fun r => Nat.eqb (reply_id r) id) (replies st)))
  /\ List.length (replies st') = List.length (replies st)
  /\ In (Notify "reply_posted") (trace st').
Proof.
  intros (_ & _ & Hr & Ht & _). split; [| split].
  - intro id. rewrite Hr. apply find_update_first. reflexivity.
  - rewrite Hr. apply update_first_length.
  - rewrite Ht. apply in_or_app. right. right. left. reflexivity.
Qed.

(** C5.  [_post_reply] never raises.  Either it leaves every table as it
    was, or the adapter's reply call reported success and then exactly the
    reply row is marked "posted" with the platform's reply id and the time,
    and the observers are notified; when the call reports failure or
    raises the tables, the reply with all its fields included, are
    unchanged; and the adapter is called at most once, so nothing is
    retried: one iteration of the sweep (one reply) and one iteration of
    the fetch cycle (one comment) call an adapter at most once each.
    Conversely, when the configured adapter of YouTube, Facebook,
    Instagram or LinkedIn (there for a comment whose metadata is a dict or
    absent) reports success for a comment that has its platform id, the
    reply is marked: its row gets status "posted", the platform's reply id
    (the empty string when the answer has none) and the time, and keeps its
    other columns; the other rows are as they were; and the notification
    is in the trace. *)
Theorem reply_posted_only_on_success :
  forall (env : Env) (platform : string) (cd : CommentData)
         (rd : ReplyInfo) (st : State),
    fst (_post_reply env platform cd rd st) = Ok tt
    /\ (same_tables st (snd (_post_reply env platform cd rd st))
        \/ exists target rid,
             posted_by env platform target rd rid st
                       (snd (_post_reply env platform cd rd st)))
    /\ ((forall rid, post_response env (List.length (trace st))
                     <> PostReturns true rid) ->
        same_tables st (snd (_post_reply env platform cd rd st)))
    /\ calls_within 1 st (snd (_post_reply env platform cd rd st))
    /\ (forall cfg r,
          calls_within 1 st (snd (sweep_reply cfg env r st)))
    /\ (forall cfg batch,
          calls_within (List.length batch) st
            (snd (for_each batch (sweep_reply cfg env) st)))
    /\ (forall cfg fplatform owner_active fetched,
          calls_within 1 st
            (snd (fetch_comment cfg env fplatform owner_active fetched st)))
    /\ (forall pcid rid,
          mem platform ["youtube"; "facebook"; "instagram"] = true
          \/ platform = "linkedin" /\ cd_metadata cd <> Some MdOther ->
          cd_platform_comment_id cd = Some pcid ->
          is_configured env platform = true ->
          post_response env (List.length (trace st)) = PostReturns true rid ->
          let st' := snd (_post_reply env platform cd rd st) in
          let posted :=
            set_posted (utcnow env (S (List.length (trace st))))
                       (option_default EmptyString rid) in
          (exists target, posted_by env platform target rd rid st st')
          /\ (forall r,
                reply_at st (ri_id rd) = Some r ->
                reply_at st' (ri_id rd) = Some (posted r)
                /\ status (posted r) = "posted"
                /\ platform_reply_id (posted r)
                   = Some (option_default EmptyString rid)
                /\ posted_at (posted r)
                   = Some (utcnow env (S (List.length (trace st))))
                /\ r_content (posted r) = r_content r
                /\ r_comment_id (posted r) = r_comment_id r
                /\ r_confidence (posted r) = r_confidence r
                /\ approved_at (posted r) = approved_at r
                /\ approved_by (posted r) = approved_by r)
          /\ (forall id, id <> ri_id rd -> reply_at st' id = reply_at st id)
          /\ List.length (replies st') = List.length (replies st)
          /\ In (Notify "reply_posted") (trace st')
          /\ List.length (post_calls st') = S (List.length (post_calls st))).
Proof.
  intros env platform cd rd st.
  split; [| split; [| split; [| split; [| split; [| split; [| split]]]]]].
  - apply post_reply_cases.
  - destruct (post_reply_cases env platform cd rd st)
      as (_ & [H | [(target & H) | (target & rid & H)]]).
    + rewrite H. left. apply same_tables_refl.
    + rewrite H. left. apply same_tables_emit.
    + right. exists target, rid. exact H.
  - intro Hne.
    destruct (post_reply_cases env platform cd rd st)
      as (_ & [H | [(target & H) | (target & rid & H)]]).
    + rewrite H. apply same_tables_refl.
    + rewrite H. apply same_tables_emit.
    + exfalso. apply (Hne rid).
      exact (posted_by_success _ _ _ _ _ _ _ H).
  - apply calls_within_post_reply.
  - intros cfg r. apply calls_within_sweep_reply.
  - intros cfg batch. apply calls_within_for_each.
    intro r. apply calls_within_sweep_reply.
  - intros cfg fplatform owner_active fetched.
    apply calls_within_fetch_comment.
  - intros pcid rid Hplat Hk Hc Hp st' posted.
    assert (Hby : exists target, posted_by env platform target rd rid st st').
    { destruct Hplat as [Hm | [-> Hmd]].
      - exists (Some pcid).
        apply (post_reply_success env platform cd rd st pcid rid Hm Hk Hc Hp).
      - destruct (post_reply_success_linkedin env cd rd st pcid rid
                    Hk Hmd Hc Hp) as (urn & _ & H).
        exists urn. exact H. }
    destruct Hby as (target & Hby).
    destruct (posted_by_rows _ _ _ _ _ _ _ Hby) as (Hrow & Hlen & Hnote).
    split; [exists target; exact Hby |].
    split; [| split; [| split; [| split]]].
    + intros r Hr. unfold reply_at in *. rewrite Hrow, Hr. cbn [option_map].
      rewrite Nat.eqb_refl. repeat split.
    + intros id Hid. unfold reply_at. rewrite Hrow.
      assert (E : Nat.eqb (ri_id rd) id = false)
        by (apply Nat.eqb_neq; congruence).
      rewrite E. destruct (find _ (replies st)); reflexivity.
    + exact Hlen.
    + exact Hnote.
    + exact (posted_by_one_call _ _ _ _ _ _ _ Hby).
Qed.

Lemma reply_posted_only_on_success_sample :
  same_tables (backlog 1)
    (snd (_post_reply post_fails_env "facebook"
            (sample_comment "c1" "nice video")
            {| ri_id := 1; ri_content := "Thanks for watching!";
               ri_status := "auto_approved"; ri_confidence := None |}
            (backlog 1)))
  /\ reply_at
       (snd (_post_reply sample_env "facebook"
               (sample_comment "c1" "nice video")
               {| ri_id := 1; ri_content := "Thanks for watching!";
                  ri_status := "auto_approved"; ri_confidence := None |}
               (backlog 1))) 1
     = Some (set_posted 1001 "fb-reply-1" (pending_reply 1)).
Proof.
  split.
  - apply (proj1 (proj2 (proj2
             (reply_posted_only_on_success post_fails_env "facebook"
                (sample_comment "c1" "nice video")
                {| ri_id := 1; ri_content := "Thanks for watching!";
                   ri_status := "auto_approved"; ri_confidence := None |}
                (backlog 1))))).
    intro rid. simpl. discriminate.
  - apply (proj1 (proj2
             (proj2 (proj2 (proj2 (proj2 (proj2 (proj2 (proj2
                (reply_posted_only_on_success sample_env "facebook"
                   (sample_comment "c1" "nice video")
                   {| ri_id := 1; ri_content := "Thanks for watching!";
                      ri_status := "auto_approved"; ri_confidence := None |}
                   (backlog 1))))))))
                "c1" (Some "fb-reply-1") (or_introl eq_refl) eq_refl eq_refl
                eq_refl))
           (pending_reply 1) eq_refl).
Defined.

(** ** Failures inside the pipeline *)

Lemma process_comment_returns cfg env cd st :
  exists r st', process_comment cfg env cd st = (Ok r, st').
Proof.
  unfold process_comment, catch.
  destruct (process_comment_body cfg env cd st) as [[r | e] s].
  - exists r, s. reflexivity.
  - eexists. eexists. reflexivity.
Qed.

Lemma process_comment_raised cfg env cd st e s :
  process_comment_body cfg env cd st = (Raise e, s) ->
  fst (process_comment cfg env cd st)
  = Ok (ProcessFailed e (cd_platform_comment_id cd)).
Proof.
  intro H. unfold process_comment, catch. rewrite H. reflexivity.
Qed.

Lemma post_context_of_run id st :
  exists ctx, post_context_of id st = (Ok ctx, st).
Proof.
  unfold post_context_of. destruct id as [[| n] |];
    try (eexists; reflexivity).
  unfold bind, crud_post_get.
  destruct (find _ (posts st)) as [p |]; [| eexists; reflexivity].
  destruct (post_content p) as [c |]; [| eexists; reflexivity].
  destruct (String.eqb c EmptyString); eexists; reflexivity.
Qed.

Lemma classify_comment_run env text platform st :
  exists a st', classify_comment env text platform st = (Ok a, st')
                /\ settings_rows st' = settings_rows st.
Proof.
  unfold classify_comment.
  destruct (find _ COMMENT_TYPES) as [[ty kws] |].
  - eexists. eexists. split; reflexivity.
  - unfold bind, external.
    destruct (classify_response env _) as [[ty c] |];
      eexists; eexists; split; reflexivity.
Qed.

Lemma upsert_run cd st platform pcid :
  cd_platform cd = Some platform ->
  cd_platform_comment_id cd = Some pcid ->
  exists c st', crud_comment_create_or_update cd st = (Ok (Some c), st')
                /\ settings_rows st' = settings_rows st.
Proof.
  intros Hp Hk. unfold crud_comment_create_or_update. rewrite Hp, Hk.
  cbn [subscript]. rewrite !bind_ret_run.
  unfold bind at 1. unfold crud_comment_get_by_platform_id at 1.
  destruct (find (comment_has_key platform pcid) (comments st))
    as [e |] eqn:F.
  - rewrite crud_comment_update_run.
    rewrite (find_update_first comment_id _ (comments st) (comment_id e)
               (comment_id e)) by reflexivity.
    destruct (find_some _ _ F) as [He _].
    destruct (find_exists (fun c => Nat.eqb (comment_id c) (comment_id e))
                (comments st) e He (Nat.eqb_refl _)) as (y & Hy).
    rewrite Hy. simpl. eexists. eexists. split; reflexivity.
  - eexists. eexists. split; reflexivity.
Qed.

Lemma analyze_sentiment_run env text st :
  (forall n, sentiment_response env n <> Some None) ->
  exists s st', analyze_sentiment env text st = (Ok (Some s), st')
                /\ settings_rows st' = settings_rows st.
Proof.
  intro H. unfold analyze_sentiment, bind, external.
  specialize (H (List.length (trace st))).
  destruct (sentiment_response env _) as [[s |] |].
  - exists s. eexists. split; reflexivity.
  - congruence.
  - eexists. eexists. split; reflexivity.
Qed.

Lemma get_owner_active_ext st st' :
  settings_rows st' = settings_rows st ->
  fst (crud_settings_get_owner_active st')
  = fst (crud_settings_get_owner_active st).
Proof.
  intro H.
  unfold crud_settings_get_owner_active, crud_settings_get_value,
    crud_settings_get_by_key, bind, ret, raise.
  rewrite H.
  destruct (find _ (settings_rows st)) as [s |]; [| reflexivity].
  destruct (s_value s); reflexivity.
Qed.

Lemma process_comment_succeeds cfg env cd st platform content pcid :
  cd_platform cd = Some platform ->
  cd_content cd = Some content ->
  cd_platform_comment_id cd = Some pcid ->
  cd_metadata cd <> Some MdOther ->
  (forall n, sentiment_response env n <> Some None) ->
  (exists b, fst (crud_settings_get_owner_active st) = Ok b) ->
  exists c ty s r ap,
    fst (process_comment cfg env cd st) = Ok (ProcessOk c ty s r ap).
Proof.
  intros Hp Hc Hk Hmd Hsent [b Hb].
  unfold process_comment, catch, process_comment_body.
  rewrite Hp, Hc. cbn [subscript]. rewrite !bind_ret_run.
  destruct (post_context_of_run (cd_post_id cd) st) as (ctx & E1).
  rewrite (bind_run _ _ _ _ _ E1).
  destruct (classify_comment_run env content platform st)
    as ([ty cl] & s1 & E2 & S1).
  rewrite (bind_run _ _ _ _ _ E2). cbn [fst snd].
  assert (E3 : match cd_metadata (set_classification ty (cl_confidence cl) cd)
               with
               | Some MdOther => raise (TypeError "'metadata' is not a mapping")
               | _ => ret tt
               end s1 = (Ok tt, s1)).
  { simpl. destruct (cd_metadata cd) as [[] |]; try reflexivity.
    congruence. }
  rewrite (bind_run _ _ _ _ _ E3).
  destruct (upsert_run (set_classification ty (cl_confidence cl) cd) s1
              platform pcid Hp Hk) as (c & s2 & E4 & S2).
  rewrite (bind_run _ _ _ _ _ E4).
  destruct (generate_reply_run cfg env content ty platform ctx
              (option_default "Unknown" (cd_author cd)) s2)
    as (rr & E5 & _).
  rewrite (bind_run _ _ _ _ _ E5).
  destruct (analyze_sentiment_run env content
              (emit (ModelCall "generate" content) s2) Hsent)
    as (sn & s3 & E6 & S3).
  rewrite (bind_run _ _ _ _ _ E6).
  cbn [attribute subscript]. rewrite !bind_ret_run.
  rewrite (bind_run _ _ _ _ _ (crud_comment_update_run _ _ _)).
  match goal with
  | |- context [bind (crud_reply_create ?a ?b ?c0 ?d ?e) _ ?s] =>
      destruct (crud_reply_create_run a b c0 d e s) as (r & E7 & _);
      rewrite (bind_run _ _ _ _ _ E7)
  end.
  match goal with
  | |- context [bind ?m ?f ?s] =>
      assert (E8 : exists s', m s = (Ok tt, s')
                              /\ settings_rows s' = settings_rows s3)
  end.
  { destruct (workflows (rr_triggers rr)); eexists; split; reflexivity. }
  destruct E8 as (s4 & E8 & S4). rewrite (bind_run _ _ _ _ _ E8).
  assert (Hb4 : fst (crud_settings_get_owner_active s4) = Ok b).
  { rewrite (get_owner_active_ext st s4); [exact Hb |].
    rewrite S4, S3. simpl. rewrite S2, S1. reflexivity. }
  match goal with
  | |- context [bind ?m ?f s4] =>
      assert (E9 : exists p, m s4 = (Ok p, s4))
  end.
  { destruct (rr_needs_approval rr); [eexists; reflexivity |].
    pose proof (get_owner_active_reads s4) as Hr.
    destruct (crud_settings_get_owner_active s4) as [x y] eqn:E.
    simpl in Hb4, Hr. subst.
    exists (negb b). unfold bind. rewrite E. reflexivity. }
  destruct E9 as (p & E9). rewrite (bind_run _ _ _ _ _ E9).
  destruct (record_metric_run env platform "comment_processed" s4)
    as (s5 & E10).
  rewrite (bind_run _ _ _ _ _ E10).
  eexists. eexists. eexists. eexists. eexists. reflexivity.
Qed.

(** C6 (amended).  A failed classification call degrades to category
    "general" with confidence 0.5 and method "fallback" (the reply is then
    generated as usual); a failed generation call degrades to the fixed
    fallback text of the category with confidence 0.3 and
    [needs_approval = true]; [process_comment] never raises; it returns
    the failure result when "platform" or "content" cannot be read; and
    with "platform", "content" and "platform_comment_id" present, metadata
    that is a dict, a usable sentiment answer and a readable owner setting
    it succeeds whatever the classification and generation calls do. *)
Theorem ai_failures_degrade :
  forall (cfg : Settings) (env : Env),
    (forall text platform st,
       find (keyword_hit (lower text)) COMMENT_TYPES = None ->
       classify_response env (List.length (trace st)) = None ->
       classify_comment env text platform st
       = (Ok ("general",
              {| cl_confidence := 0.5%Q; cl_method := "fallback";
                 matched_keywords := [] |}),
          emit (ModelCall "classify" text) st))
    /\ (forall text ty platform ctx author st,
          generate_response env (List.length (trace st)) = None ->
          generate_reply cfg env text ty platform ctx author st
          = (Ok {| rr_reply := _get_fallback_reply ty platform;
                   rr_confidence := 0.3%Q;
                   rr_triggers := {| tags := []; workflows := [] |};
                   rr_needs_approval := true;
                   rr_error := true |},
             emit (ModelCall "generate" text) st))
    /\ (forall cd st,
          exists r st', process_comment cfg env cd st = (Ok r, st'))
    /\ (forall cd st,
          cd_platform cd = None \/ cd_content cd = None ->
          exists key,
            (key = "platform" \/ key = "content")
            /\ fst (process_comment cfg env cd st)
               = Ok (ProcessFailed (KeyError key)
                                   (cd_platform_comment_id cd)))
    /\ (forall cd st platform content pcid,
          cd_platform cd = Some platform ->
          cd_content cd = Some content ->
          cd_platform_comment_id cd = Some pcid ->
          cd_metadata cd <> Some MdOther ->
          (forall n, sentiment_response env n <> Some None) ->
          (exists b, fst (crud_settings_get_owner_active st) = Ok b) ->
          exists c ty s r ap,
            fst (process_comment cfg env cd st)
            = Ok (ProcessOk c ty s r ap)).
Proof.
  intros cfg env. split; [| split; [| split; [| split]]].
  - intros text platform st Hk Hc. unfold classify_comment.
    rewrite Hk. unfold bind, external. rewrite Hc. reflexivity.
  - intros text ty platform ctx author st Hg.
    unfold generate_reply, bind, external. rewrite Hg. reflexivity.
  - apply process_comment_returns.
  - intros cd st H.
    destruct (cd_platform cd) as [p |] eqn:Hp.
    + destruct H as [H | H]; [discriminate |].
      exists "content". split; [right; reflexivity |].
      apply process_comment_raised with (s := st).
      unfold process_comment_body. rewrite Hp, H. reflexivity.
    + exists "platform". split; [left; reflexivity |].
      apply process_comment_raised with (s := st).
      unfold process_comment_body. rewrite Hp. reflexivity.
  - intros cd st platform content pcid.
    apply process_comment_succeeds.
Qed.

Lemma ai_failures_degrade_sample :
  (exists key,
     (key = "platform" \/ key = "content")
     /\ fst (process_comment default_settings sample_env
               {| cd_platform := Some "facebook";
                  cd_platform_comment_id := Some "c9";
                  cd_content := None; cd_author := None;
                  cd_post_id := None; cd_metadata := None;
                  cd_comment_type := None; cd_confidence := None |} init)
        = Ok (ProcessFailed (KeyError key) (Some "c9")))
  /\ (exists c ty s r ap,
        fst (process_comment default_settings classify_down_env
               (sample_comment "c1" "nice video") init)
        = Ok (ProcessOk c ty s r ap)).
Proof.
  split.
  - apply (proj1 (proj2 (proj2 (proj2
             (ai_failures_degrade default_settings sample_env))))).
    right. reflexivity.
  - apply (proj2 (proj2 (proj2 (proj2
             (ai_failures_degrade default_settings classify_down_env))))
           (sample_comment "c1" "nice video") init "facebook" "nice video"
           "c1").
    + reflexivity.
    + reflexivity.
    + reflexivity.
    + discriminate.
    + intro n. discriminate.
    + exists false. reflexivity.
Defined.

(** C6 as stated fails twice: with the classification call failing the
    stored reply is the generated text, auto-approved, not the fallback
    text at confidence 0.3; and a raw comment with platform and content
    but no "platform_comment_id" gets the failure result. *)
Lemma classification_failure_is_not_fallback_reply :
  fst (process_comment default_settings classify_down_env
         (sample_comment "c1" "nice video") init)
  = Ok (ProcessOk 1 "general" "positive"
          {| ri_id := 1; ri_content := "Thanks for watching!";
             ri_status := "auto_approved";
             ri_confidence := Some (0.7 + 0.15)%Q |} true)
  /\ classify_response classify_down_env 0 = None
  /\ "Thanks for watching!" <> _get_fallback_reply "general" "facebook"
  /\ fst (process_comment default_settings sample_env
            {| cd_platform := Some "facebook";
               cd_platform_comment_id := None;
               cd_content := Some "nice video"; cd_author := Some "Ann";
               cd_post_id := None; cd_metadata := None;
               cd_comment_type := None; cd_confidence := None |} init)
     = Ok (ProcessFailed (KeyError "platform_comment_id") None).
Proof.
  split; [vm_compute; reflexivity |].
  split; [reflexivity |].
  split; [vm_compute; discriminate |].
  vm_compute; reflexivity.
Qed.

(** ** The pending-reply sweep *)

Lemma In_firstn {A} n (l : list A) x : In x (firstn n l) -> In x l.
Proof.
  revert l. induction n as [| n IH]; intros [| y l]; simpl; try tauto.
  intros [H | H]; [left; exact H | right; apply IH; exact H].
Qed.

Lemma NoDup_firstn {A} n (l : list A) : NoDup l -> NoDup (firstn n l).
Proof.
  revert l. induction n as [| n IH]; intros [| y l] H; simpl;
    try constructor.
  - inversion H; subst. intro Hin. apply In_firstn in Hin. contradiction.
  - inversion H; subst. apply IH. assumption.
Qed.

Lemma NoDup_map_filter {A B} (g : A -> B) p (l : list A) :
  NoDup (map g l) -> NoDup (map g (filter p l)).
Proof.
  induction l as [| x l IH]; simpl; intro H; [constructor |].
  inversion H as [| ? ? Hn Hd]; subst.
  destruct (p x); simpl; [| auto].
  constructor; [| auto].
  intro Hin. apply Hn. apply in_map_iff in Hin.
  destruct Hin as (y & E & Hy). apply filter_In in Hy.
  rewrite <- E. apply in_map. tauto.
Qed.

Lemma update_first_twice {A} (p : A -> bool) f g (l : list A) :
  (forall x, p (f x) = p x) ->
  update_first p g (update_first p f l)
  = update_first p (fun x => g (f x)) l.
Proof.
  intro Hp. induction l as [| x l IH]; simpl; [reflexivity |].
  destruct (p x) eqn:E; simpl.
  - rewrite Hp, E. reflexivity.
  - rewrite E, IH. reflexivity.
Qed.

Lemma reply_at_update st a g n b :
  (forall x, reply_id (g x) = reply_id x) ->
  reply_at (set_replies (update_first (fun r => Nat.eqb (reply_id r) a) g
                                      (replies st)) n st) b
  = option_map (fun x => if Nat.eqb a b then g x else x) (reply_at st b).
Proof.
  intro Hid. unfold reply_at. simpl.
  apply (find_update_first reply_id g (replies st) a b Hid).
Qed.

Lemma reply_at_self st r :
  replies_wf st -> In r (replies st) -> reply_at st (reply_id r) = Some r.
Proof.
  intros Hwf Hin. unfold reply_at.
  destruct (find _ (replies st)) as [x |] eqn:F.
  - destruct (find_some _ _ F) as [Hx E]. apply Nat.eqb_eq in E.
    f_equal. apply (NoDup_map_inj reply_id (replies st)); assumption.
  - pose proof (find_none _ _ F r Hin) as H. simpl in H.
    rewrite Nat.eqb_refl in H. discriminate.
Qed.

Lemma update_first_id {A} (p : A -> bool) (l : list A) :
  update_first p (fun x => x) l = l.
Proof.
  induction l as [| x l IH]; simpl; [reflexivity |].
  destruct (p x); congruence.
Qed.

Lemma approve_run env id by_ st :
  crud_reply_approve env id by_ st
  = (Ok (find (fun r => Nat.eqb (reply_id r) id)
              (update_first (fun r => Nat.eqb (reply_id r) id)
                 (set_approved (utcnow env (List.length (trace st))) by_)
                 (replies st))),
     set_replies
       (update_first (fun r => Nat.eqb (reply_id r) id)
          (set_approved (utcnow env (List.length (trace st))) by_)
          (replies st))
       (next_reply_id st) st).
Proof. reflexivity. Qed.

Lemma promoted_approved t x : promoted (set_approved t "ai_auto" x).
Proof. split; [reflexivity | left; reflexivity]. Qed.

Lemma promoted_posted t t' prid x :
  promoted (set_posted t' prid (set_approved t "ai_auto" x)).
Proof. split; [reflexivity | right; reflexivity]. Qed.

Lemma marked_posted_intro t prid x : marked_posted (set_posted t prid x).
Proof. repeat split; discriminate. Qed.

Lemma three_platforms_known platform :
  mem platform ["youtube"; "facebook"; "instagram"] = true ->
  mem platform PLATFORMS = true.
Proof.
  unfold mem, PLATFORMS. simpl. rewrite !orb_false_r.
  intro H. repeat (apply orb_true_iff in H; destruct H as [H | H]);
    rewrite H; repeat rewrite orb_true_r; reflexivity.
Qed.

(** What one iteration of the sweep does. *)
Lemma sweep_reply_run cfg env r c st :
  r_confidence r = Some c ->
  exists st',
    sweep_reply cfg env r st = (Ok tt, st')
    /\ comments st' = comments st
    /\ exists g,
         replies st'
         = update_first (fun x => Nat.eqb (reply_id x) (reply_id r)) g
                        (replies st)
         /\ (forall x, reply_id (g x) = reply_id x)
         /\ ((auto_approve_confidence cfg <= c)%Q ->
             (forall x, promoted (g x))
             /\ (postable env st r -> forall x, marked_posted (g x))).
Proof.
  intro Hc. unfold sweep_reply. rewrite Hc. rewrite bind_ret_run.
  destruct (Qge_bool c (auto_approve_confidence cfg)) eqn:G.
  2:{ exists st. split; [reflexivity |]. split; [reflexivity |].
      exists (fun x => x). split; [symmetry; apply update_first_id |].
      split; [reflexivity |]. intro H. apply Qge_bool_iff in H.
      congruence. }
  rewrite (bind_run _ _ _ _ _ (approve_run env _ _ st)).
  set (t := utcnow env (List.length (trace st))).
  set (st1 := set_replies _ _ st).
  unfold bind at 1. unfold crud_comment_get at 1.
  change (comments st1) with (comments st).
  destruct (find (fun c0 => Nat.eqb (comment_id c0) (r_comment_id r))
                 (comments st)) as [cm |] eqn:F.
  2:{ exists st1. split; [reflexivity |]. split; [reflexivity |].
      exists (set_approved t "ai_auto").
      split; [reflexivity |]. split; [reflexivity |]. intros _.
      split; [apply promoted_approved |].
      intros (cm & F' & _). congruence. }
  destruct (mem (c_platform cm) PLATFORMS && is_configured env (c_platform cm))
    eqn:K.
  2:{ exists st1. split; [reflexivity |]. split; [reflexivity |].
      exists (set_approved t "ai_auto").
      split; [reflexivity |]. split; [reflexivity |]. intros _.
      split; [apply promoted_approved |].
      intros (cm' & F' & Hm & Hcf & _).
      assert (cm' = cm) by congruence. subst cm'.
      rewrite (three_platforms_known _ Hm), Hcf in K. discriminate. }
  set (cd := {| cd_platform := None;
                cd_platform_comment_id := Some (platform_comment_id cm);
                cd_content := None; cd_author := None; cd_post_id := None;
                cd_metadata := Some MdOther; cd_comment_type := None;
                cd_confidence := None |}).
  set (rd := {| ri_id := reply_id r; ri_content := r_content r;
                ri_status := EmptyString; ri_confidence := None |}).
  destruct (post_reply_cases env (c_platform cm) cd rd st1) as (Hok & Hcases).
  destruct (_post_reply env (c_platform cm) cd rd st1) as [res s2] eqn:E.
  simpl in Hok, Hcases. subst res.
  exists s2. split; [reflexivity |].
  assert (Hpost : postable env st r ->
                  exists rid, posted_by env (c_platform cm)
                                (Some (platform_comment_id cm)) rd rid st1 s2).
  { intros (cm' & F' & Hm & Hcf & Hall).
    assert (cm' = cm) by congruence. subst cm'.
    destruct (Hall (List.length (trace st1))) as (rid & Hp).
    exists rid.
    pose proof (post_reply_success env (c_platform cm) cd rd st1
                  (platform_comment_id cm) rid Hm eq_refl Hcf Hp) as H.
    rewrite E in H. exact H. }
  assert (Htwice : forall t' prid,
    update_first (fun x => Nat.eqb (reply_id x) (ri_id rd))
                 (set_posted t' prid) (replies st1)
    = update_first (fun x => Nat.eqb (reply_id x) (reply_id r))
                   (fun x => set_posted t' prid (set_approved t "ai_auto" x))
                   (replies st)).
  { intros t' prid. unfold st1. simpl.
    apply update_first_twice. reflexivity. }
  destruct Hcases as [H | [(target & H) | (target & rid & H)]].
  - subst s2. split; [reflexivity |].
    exists (set_approved t "ai_auto").
    split; [reflexivity |]. split; [reflexivity |]. intros _.
    split; [apply promoted_approved |]. intro Hp.
    destruct (Hpost Hp) as (rid & Hb).
    pose proof (posted_by_one_call _ _ _ _ _ _ _ Hb). lia.
  - subst s2. split; [reflexivity |].
    exists (set_approved t "ai_auto").
    split; [reflexivity |]. split; [reflexivity |]. intros _.
    split; [apply promoted_approved |]. intro Hp.
    destruct (Hpost Hp) as (rid & (_ & _ & _ & Ht & _)).
    simpl in Ht. apply (f_equal (@List.length Event)) in Ht.
    rewrite !length_app in Ht. simpl in Ht. lia.
  - destruct H as (_ & _ & Hr & _ & _ & Hcm & _).
    split; [exact Hcm |].
    eexists. split; [rewrite Hr; apply Htwice |].
    split; [reflexivity |]. intros _.
    split; [intro x; apply promoted_posted |].
    intros _ x. apply marked_posted_intro.
Qed.

Lemma postable_ext env st st' r :
  comments st' = comments st -> postable env st r -> postable env st' r.
Proof. intros H (cm & F & rest). exists cm. rewrite H. auto. Qed.

Lemma reply_at_replies st st' a g b :
  replies st'
  = update_first (fun x => Nat.eqb (reply_id x) a) g (replies st) ->
  (forall x, reply_id (g x) = reply_id x) ->
  reply_at st' b
  = option_map (fun x => if Nat.eqb a b then g x else x) (reply_at st b).
Proof.
  intros Hr Hid. unfold reply_at. rewrite Hr.
  apply (find_update_first reply_id g (replies st) a b Hid).
Qed.

(** The loop of the sweep: it runs to its end, leaves the replies outside
    the batch alone and promotes every reply of the batch that qualifies. *)
Lemma sweep_loop cfg env batch :
  forall st,
    (forall r, In r batch -> r_confidence r <> None) ->
    NoDup (map reply_id batch) ->
    exists st',
      for_each batch (sweep_reply cfg env) st = (Ok tt, st')
      /\ comments st' = comments st
      /\ (forall b, ~ In b (map reply_id batch) ->
                    reply_at st' b = reply_at st b)
      /\ (forall r c x,
            In r batch -> r_confidence r = Some c ->
            (auto_approve_confidence cfg <= c)%Q ->
            reply_at st (reply_id r) = Some x ->
            exists x',
              reply_at st' (reply_id r) = Some x'
              /\ promoted x'
              /\ (postable env st r -> marked_posted x')).
Proof.
  induction batch as [| r0 batch IH]; intros st Hconf Hnd.
  - exists st. split; [reflexivity |]. split; [reflexivity |].
    split; [reflexivity |]. intros r c x [].
  - simpl in Hnd. inversion Hnd as [| ? ? Hfresh Hnd']; subst.
    destruct (r_confidence r0) as [c0 |] eqn:C0;
      [| exfalso; apply (Hconf r0 (or_introl eq_refl)); exact C0].
    destruct (sweep_reply_run cfg env r0 c0 st C0)
      as (st1 & E1 & Hc1 & g & Hr1 & Hid & Hg).
    destruct (IH st1 (fun r Hr => Hconf r (or_intror Hr)) Hnd')
      as (st' & E' & Hc' & Hout & Hin).
    exists st'. split.
    { simpl. rewrite (bind_run _ _ _ _ _ E1). exact E'. }
    split; [congruence |]. split.
    + intros b Hb. simpl in Hb.
      rewrite Hout by tauto.
      rewrite (reply_at_replies st st1 (reply_id r0) g b Hr1 Hid).
      destruct (Nat.eqb (reply_id r0) b) eqn:Eb.
      * apply Nat.eqb_eq in Eb. tauto.
      * destruct (reply_at st b); reflexivity.
    + intros r c x [-> | Hr] Hc Hthr Hx.
      * rewrite Hout by exact Hfresh.
        rewrite (reply_at_replies st st1 (reply_id r) g (reply_id r) Hr1 Hid).
        rewrite Hx. simpl. rewrite Nat.eqb_refl.
        assert (c0 = c) by congruence. subst c0.
        destruct (Hg Hthr) as [Hprom Hpost].
        exists (g x). split; [reflexivity |]. split; [apply Hprom |].
        intro Hp. apply Hpost. exact Hp.
      * assert (Hne : Nat.eqb (reply_id r0) (reply_id r) = false).
        { apply Nat.eqb_neq. intro Heq. apply Hfresh. rewrite Heq.
          apply in_map. exact Hr. }
        assert (Hx1 : reply_at st1 (reply_id r) = Some x).
        { rewrite (reply_at_replies st st1 (reply_id r0) g (reply_id r)
                     Hr1 Hid).
          rewrite Hx. simpl. rewrite Hne. reflexivity. }
        destruct (Hin r c x Hr Hc Hthr Hx1) as (x' & Hx' & Hprom & Hpost).
        exists x'. split; [exact Hx' |]. split; [exact Hprom |].
        intro Hp. apply Hpost. apply (postable_ext env st st1); assumption.
Qed.

(** *** Reply rows stay well formed *)

Lemma replies_ok_kept_refl st : replies_ok_kept st st.
Proof. intro H. exact H. Qed.

Lemma replies_ok_kept_trans a b c :
  replies_ok_kept a b -> replies_ok_kept b c -> replies_ok_kept a c.
Proof. unfold replies_ok_kept. auto. Qed.

Lemma replies_ok_kept_same st st' :
  replies st' = replies st -> next_reply_id st' = next_reply_id st ->
  replies_ok_kept st st'.
Proof. unfold replies_ok_kept, replies_ok. intros -> ->. auto. Qed.

Lemma replies_ok_kept_untouched {A} (m : M A) :
  (forall st, replies (snd (m st)) = replies st) ->
  (forall st, next_reply_id (snd (m st)) = next_reply_id st) ->
  preserves replies_ok_kept m.
Proof. intros H1 H2 st. apply replies_ok_kept_same; auto. Qed.

Lemma replies_ok_kept_upsert cd :
  preserves replies_ok_kept (crud_comment_create_or_update cd).
Proof.
  intro st.
  destruct (upsert_cases cd st)
    as [-> | [(p & k & e & _ & _ & F & ->) | (p & k & _ & _ & F & ->)]];
    apply replies_ok_kept_same; reflexivity.
Qed.

Lemma replies_ok_kept_create c content stat conf trig :
  preserves replies_ok_kept (crud_reply_create c content stat conf trig).
Proof.
  intros st (Hn & Hlt & Hc).
  destruct (crud_reply_create_run c content stat conf trig st)
    as (r & -> & Hid & _ & _ & _ & Hconf).
  unfold replies_ok. simpl. rewrite map_app. simpl. split; [| split].
  - apply NoDup_app_last; [exact Hn |].
    intro H. apply in_map_iff in H. destruct H as (x & E & Hx).
    rewrite Forall_forall in Hlt. specialize (Hlt x Hx). lia.
  - apply Forall_app. split.
    + eapply Forall_impl; [| exact Hlt]. simpl. intros; lia.
    + constructor; [lia | constructor].
  - apply Forall_app. split; [exact Hc |].
    constructor; [congruence | constructor].
Qed.

Lemma replies_ok_kept_update id f :
  (forall r, reply_id (f r) = reply_id r) ->
  (forall r, r_confidence (f r) = r_confidence r) ->
  preserves replies_ok_kept (crud_reply_update id f).
Proof.
  intros Hid Hconf st (Hn & Hlt & Hc). rewrite crud_reply_update_run.
  unfold replies_ok. simpl. split; [| split].
  - rewrite update_first_map; [exact Hn | auto].
  - apply update_first_Forall; [| exact Hlt].
    intros r Hr. rewrite Hid. exact Hr.
  - apply update_first_Forall; [| exact Hc].
    intros r Hr. rewrite Hconf. exact Hr.
Qed.

Lemma replies_ok_kept_approve env id by_ :
  preserves replies_ok_kept (crud_reply_approve env id by_).
Proof.
  intro st. rewrite crud_reply_approve_run.
  apply replies_ok_kept_update; reflexivity.
Qed.

Lemma replies_ok_kept_mark_posted env id prid :
  preserves replies_ok_kept (crud_reply_mark_as_posted env id prid).
Proof.
  intro st. rewrite crud_reply_mark_as_posted_run.
  apply replies_ok_kept_update; reflexivity.
Qed.

Lemma replies_ok_kept_reject id :
  preserves replies_ok_kept (crud_reply_reject id).
Proof. apply replies_ok_kept_update; reflexivity. Qed.

Ltac replies_untouched :=
  intros;
  first [ apply replies_ok_kept_untouched; reflexivity
        | apply replies_ok_kept_same; reflexivity ].

Lemma replies_ok_run cfg env ops st :
  replies_ok st -> replies_ok (run cfg env ops st).
Proof.
  apply (run_related cfg env replies_ok_kept);
    try exact replies_ok_kept_refl; try exact replies_ok_kept_trans;
    try exact replies_ok_kept_upsert;
    try exact (replies_ok_kept_mark_posted env);
    try exact (replies_ok_kept_approve env);
    try (intros; apply replies_ok_kept_create);
    try replies_untouched.
  - intros id by_.
    apply (preserves_approve_reply_parts env replies_ok_kept);
      try exact replies_ok_kept_refl; try exact replies_ok_kept_trans;
      try exact (replies_ok_kept_approve env); replies_untouched.
  - intro id.
    apply (preserves_reject_reply_parts env replies_ok_kept);
      try exact replies_ok_kept_refl; try exact replies_ok_kept_trans;
      try exact replies_ok_kept_reject; replies_untouched.
Qed.

Lemma replies_ok_init : replies_ok init.
Proof. unfold replies_ok. simpl. repeat split; constructor. Qed.

(** C3 (amended).  Every repository reached from the empty one has
    distinct reply ids and a confidence on every reply.  With
    [owner_active] false, in a repository of that kind, one sweep call
    runs to its end and promotes every reply that is among the 50 most
    recently created pending ones and has confidence at or above the
    threshold: it ends "approved" by "ai_auto", and "posted" with the
    platform's reply id and the time when its comment exists on youtube,
    facebook or instagram, the adapter is configured and its reply call
    succeeds. *)
Theorem sweep_promotes_batch :
  forall (cfg : Settings) (env : Env),
    (forall cfg0 ops,
       replies_wf (run cfg0 env ops init)
       /\ (forall x, In x (replies (run cfg0 env ops init)) ->
                     r_confidence x <> None))
    /\ (forall (st : State) (r : Reply) (c : Q),
          fst (crud_settings_get_owner_active st) = Ok false ->
          replies_wf st ->
          (forall x, In x (replies st) -> is_pending x = true ->
                     r_confidence x <> None) ->
          In r (firstn 50 (rev (filter is_pending (replies st)))) ->
          r_confidence r = Some c ->
          (auto_approve_confidence cfg <= c)%Q ->
          exists st' r',
            process_pending_replies cfg env st = (Ok tt, st')
            /\ reply_at st' (reply_id r) = Some r'
            /\ approved_by r' = Some "ai_auto"
            /\ (status r' = "approved" \/ status r' = "posted")
            /\ (postable env st r ->
                status r' = "posted" /\ platform_reply_id r' <> None
                /\ posted_at r' <> None)).
Proof.
  intros cfg env. split.
  { intros cfg0 ops.
    destruct (replies_ok_run cfg0 env ops init replies_ok_init)
      as (Hn & _ & Hc).
    split; [exact Hn |]. rewrite Forall_forall in Hc. exact Hc. }
  intros st r c Hoa Hwf Hconf Hin Hc Hthr.
  assert (E : crud_settings_get_owner_active st = (Ok false, st)).
  { pose proof (get_owner_active_reads st) as Hs.
    destruct (crud_settings_get_owner_active st) as [x s].
    simpl in *. subst. reflexivity. }
  set (batch := firstn 50 (rev (filter is_pending (replies st)))) in *.
  assert (Hsub : forall x, In x batch ->
                           In x (replies st) /\ is_pending x = true).
  { intros x Hx. unfold batch in Hx. apply In_firstn in Hx.
    apply in_rev in Hx. apply filter_In in Hx. exact Hx. }
  assert (Hnd : NoDup (map reply_id batch)).
  { unfold batch. rewrite <- firstn_map, map_rev.
    apply NoDup_firstn, NoDup_rev, NoDup_map_filter. exact Hwf. }
  destruct (sweep_loop cfg env batch st) as (st' & E' & _ & _ & Hprom).
  { intros x Hx. destruct (Hsub x Hx). auto. }
  { exact Hnd. }
  destruct (Hprom r c r Hin Hc Hthr) as (r' & Hr' & [Hby Hst] & Hpost).
  { apply reply_at_self; [exact Hwf |]. apply Hsub. exact Hin. }
  exists st', r'. split.
  { unfold process_pending_replies. rewrite (bind_run _ _ _ _ _ E).
    cbv beta. cbn [negb].
    exact (eq_trans
             (bind_run (crud_reply_get_pending 50) _ st batch st eq_refl)
             E'). }
  split; [exact Hr' |]. split; [exact Hby |]. split; [exact Hst |].
  exact Hpost.
Qed.

Lemma sweep_promotes_batch_sample :
  exists st' r',
    process_pending_replies default_settings sample_env (backlog 1)
    = (Ok tt, st')
    /\ reply_at st' 1 = Some r'
    /\ approved_by r' = Some "ai_auto"
    /\ status r' = "posted".
Proof.
  destruct (proj2 (sweep_promotes_batch default_settings sample_env)
              (backlog 1) (pending_reply 1) 0.82%Q)
    as (st' & r' & Hrun & Hat & Hby & _ & Hpost).
  - reflexivity.
  - unfold replies_wf. simpl. constructor; [intros [] | constructor].
  - intros x [<- | []] _. discriminate.
  - simpl. left. reflexivity.
  - reflexivity.
  - vm_compute. discriminate.
  - exists st', r'. split; [exact Hrun |]. split; [exact Hat |].
    split; [exact Hby |]. apply Hpost.
    exists (sample_comment_row 1). split; [reflexivity |].
    split; [reflexivity |]. split; [reflexivity |].
    intro n. exists (Some "fb-reply-1"). reflexivity.
Defined.

(** C3 as stated fails: of 51 pending replies with confidence 0.82 and
    threshold 0.8 the sweep promotes the 50 newest and leaves the oldest
    pending. *)
Lemma sweep_leaves_oldest_of_51 :
  fst (crud_settings_get_owner_active (backlog 51)) = Ok false
  /\ option_map status (reply_at (backlog 51) 1) = Some "pending"
  /\ option_map r_confidence (reply_at (backlog 51) 1) = Some (Some 0.82%Q)
  /\ Qle_bool (auto_approve_confidence default_settings) 0.82%Q = true
  /\ fst (process_pending_replies default_settings sample_env (backlog 51))
     = Ok tt
  /\ option_map status
       (reply_at (snd (process_pending_replies default_settings sample_env
                         (backlog 51))) 1)
     = Some "pending"
  /\ option_map status
       (reply_at (snd (process_pending_replies default_settings sample_env
                         (backlog 51))) 2)
     = Some "posted".
Proof. repeat split; vm_compute; reflexivity. Qed.

(** ** The pipeline leaves the flag alone; approval sets it *)

Lemma has_reply_same_refl st : has_reply_same st st.
Proof. intro id. reflexivity. Qed.

Lemma has_reply_same_trans a b c :
  has_reply_same a b -> has_reply_same b c -> has_reply_same a c.
Proof. intros H1 H2 id. rewrite H2. apply H1. Qed.

Lemma has_reply_same_ext st st' :
  comments st' = comments st -> has_reply_same st st'.
Proof. intros H id. unfold has_reply_at. rewrite H. reflexivity. Qed.

Lemma process_comment_keeps_flags cfg env cd :
  preserves has_reply_same (process_comment cfg env cd).
Proof.
  apply (preserves_process_comment cfg env has_reply_same).
  - exact has_reply_same_refl.
  - exact has_reply_same_trans.
  - intros. apply has_reply_same_ext. reflexivity.
  - intros. apply has_reply_same_ext. reflexivity.
  - intros cd0 st id. apply upsert_has_reply_at.
  - intros id s st b. rewrite crud_comment_update_run. simpl.
    rewrite has_reply_at_update by reflexivity. unfold has_reply_at.
    destruct (find _ (comments st)); [| reflexivity].
    destruct (Nat.eqb id b); reflexivity.
  - intros. intro st. apply has_reply_same_ext. reflexivity.
Qed.

Lemma approve_reply_sets_flag env id by_ st r cm :
  reply_at st id = Some r ->
  find (fun c => Nat.eqb (comment_id c) (r_comment_id r)) (comments st)
  = Some cm ->
  has_reply_at (snd (approve_reply env id by_ st)) (r_comment_id r) = true.
Proof.
  intros Hr Hcm. unfold approve_reply, catch.
  rewrite (bind_run _ _ _ _ _ (approve_run env id by_ st)).
  rewrite (find_update_first reply_id _ (replies st) id id)
    by reflexivity.
  unfold reply_at in Hr. rewrite Hr. rewrite Nat.eqb_refl.
  cbn [option_map]. cbv beta iota. cbn [r_comment_id set_approved].
  unfold crud_comment_mark_as_replied.
  rewrite (bind_run _ _ _ _ _ (crud_comment_update_run _ _ _)).
  match goal with
  | |- context [bind (crud_analytics_record_metric ?e ?p ?m) _ ?s] =>
      destruct (record_metric_run e p m s) as (s2 & E);
      assert (Hs2 : comments s2 = comments s)
        by (unfold crud_analytics_record_metric, bind, now, modify in E;
            injection E as <-; reflexivity);
      rewrite (bind_run _ _ _ _ _ E)
  end.
  simpl. unfold has_reply_at. rewrite Hs2. simpl.
  rewrite (find_update_first comment_id (set_has_reply true) (comments st)
             (r_comment_id r) (r_comment_id r)) by reflexivity.
  rewrite Hcm. simpl. rewrite Nat.eqb_refl. reflexivity.
Qed.

Lemma comments_same_post_reply env platform cd rd st :
  comments (snd (_post_reply env platform cd rd st)) = comments st.
Proof.
  destruct (post_reply_cases env platform cd rd st)
    as (_ & [H | [(target & H) | (target & rid & H)]]).
  - rewrite H. reflexivity.
  - rewrite H. reflexivity.
  - destruct H as (_ & _ & _ & _ & _ & Hc & _). exact Hc.
Qed.

(** C9 (amended).  The pipeline does not set [has_reply]: after
    [process_comment] the flag of every comment is what it was, and a row
    it creates has the flag false.  The flag is set to true by manual
    approval ([approve_reply] through [mark_as_replied]); once true it
    stays true under every operation, and a posting attempt, failed or
    not, does not touch the comment table. *)
Theorem has_reply_set_by_approval_only :
  forall (cfg : Settings) (env : Env),
    (forall cd st id,
       has_reply_at (snd (process_comment cfg env cd st)) id
       = has_reply_at st id)
    /\ (forall id by_ st r cm,
          reply_at st id = Some r ->
          find (fun c => Nat.eqb (comment_id c) (r_comment_id r))
               (comments st) = Some cm ->
          has_reply_at (snd (approve_reply env id by_ st)) (r_comment_id r)
          = true)
    /\ (forall ops st id,
          has_reply_at st id = true ->
          has_reply_at (run cfg env ops st) id = true)
    /\ (forall platform cd rd st,
          comments (snd (_post_reply env platform cd rd st)) = comments st).
Proof.
  intros cfg env. split; [| split; [| split]].
  - intros cd st id. apply process_comment_keeps_flags.
  - apply approve_reply_sets_flag.
  - intros ops st id. apply has_reply_kept_run.
  - apply comments_same_post_reply.
Qed.

Lemma has_reply_set_by_approval_only_sample :
  has_reply_at
    (run default_settings post_fails_env [OpFetch; OpSweep; OpReject 1]
         (snd (approve_reply post_fails_env 1 "manual" (backlog 1)))) 1
  = true.
Proof.
  apply (proj1 (proj2 (proj2
           (has_reply_set_by_approval_only default_settings post_fails_env)))).
  apply (proj1 (proj2
           (has_reply_set_by_approval_only default_settings post_fails_env))
         1%nat "manual" (backlog 1) (pending_reply 1) (sample_comment_row 1)).
  - reflexivity.
  - reflexivity.
Defined.

(** C9 as stated fails: the pipeline processes a comment successfully,
    stores its reply, and the comment's [has_reply] is still false. *)
Lemma pipeline_leaves_has_reply_false :
  fst (process_comment default_settings sample_env
         (sample_comment "c2" "thank you so much") init)
  = Ok (ProcessOk 1 "praise" "positive"
          {| ri_id := 1; ri_content := "Thanks for watching!";
             ri_status := "auto_approved";
             ri_confidence := Some (0.7 + 0.15)%Q |} true)
  /\ map has_reply
       (comments (snd (process_comment default_settings sample_env
                         (sample_comment "c2" "thank you so much") init)))
     = [false]
  /\ map status
       (replies (snd (process_comment default_settings sample_env
                        (sample_comment "c2" "thank you so much") init)))
     = ["auto_approved"].
Proof. repeat split; vm_compute; reflexivity. Qed.

(** ** One row per identity key *)

Lemma analytics_same_refl st : analytics_same st st.
Proof. reflexivity. Qed.

Lemma analytics_same_trans a b c :
  analytics_same a b -> analytics_same b c -> analytics_same a c.
Proof. unfold analytics_same. congruence. Qed.

Lemma analytics_same_reads {A} (m : M A) :
  reads m -> preserves analytics_same m.
Proof. intros H st. rewrite H. reflexivity. Qed.

Lemma analytics_same_untouched {A} (m : M A) :
  (forall st, analytics (snd (m st)) = analytics st) ->
  preserves analytics_same m.
Proof. intros H st. apply H. Qed.

Lemma analytics_same_upsert cd :
  preserves analytics_same (crud_comment_create_or_update cd).
Proof.
  intro st.
  destruct (upsert_cases cd st)
    as [-> | [(p & k & e & _ & _ & F & ->) | (p & k & _ & _ & F & ->)]];
    reflexivity.
Qed.

Lemma metric_once_bind {A B} (m : M A) (f : A -> M B) :
  preserves analytics_same m -> (forall a, metric_once (f a)) ->
  metric_once (bind m f).
Proof.
  intros Hm Hf st. unfold bind. specialize (Hm st).
  unfold analytics_same in Hm.
  destruct (m st) as [[a | e] s1]; simpl in Hm.
  - specialize (Hf a s1). destruct (f a s1) as [[b | e] s2];
      rewrite <- Hm; exact Hf.
  - exact Hm.
Qed.

Lemma metric_once_record env platform metric {A} (a : A) :
  metric_once (crud_analytics_record_metric env platform metric ;;; ret a).
Proof.
  intro st. simpl. rewrite length_app. simpl. lia.
Qed.

Lemma process_comment_body_metric cfg env cd :
  metric_once (process_comment_body cfg env cd).
Proof.
  unfold process_comment_body.
  repeat first
    [ apply metric_once_record
    | apply metric_once_bind; [| intro] ];
    first
      [ solve [apply analytics_same_reads; auto with frame]
      | solve [apply analytics_same_upsert]
      | solve [apply analytics_same_untouched; reflexivity]
      | solve [apply (preserves_classify env analytics_same);
               [exact analytics_same_refl | exact analytics_same_trans
               | intros; reflexivity]]
      | solve [apply (preserves_generate cfg env analytics_same);
               [exact analytics_same_refl | exact analytics_same_trans
               | intros; reflexivity]]
      | solve [apply (preserves_sentiment env analytics_same);
               [exact analytics_same_refl | exact analytics_same_trans
               | intros; reflexivity]]
      | idtac ].
  - destruct (cd_metadata _) as [[] |];
      apply analytics_same_reads; auto with frame.
  - destruct (workflows _); apply analytics_same_untouched; reflexivity.
  - destruct (rr_needs_approval _);
      [apply analytics_same_reads; auto with frame |].
    apply analytics_same_reads. apply reads_bind; auto with frame.
Qed.

(** Every call of the pipeline leaves exactly one metric. *)
Lemma process_comment_records_metric cfg env cd st :
  List.length (analytics (snd (process_comment cfg env cd st)))
  = S (List.length (analytics st)).
Proof.
  unfold process_comment, catch.
  pose proof (process_comment_body_metric cfg env cd st) as H.
  destruct (process_comment_body cfg env cd st) as [[r | e] s1].
  - exact H.
  - simpl. rewrite length_app, H. simpl. lia.
Qed.

(** The fetch cycle passes over a comment whose identity key is known. *)
Lemma fetch_comment_known cfg env fplatform owner_active cd st
      platform pcid c :
  cd_platform cd = Some platform ->
  cd_platform_comment_id cd = Some pcid ->
  find (comment_has_key platform pcid) (comments st) = Some c ->
  snd (fetch_comment cfg env fplatform owner_active cd st) = st.
Proof.
  intros Hp Hk F. unfold fetch_comment. rewrite Hp.
  cbn [subscript]. rewrite bind_ret_run.
  pose proof (reads_metadata_post_ref (cd_metadata cd) st) as Hr.
  unfold bind at 1.
  destruct (metadata_post_ref (cd_metadata cd) st) as [[ref | e] s1];
    simpl in Hr; subst s1; [| reflexivity].
  unfold bind at 1. unfold crud_post_get_by_platform_id at 1.
  destruct (find _ (posts st)) as [p |]; [| reflexivity].
  cbn [cd_platform_comment_id set_cd_post_id]. rewrite Hk.
  cbn [subscript]. rewrite bind_ret_run.
  unfold bind, crud_comment_get_by_platform_id. rewrite F. reflexivity.
Qed.

(** C8.  After any sequence of fetch cycles (and of any other operation),
    from the empty repository, at most one comment row has a given
    (platform, platform_comment_id).  Create-or-update keeps the keys
    distinct, and when a row with the key exists it adds none; the fetch
    cycle leaves the state untouched for a comment whose key is already
    present, hence does not call the pipeline for it, a call of which
    always records one metric. *)
Theorem comment_identity_unique :
  forall (cfg : Settings) (env : Env),
    (forall ops platform pcid,
       (List.length (rows_with_key platform pcid (run cfg env ops init))
        <= 1)%nat)
    /\ (forall ops st, comments_wf st -> comments_wf (run cfg env ops st))
    /\ (forall cd st,
          comments_wf st ->
          comments_wf (snd (crud_comment_create_or_update cd st)))
    /\ (forall cd st platform pcid c,
          cd_platform cd = Some platform ->
          cd_platform_comment_id cd = Some pcid ->
          find (comment_has_key platform pcid) (comments st) = Some c ->
          List.length (comments (snd (crud_comment_create_or_update cd st)))
          = List.length (comments st))
    /\ (forall fplatform owner_active cd st platform pcid c,
          cd_platform cd = Some platform ->
          cd_platform_comment_id cd = Some pcid ->
          find (comment_has_key platform pcid) (comments st) = Some c ->
          snd (fetch_comment cfg env fplatform owner_active cd st) = st)
    /\ (forall cd st,
          List.length (analytics (snd (process_comment cfg env cd st)))
          = S (List.length (analytics st))).
Proof.
  intros cfg env. split; [| split; [| split; [| split; [| split]]]].
  - intros ops platform pcid. unfold rows_with_key.
    apply NoDup_keys_filter.
    apply (wf_kept_run cfg env ops init comments_wf_init).
  - intros ops st. apply wf_kept_run.
  - intros cd st. apply wf_kept_upsert.
  - intros cd st platform pcid c Hp Hk F.
    destruct (upsert_cases cd st)
      as [-> | [(p & k & e & _ & _ & _ & ->) | (p & k & Hp' & Hk' & F' & _)]].
    + reflexivity.
    + simpl. apply update_first_length.
    + congruence.
  - intros fplatform owner_active cd st platform pcid c.
    apply fetch_comment_known.
  - intros cd st. apply process_comment_records_metric.
Qed.

Lemma comment_identity_unique_sample :
  snd (fetch_comment default_settings sample_env "facebook" false
         (sample_comment "c1" "nice video")
         (snd (fetch_all_comments default_settings sample_env init)))
  = snd (fetch_all_comments default_settings sample_env init).
Proof.
  apply (proj1 (proj2 (proj2 (proj2 (proj2
           (comment_identity_unique default_settings sample_env)))))
         "facebook" false (sample_comment "c1" "nice video")
         (snd (fetch_all_comments default_settings sample_env init))
         "facebook" "c1"
         {| comment_id := 1; c_post_id := Some 1%nat; c_platform := "facebook";
            platform_comment_id := "c1"; c_author := Some "Ann";
            c_content := Some "nice video"; comment_type := Some "question";
            sentiment := Some "positive"; c_confidence := Some 0.9%Q;
            has_reply := false |}).
  - reflexivity.
  - reflexivity.
  - vm_compute. reflexivity.
Defined.

(* ------------------------------------------------------------------ *)
(** ** The reply queue, the settings store and the batch entry points *)

Lemma state_eta st :
  {| posts := posts st; comments := comments st; replies := replies st;
     settings_rows := settings_rows st; analytics := analytics st;
     next_post_id := next_post_id st; next_comment_id := next_comment_id st;
     next_reply_id := next_reply_id st; last_fetch := last_fetch st;
     trace := trace st |} = st.
Proof. destruct st; reflexivity. Qed.

(** What [approve_reply] does, by cases on the reply row. *)
Lemma approve_reply_run env id by_ st :
  match reply_at st id with
  | None => approve_reply env id by_ st = (Ok false, st)
  | Some r =>
      let t := utcnow env (List.length (trace st)) in
      approve_reply env id by_ st
      = (Ok true,
         set_analytics
           (analytics st
            ++ [{| m_date := t; m_platform := "system";
                   metric_type := "reply_approved" |}])
           (set_comments
              (update_first (fun c => Nat.eqb (comment_id c) (r_comment_id r))
                            (set_has_reply true) (comments st))
              (next_comment_id st)
              (set_replies
                 (update_first (fun x => Nat.eqb (reply_id x) id)
                               (set_approved t by_) (replies st))
                 (next_reply_id st) st)))
  end.
Proof.
  unfold reply_at.
  destruct (find (fun r => Nat.eqb (reply_id r) id) (replies st))
    as [r |] eqn:F.
  - cbv zeta. unfold approve_reply, catch.
    rewrite (bind_run _ _ _ _ _ (approve_run env id by_ st)).
    rewrite (find_update_first reply_id _ (replies st) id id)
      by reflexivity.
    rewrite F. cbn [option_map]. rewrite Nat.eqb_refl.
    unfold crud_comment_mark_as_replied.
    rewrite (bind_run _ _ _ _ _ (crud_comment_update_run _ _ _)).
    reflexivity.
  - unfold approve_reply, catch.
    rewrite (bind_run _ _ _ _ _ (approve_run env id by_ st)).
    rewrite (find_update_first reply_id _ (replies st) id id)
      by reflexivity.
    rewrite F. cbn [option_map].
    rewrite (update_first_none _ _ _ F).
    unfold ret, set_replies. rewrite state_eta. reflexivity.
Qed.

Lemma reject_reply_run env id st :
  match reply_at st id with
  | None => reject_reply env id st = (Ok false, st)
  | Some r =>
      reject_reply env id st
      = (Ok true,
         set_analytics
           (analytics st
            ++ [{| m_date := utcnow env (List.length (trace st));
                   m_platform := "system";
                   metric_type := "reply_rejected" |}])
           (set_replies
              (update_first (fun x => Nat.eqb (reply_id x) id)
                            set_rejected (replies st))
              (next_reply_id st) st))
  end.
Proof.
  unfold reply_at.
  destruct (find (fun r => Nat.eqb (reply_id r) id) (replies st))
    as [r |] eqn:F.
  - unfold reject_reply, catch, crud_reply_reject.
    rewrite (bind_run _ _ _ _ _ (crud_reply_update_run _ _ _)).
    rewrite (find_update_first reply_id _ (replies st) id id)
      by reflexivity.
    rewrite F. cbn [option_map]. reflexivity.
  - unfold reject_reply, catch, crud_reply_reject.
    rewrite (bind_run _ _ _ _ _ (crud_reply_update_run _ _ _)).
    rewrite (find_update_first reply_id _ (replies st) id id)
      by reflexivity.
    rewrite F. cbn [option_map].
    rewrite (update_first_none _ _ _ F).
    unfold ret, set_replies. rewrite state_eta. reflexivity.
Qed.

(** X3.  Approving or rejecting a reply that does not exist reports failure
    and leaves the repository, its analytics included, as it was. *)
Theorem approval_of_unknown_reply :
  forall (env : Env) (id : nat) (by_ : string) (st : State),
    reply_at st id = None ->
    approve_reply env id by_ st = (Ok false, st)
    /\ reject_reply env id st = (Ok false, st).
Proof.
  intros env id by_ st H.
  pose proof (approve_reply_run env id by_ st) as A.
  pose proof (reject_reply_run env id st) as B.
  rewrite H in A, B. split; assumption.
Qed.

Lemma approval_of_unknown_reply_sample :
  approve_reply sample_env 7 "manual" (backlog 2) = (Ok false, backlog 2)
  /\ reject_reply sample_env 7 (backlog 2) = (Ok false, backlog 2).
Proof. apply (approval_of_unknown_reply sample_env 7%nat). reflexivity. Defined.

(** X4.  [approve_reply] does not look at the status of the reply: whatever
    it was (pending, rejected, auto_approved, posted), the reply ends
    "approved" with the approver and the time recorded and its other columns
    kept, one "reply_approved" metric is recorded, and nothing is sent to a
    platform. *)
Theorem approve_reply_overrides_status :
  forall (env : Env) (id : nat) (by_ : string) (st : State) (r : Reply),
    reply_at st id = Some r ->
    let st' := snd (approve_reply env id by_ st) in
    fst (approve_reply env id by_ st) = Ok true
    /\ reply_at st' id
       = Some (set_approved (utcnow env (List.length (trace st))) by_ r)
    /\ option_map status (reply_at st' id) = Some "approved"
    /\ option_map posted_at (reply_at st' id) = Some (posted_at r)
    /\ option_map platform_reply_id (reply_at st' id)
       = Some (platform_reply_id r)
    /\ List.length (analytics st') = S (List.length (analytics st))
    /\ trace st' = trace st.
Proof.
  intros env id by_ st r H st'.
  pose proof (approve_reply_run env id by_ st) as A.
  rewrite H in A. cbv zeta in A. subst st'. rewrite A. cbn [fst snd].
  assert (E : reply_at
                (set_analytics
                   (analytics st ++
                    [{| m_date := utcnow env (List.length (trace st));
                        m_platform := "system";
                        metric_type := "reply_approved" |}])
                   (set_comments
                      (update_first
                         (fun c => Nat.eqb (comment_id c) (r_comment_id r))
                         (set_has_reply true) (comments st))
                      (next_comment_id st)
                      (set_replies
                         (update_first (fun x => Nat.eqb (reply_id x) id)
                            (set_approved
                               (utcnow env (List.length (trace st))) by_)
                            (replies st))
                         (next_reply_id st) st))) id
              = Some (set_approved (utcnow env (List.length (trace st)))
                                   by_ r)).
  { unfold reply_at. cbn [replies set_analytics set_comments set_replies].
    rewrite (find_update_first reply_id _ (replies st) id id)
      by reflexivity.
    unfold reply_at in H. rewrite H. cbn [option_map].
    rewrite Nat.eqb_refl. reflexivity. }
  rewrite E. cbn [option_map].
  repeat split.
  cbn [analytics set_analytics]. rewrite length_app. simpl. lia.
Qed.

Lemma approve_reply_overrides_status_posted :
  option_map status (reply_at swept_backlog 1) = Some "posted"
  /\ option_map status
       (reply_at (snd (approve_reply sample_env 1 "manual" swept_backlog)) 1)
     = Some "approved".
Proof.
  split; [reflexivity |].
  exact (proj1 (proj2 (proj2
           (approve_reply_overrides_status sample_env 1%nat "manual"
              swept_backlog posted_reply eq_refl)))).
Defined.

(** ** Rows with distinct keys *)

Lemma update_first_hit {A} (key : A -> nat) f (l : list A) k c :
  NoDup (map key l) ->
  (forall x, key (f x) = key x) ->
  In c (update_first (fun x => Nat.eqb (key x) k) f l) ->
  key c = k ->
  exists x, In x l /\ key x = k /\ c = f x.
Proof.
  intros Hn Hf. induction l as [| x l IH]; simpl; [tauto |].
  inversion Hn as [| ? ? Hx Hl]; subst.
  destruct (Nat.eqb (key x) k) eqn:E.
  - apply Nat.eqb_eq in E. intros [<- | Hc] Hk.
    + exists x. auto.
    + exfalso. apply Hx. rewrite E, <- Hk. apply in_map. exact Hc.
  - apply Nat.eqb_neq in E. intros [<- | Hc] Hk; [congruence |].
    destruct (IH Hl Hc Hk) as (y & Hy & Ky & ->).
    exists y. auto.
Qed.

Lemma rows_comment_get_pending limit st :
  rows (crud_comment_get_pending limit) st
  = firstn limit (rev (filter (fun c => negb (has_reply c)) (comments st))).
Proof. reflexivity. Qed.

Lemma rows_reply_get_pending limit st :
  rows (crud_reply_get_pending limit) st
  = firstn limit (rev (filter is_pending (replies st))).
Proof. reflexivity. Qed.

(** X5.  Approving a reply and then rejecting it leaves the reply "rejected"
    and the comment flagged as replied: the comment is in neither work list
    any more, not among the comments without a reply and not among the
    pending replies. *)
Theorem approve_then_reject_hides_comment :
  forall (cfg : Settings) (env : Env) (id : nat) (by_ : string)
         (st : State) (r : Reply) (cm : Comment),
    comments_wf st -> replies_wf st ->
    reply_at st id = Some r ->
    find (fun c => Nat.eqb (comment_id c) (r_comment_id r)) (comments st)
    = Some cm ->
    let st' := run cfg env [OpApprove id by_; OpReject id] st in
    option_map status (reply_at st' id) = Some "rejected"
    /\ has_reply_at st' (r_comment_id r) = true
    /\ (forall limit c,
          In c (rows (crud_comment_get_pending limit) st') ->
          comment_id c <> r_comment_id r)
    /\ (forall limit x,
          In x (rows (crud_reply_get_pending limit) st') ->
          reply_id x <> id).
Proof.
  intros cfg env id by_ st r cm (Hc & _ & _) Hr Hrep Hcm st'.
  pose proof (approve_reply_run env id by_ st) as A.
  rewrite Hrep in A. cbv zeta in A.
  set (t := utcnow env (List.length (trace st))) in *.
  set (st1 := snd (approve_reply env id by_ st)).
  assert (R1 : replies st1
               = update_first (fun x => Nat.eqb (reply_id x) id)
                   (set_approved t by_) (replies st))
    by (unfold st1; rewrite A; reflexivity).
  assert (C1 : comments st1
               = update_first
                   (fun c => Nat.eqb (comment_id c) (r_comment_id r))
                   (set_has_reply true) (comments st))
    by (unfold st1; rewrite A; reflexivity).
  assert (F1 : reply_at st1 id = Some (set_approved t by_ r)).
  { unfold reply_at. rewrite R1.
    rewrite (find_update_first reply_id _ (replies st) id id)
      by reflexivity.
    unfold reply_at in Hrep. rewrite Hrep. simpl.
    rewrite Nat.eqb_refl. reflexivity. }
  pose proof (reject_reply_run env id st1) as B. rewrite F1 in B.
  assert (E' : st' = snd (reject_reply env id st1)) by reflexivity.
  assert (R2 : replies st'
               = update_first (fun x => Nat.eqb (reply_id x) id)
                   (fun x => set_rejected (set_approved t by_ x))
                   (replies st)).
  { rewrite E', B. cbn [snd replies set_analytics set_replies].
    rewrite R1. apply update_first_twice. reflexivity. }
  assert (C2 : comments st' = comments st1)
    by (rewrite E', B; reflexivity).
  split; [| split; [| split]].
  - unfold reply_at. rewrite R2.
    rewrite (find_update_first reply_id _ (replies st) id id)
      by reflexivity.
    unfold reply_at in Hrep. rewrite Hrep. simpl.
    rewrite Nat.eqb_refl. reflexivity.
  - unfold has_reply_at. rewrite C2, C1.
    rewrite (find_update_first comment_id (set_has_reply true)
               (comments st) (r_comment_id r) (r_comment_id r))
      by reflexivity.
    rewrite Hcm. simpl. rewrite Nat.eqb_refl. reflexivity.
  - intros limit c Hin Hid. rewrite rows_comment_get_pending in Hin.
    apply In_firstn in Hin. apply in_rev in Hin.
    apply filter_In in Hin. destruct Hin as [Hin Hflag].
    rewrite C2, C1 in Hin.
    destruct (update_first_hit comment_id (set_has_reply true)
                (comments st) (r_comment_id r) c Hc
                (fun _ => eq_refl) Hin Hid) as (x & _ & _ & ->).
    discriminate.
  - intros limit x Hin Hid. rewrite rows_reply_get_pending in Hin.
    apply In_firstn in Hin. apply in_rev in Hin.
    apply filter_In in Hin. destruct Hin as [Hin Hp].
    rewrite R2 in Hin.
    destruct (update_first_hit reply_id
                (fun x => set_rejected (set_approved t by_ x))
                (replies st) id x Hr (fun _ => eq_refl) Hin Hid)
      as (y & _ & _ & ->).
    discriminate.
Qed.

Lemma backlog_comments_wf n : comments_wf (backlog n).
Proof.
  unfold comments_wf. simpl. repeat split.
  - constructor; [simpl; tauto | constructor].
  - constructor; [simpl; lia | constructor].
  - constructor; [simpl; tauto | constructor].
Qed.

Lemma backlog_replies_wf n : replies_wf (backlog n).
Proof.
  unfold replies_wf. simpl. rewrite map_map. simpl. rewrite map_id.
  apply seq_NoDup.
Qed.

Lemma approve_then_reject_hides_comment_sample :
  option_map status
    (reply_at (run default_settings sample_env
                   [OpApprove 1 "manual"; OpReject 1] (backlog 1)) 1)
  = Some "rejected"
  /\ has_reply_at (run default_settings sample_env
                       [OpApprove 1 "manual"; OpReject 1] (backlog 1)) 1
     = true.
Proof.
  pose proof (approve_then_reject_hides_comment default_settings sample_env
                1%nat "manual" (backlog 1) (pending_reply 1)
                (sample_comment_row 1) (backlog_comments_wf 1)
                (backlog_replies_wf 1) eq_refl eq_refl) as H.
  cbv zeta in H. destruct H as (H1 & H2 & _). split; assumption.
Defined.

(** ** The settings store as a map *)

Lemma find_update_first_key f (l : list Setting) (a b : string) :
  (forall x, s_key (f x) = s_key x) ->
  find (fun x => String.eqb (s_key x) b)
       (update_first (fun x => String.eqb (s_key x) a) f l)
  = option_map (fun x => if String.eqb a b then f x else x)
               (find (fun x => String.eqb (s_key x) b) l).
Proof.
  intro Hf. induction l as [| x l IH]; simpl; [reflexivity |].
  destruct (String.eqb (s_key x) a) eqn:Ea; simpl.
  - rewrite Hf. destruct (String.eqb (s_key x) b) eqn:Eb; simpl.
    + apply String.eqb_eq in Ea, Eb. subst a b.
      rewrite String.eqb_refl. reflexivity.
    + destruct (find _ l) as [y |]; simpl; [| reflexivity].
      destruct (String.eqb a b) eqn:Eab; [| reflexivity].
      apply String.eqb_eq in Ea, Eab. subst. rewrite String.eqb_refl in Eb.
      discriminate.
  - destruct (String.eqb (s_key x) b) eqn:Eb; simpl.
    + destruct (String.eqb a b) eqn:Eab; [| reflexivity].
      apply String.eqb_eq in Eb, Eab. subst.
      rewrite String.eqb_refl in Ea. discriminate.
    + exact IH.
Qed.

Lemma find_app_key (l : list Setting) k v k' :
  find (fun x => String.eqb (s_key x) k')
       (l ++ [{| s_key := k; s_value := v |}])
  = match find (fun x => String.eqb (s_key x) k') l with
    | Some x => Some x
    | None => if String.eqb k k' then Some {| s_key := k; s_value := v |}
              else None
    end.
Proof.
  induction l as [| x l IH]; simpl; [reflexivity |].
  destruct (String.eqb (s_key x) k'); [reflexivity | exact IH].
Qed.

Lemma set_value_rows key value st :
  crud_settings_set_value key value st
  = (Ok tt,
     set_settings_rows
       (match find (fun s => String.eqb (s_key s) key) (settings_rows st) with
        | Some _ =>
            update_first (fun s' => String.eqb (s_key s') key)
              (fun s' => {| s_key := s_key s'; s_value := Some value |})
              (settings_rows st)
        | None =>
            settings_rows st ++ [{| s_key := key; s_value := Some value |}]
        end) st).
Proof.
  unfold crud_settings_set_value, bind, crud_settings_get_by_key.
  destruct (find _ (settings_rows st)); reflexivity.
Qed.

Lemma value_after_set key value st key' :
  option_map s_value
    (find (fun s => String.eqb (s_key s) key')
          (settings_rows (snd (crud_settings_set_value key value st))))
  = if String.eqb key key' then Some (Some value)
    else option_map s_value
           (find (fun s => String.eqb (s_key s) key') (settings_rows st)).
Proof.
  rewrite set_value_rows. cbn [snd settings_rows set_settings_rows].
  destruct (find (fun s => String.eqb (s_key s) key) (settings_rows st))
    as [s |] eqn:F.
  - rewrite find_update_first_key by reflexivity.
    destruct (String.eqb key key') eqn:E.
    + apply String.eqb_eq in E. subst key'. rewrite F. reflexivity.
    + destruct (find (fun x => String.eqb (s_key x) key')
                     (settings_rows st)); reflexivity.
  - rewrite find_app_key.
    destruct (String.eqb key key') eqn:E.
    + apply String.eqb_eq in E. subst key'. rewrite F. reflexivity.
    + destruct (find (fun x => String.eqb (s_key x) key')
                     (settings_rows st)); reflexivity.
Qed.

Lemma get_value_find key default st :
  crud_settings_get_value key default st
  = (Ok (match option_map s_value
                 (find (fun s => String.eqb (s_key s) key) (settings_rows st))
         with
         | Some v => v
         | None => default
         end), st).
Proof.
  unfold crud_settings_get_value, bind, crud_settings_get_by_key, ret.
  destruct (find _ (settings_rows st)); reflexivity.
Qed.

(** X1.  The settings store is a map from keys to values: after [set_value]
    [get_value] returns the value written, whatever the default; the other
    keys read as before; distinct keys stay distinct; and the other tables
    are not touched. *)
Theorem settings_set_then_get :
  forall (key value : string) (st : State),
    let st' := snd (crud_settings_set_value key value st) in
    (forall default,
       crud_settings_get_value key default st' = (Ok (Some value), st'))
    /\ (forall key' default,
          key' <> key ->
          fst (crud_settings_get_value key' default st')
          = fst (crud_settings_get_value key' default st))
    /\ (NoDup (map s_key (settings_rows st)) ->
        NoDup (map s_key (settings_rows st')))
    /\ posts st' = posts st /\ comments st' = comments st
    /\ replies st' = replies st /\ analytics st' = analytics st
    /\ trace st' = trace st.
Proof.
  intros key value st st'. split; [| split; [| split]].
  - intro default. rewrite get_value_find. unfold st'.
    rewrite value_after_set, String.eqb_refl. reflexivity.
  - intros key' default Hne. rewrite !get_value_find. unfold st'.
    rewrite value_after_set.
    destruct (String.eqb key key') eqn:E; [| reflexivity].
    apply String.eqb_eq in E. congruence.
  - intro Hn. unfold st'. rewrite set_value_rows.
    cbn [snd settings_rows set_settings_rows].
    destruct (find (fun s => String.eqb (s_key s) key) (settings_rows st))
      as [s |] eqn:F.
    + rewrite update_first_map; [exact Hn | reflexivity].
    + rewrite map_app. simpl. apply NoDup_app_last; [exact Hn |].
      intro H. apply in_map_iff in H. destruct H as (x & E & Hx).
      apply (find_none _ _ F) in Hx. rewrite E, String.eqb_refl in Hx.
      discriminate.
  - unfold st'. rewrite set_value_rows. repeat split.
Qed.

Lemma settings_set_then_get_sample :
  fst (crud_settings_get_value "owner_active" None
         (snd (crud_settings_set_value "reply_tone" "warm"
                 owner_active_state)))
  = Ok (Some "true").
Proof.
  rewrite (proj1 (proj2
             (settings_set_then_get "reply_tone" "warm" owner_active_state))
             "owner_active" None).
  - reflexivity.
  - discriminate.
Defined.

(** X2.  The operator's switch reads back as it was set, from any state of
    the settings table. *)
Theorem owner_switch_round_trip :
  forall (active : bool) (st : State),
    crud_settings_get_owner_active
      (snd (crud_settings_set_owner_active active st))
    = (Ok active, snd (crud_settings_set_owner_active active st)).
Proof.
  intros active st.
  unfold crud_settings_get_owner_active, crud_settings_set_owner_active.
  rewrite (bind_run _ _ _ _ _
             (get_value_find "owner_active" (Some "false") _)).
  rewrite value_after_set, String.eqb_refl.
  destruct active; reflexivity.
Qed.

(** ** Loops over the pipeline and over approval *)

Lemma approve_reply_effect env id by_ st :
  trace (snd (approve_reply env id by_ st)) = trace st
  /\ fst (approve_reply env id by_ st) = Ok (present (reply_at st id))
  /\ forall id',
       reply_at (snd (approve_reply env id by_ st)) id'
       = option_map
           (fun x => if Nat.eqb id id'
                     then set_approved (utcnow env (List.length (trace st)))
                                       by_ x
                     else x)
           (reply_at st id').
Proof.
  pose proof (approve_reply_run env id by_ st) as A.
  destruct (reply_at st id) as [r |] eqn:F.
  - cbv zeta in A. rewrite A. cbn [fst snd]. repeat split.
    intro id'. unfold reply_at at 1.
    cbn [replies set_analytics set_comments].
    apply (reply_at_update st id). reflexivity.
  - rewrite A. cbn [fst snd]. repeat split.
    intro id'. destruct (Nat.eqb id id') eqn:E.
    + apply Nat.eqb_eq in E. subst id'. rewrite F. reflexivity.
    + destruct (reply_at st id'); reflexivity.
Qed.

Lemma bulk_approve_from_run env ids :
  forall acc st,
    exists st',
      bulk_approve_from env acc ids st
      = (Ok {| ba_approved :=
                 ba_approved acc
                 + List.length
                     (filter (fun id => present (reply_at st id)) ids);
               ba_failed :=
                 ba_failed acc
                 + List.length
                     (filter (fun id => negb (present (reply_at st id)))
                             ids) |},
         st')
      /\ trace st' = trace st
      /\ forall id',
           reply_at st' id'
           = option_map
               (fun x => if existsb (Nat.eqb id') ids
                         then set_approved
                                (utcnow env (List.length (trace st)))
                                "bulk_manual" x
                         else x)
               (reply_at st id').
Proof.
  induction ids as [| id ids IH]; intros acc st.
  - exists st. simpl. rewrite !Nat.add_0_r. destruct acc. simpl.
    repeat split. intro id'. destruct (reply_at st id'); reflexivity.
  - destruct (approve_reply_effect env id "bulk_manual" st)
      as (Ht & Hb & Hr).
    destruct (approve_reply env id "bulk_manual" st) as [res st1] eqn:E.
    cbn [fst snd] in Ht, Hb, Hr. subst res.
    assert (Hp : forall x, present (reply_at st1 x) = present (reply_at st x)).
    { intro x. rewrite Hr. destruct (reply_at st x); reflexivity. }
    cbn [bulk_approve_from]. rewrite (bind_run _ _ _ _ _ E).
    match goal with
    | |- context [bulk_approve_from env ?a ids st1] =>
        destruct (IH a st1) as (st' & Hrun & Ht' & Hr')
    end.
    exists st'. rewrite Hrun. split; [| split].
    + rewrite (filter_ext _ (fun id => present (reply_at st id)) Hp).
      rewrite (filter_ext (fun id => negb (present (reply_at st1 id)))
                 (fun id => negb (present (reply_at st id))))
        by (intro x; rewrite Hp; reflexivity).
      cbn [filter].
      destruct (present (reply_at st id)); simpl;
        f_equal; f_equal; f_equal; lia.
    + congruence.
    + intro id'. rewrite Hr', Hr, Ht. cbn [existsb].
      rewrite (Nat.eqb_sym id' id).
      destruct (reply_at st id') as [x |]; [| reflexivity].
      cbn [option_map].
      destruct (Nat.eqb id id'), (existsb (Nat.eqb id') ids); reflexivity.
Qed.

(** X6.  [bulk_approve_replies] counts as approved the listed ids that have
    a reply row and as failed the others, both with repetitions; every
    listed reply ends approved by "bulk_manual", the replies not listed are
    as before, and nothing is sent to a platform. *)
Theorem bulk_approve_replies_counts :
  forall (env : Env) (reply_ids : list nat) (st : State),
    let st' := snd (bulk_approve_replies env reply_ids st) in
    fst (bulk_approve_replies env reply_ids st)
    = Ok {| ba_approved :=
              List.length
                (filter (fun id => present (reply_at st id)) reply_ids);
            ba_failed :=
              List.length
                (filter (fun id => negb (present (reply_at st id)))
                        reply_ids) |}
    /\ (forall id r,
          In id reply_ids -> reply_at st id = Some r ->
          reply_at st' id
          = Some (set_approved (utcnow env (List.length (trace st)))
                               "bulk_manual" r))
    /\ (forall id, ~ In id reply_ids -> reply_at st' id = reply_at st id)
    /\ trace st' = trace st.
Proof.
  intros env ids st st'.
  destruct (bulk_approve_from_run env ids
              {| ba_approved := 0; ba_failed := 0 |} st)
    as (s & Hrun & Ht & Hr).
  unfold st', bulk_approve_replies. rewrite Hrun. cbn [fst snd].
  split; [reflexivity |]. split; [| split].
  - intros id r Hin Hid. rewrite Hr, Hid. cbn [option_map].
    assert (E : existsb (Nat.eqb id) ids = true).
    { apply existsb_exists. exists id. split; [exact Hin |].
      apply Nat.eqb_refl. }
    rewrite E. reflexivity.
  - intros id Hn. rewrite Hr.
    assert (E : existsb (Nat.eqb id) ids = false).
    { destruct (existsb (Nat.eqb id) ids) eqn:E; [| reflexivity].
      apply existsb_exists in E. destruct E as (x & Hx & Ex).
      apply Nat.eqb_eq in Ex. subst x. contradiction. }
    rewrite E. destruct (reply_at st id); reflexivity.
  - exact Ht.
Qed.

Lemma bulk_approve_replies_counts_sample :
  fst (bulk_approve_replies sample_env [2%nat; 9%nat; 2%nat] (backlog 3))
  = Ok {| ba_approved := 2; ba_failed := 1 |}
  /\ option_map approved_by
       (reply_at (snd (bulk_approve_replies sample_env
                         [2%nat; 9%nat; 2%nat] (backlog 3)))
                 2)
     = Some (Some "bulk_manual").
Proof.
  split.
  - rewrite (proj1 (bulk_approve_replies_counts sample_env [2%nat; 9%nat; 2%nat]
                      (backlog 3))).
    reflexivity.
  - rewrite (proj1 (proj2 (bulk_approve_replies_counts sample_env
                             [2%nat; 9%nat; 2%nat] (backlog 3)))
               2%nat (pending_reply 2)).
    + reflexivity.
    + simpl. auto.
    + reflexivity.
Defined.

Lemma process_batch_step_run cfg env acc comment st :
  exists result,
    process_comment cfg env comment st
    = (Ok result, snd (process_comment cfg env comment st))
    /\ process_batch_step cfg env acc comment st
       = (Ok {| b_processed :=
                  match result with
                  | ProcessOk _ _ _ _ _ => S (b_processed acc)
                  | ProcessFailed _ _ => b_processed acc
                  end;
                b_failed :=
                  match result with
                  | ProcessOk _ _ _ _ _ => b_failed acc
                  | ProcessFailed _ _ => S (b_failed acc)
                  end;
                b_auto_approved :=
                  match result with
                  | ProcessOk _ _ _ _ true => S (b_auto_approved acc)
                  | _ => b_auto_approved acc
                  end;
                b_results := b_results acc ++ [BatchResult result] |},
          snd (process_comment cfg env comment st)).
Proof.
  destruct (process_comment_returns cfg env comment st) as (r & st1 & E).
  exists r. rewrite E. split; [reflexivity |].
  unfold process_batch_step, catch. rewrite (bind_run _ _ _ _ _ E).
  destruct r as [c ty s rp [|] | e k]; reflexivity.
Qed.

Lemma process_batch_from_run cfg env comments :
  forall acc st,
    exists res st',
      process_batch_from cfg env acc comments st = (Ok res, st')
      /\ (b_processed res + b_failed res
          = b_processed acc + b_failed acc + List.length comments)%nat
      /\ (List.length (b_results res)
          = List.length (b_results acc) + List.length comments)%nat
      /\ (b_processed acc <= b_processed res)%nat
      /\ (b_auto_approved res + b_processed acc
          <= b_auto_approved acc + b_processed res)%nat
      /\ (List.length (analytics st')
          = List.length (analytics st) + List.length comments)%nat
      /\ (only_results (b_results acc) -> only_results (b_results res)).
Proof.
  induction comments as [| c comments IH]; intros acc st.
  - exists acc, st. simpl. repeat split; try lia. auto.
  - destruct (process_batch_step_run cfg env acc c st) as (r & _ & E).
    cbn [process_batch_from]. rewrite (bind_run _ _ _ _ _ E).
    match goal with
    | |- context [process_batch_from cfg env ?a comments ?s] =>
        destruct (IH a s) as (res & st' & Hrun & H1 & H2 & H3 & H4 & H5 & H6)
    end.
    exists res, st'. rewrite Hrun.
    rewrite process_comment_records_metric in H5.
    cbn [b_processed b_failed b_auto_approved b_results] in *.
    rewrite length_app in H2. simpl in H2. simpl List.length.
    split; [reflexivity |].
    repeat split.
    + destruct r; lia.
    + lia.
    + destruct r; lia.
    + destruct r as [? ? ? ? [|] | ? ?]; lia.
    + lia.
    + intro Ho. apply H6. intros e He. apply in_app_or in He.
      destruct He as [He | [<- | []]]; [auto | eauto].
Qed.

(** X7.  [process_batch] never raises and accounts for every comment: each
    one is counted as processed or as failed, has one entry in the results,
    in order, and one analytics row; the entries are the dicts
    [process_comment] returned, the [except] branch of the loop never being
    taken; and no more comments are counted as auto-approved than as
    processed. *)
Theorem process_batch_accounts :
  forall (cfg : Settings) (env : Env) (comments : list CommentData)
         (st : State),
    exists res st',
      process_batch cfg env comments st = (Ok res, st')
      /\ (b_processed res + b_failed res = List.length comments)%nat
      /\ List.length (b_results res) = List.length comments
      /\ (b_auto_approved res <= b_processed res)%nat
      /\ (List.length (analytics st')
          = List.length (analytics st) + List.length comments)%nat
      /\ only_results (b_results res).
Proof.
  intros cfg env comments st.
  destruct (process_batch_from_run cfg env comments
              {| b_processed := 0; b_failed := 0; b_auto_approved := 0;
                 b_results := [] |} st)
    as (res & st' & Hrun & H1 & H2 & H3 & H4 & H5 & H6).
  exists res, st'. simpl in *. repeat split; try assumption; try lia.
  apply H6. intros e [].
Qed.

Lemma ok_related (R : State -> State -> Prop) {A} (m : M A) s r s' :
  preserves R m -> m s = (r, s') -> R s s'.
Proof. intros H E. specialize (H s). rewrite E in H. exact H. Qed.

Lemma replies_same_refl st : replies_same st st.
Proof. split; reflexivity. Qed.

Lemma replies_same_trans a b c :
  replies_same a b -> replies_same b c -> replies_same a c.
Proof. intros [H1 H2] [H3 H4]. split; congruence. Qed.

Lemma replies_same_upsert cd :
  preserves replies_same (crud_comment_create_or_update cd).
Proof.
  intro st.
  destruct (upsert_cases cd st)
    as [-> | [(p & k & e & _ & _ & F & ->) | (p & k & _ & _ & F & ->)]];
    split; reflexivity.
Qed.

Lemma replies_same_comment_update id f :
  preserves replies_same (crud_comment_update id f).
Proof. intro st. rewrite crud_comment_update_run. split; reflexivity. Qed.

Lemma replies_same_classify env text platform :
  preserves replies_same (classify_comment env text platform).
Proof.
  apply preserves_classify.
  - exact replies_same_refl.
  - exact replies_same_trans.
  - intros. split; reflexivity.
Qed.

Lemma replies_same_generate cfg env text ty platform ctx author :
  preserves replies_same (generate_reply cfg env text ty platform ctx author).
Proof.
  apply preserves_generate.
  - exact replies_same_refl.
  - exact replies_same_trans.
  - intros. split; reflexivity.
Qed.

Lemma replies_same_sentiment env text :
  preserves replies_same (analyze_sentiment env text).
Proof.
  apply preserves_sentiment.
  - exact replies_same_refl.
  - exact replies_same_trans.
  - intros. split; reflexivity.
Qed.

Lemma replies_same_reads {A} (m : M A) : reads m -> preserves replies_same m.
Proof. intros H st. rewrite H. apply replies_same_refl. Qed.

Lemma replies_same_record_metric env platform metric :
  preserves replies_same (crud_analytics_record_metric env platform metric).
Proof. intro st. split; reflexivity. Qed.

Lemma replies_same_metadata_check (md : option Metadata) :
  preserves replies_same
    (match md with
     | Some MdOther => raise (TypeError "'metadata' is not a mapping")
     | _ => ret tt
     end).
Proof. destruct md as [[] |]; intro st; apply replies_same_refl. Qed.

Lemma replies_same_ghl_step (c : Comment) (t : Triggers) :
  preserves replies_same
    (match workflows t with
     | [] => ret tt
     | _ :: _ => _process_ghl_actions c t
     end).
Proof. destruct (workflows t); intro st; split; reflexivity. Qed.

Lemma replies_same_posted_step (needs : bool) :
  preserves replies_same
    (if needs then ret false
     else owner_active <- crud_settings_get_owner_active ;;
          ret (negb owner_active)).
Proof.
  apply replies_same_reads. destruct needs; [apply reads_ret |].
  apply reads_bind; [apply reads_get_owner_active |].
  intro a. apply reads_ret.
Qed.

(** A successful pipeline run appended exactly one reply row, the one its
    result describes. *)
Lemma process_comment_ok_reply cfg env cd st c ty s reply ap st' :
  process_comment cfg env cd st = (Ok (ProcessOk c ty s reply ap), st') ->
  exists r,
    replies st' = (replies st ++ [r])%list
    /\ next_reply_id st' = S (next_reply_id st)
    /\ reply_id r = next_reply_id st
    /\ ri_id reply = reply_id r
    /\ r_comment_id r = c
    /\ status r = ri_status reply
    /\ r_content r = ri_content reply.
Proof.
  unfold process_comment, catch.
  destruct (process_comment_body cfg env cd st) as [[r | e] s0] eqn:E.
  - intro H. injection H as -> ->.
    unfold process_comment_body in E.
    bind_inv E.
    apply (ok_related replies_same _ _ _ _
             (replies_same_reads _ (reads_subscript _ _ _))) in E0, E1, E9.
    apply (ok_related replies_same _ _ _ _
             (replies_same_reads _ (reads_attribute _ _ _))) in E8.
    apply (ok_related replies_same _ _ _ _
             (replies_same_reads _ (reads_post_context_of _))) in E2.
    apply (ok_related replies_same _ _ _ _
             (replies_same_classify _ _ _)) in E3.
    apply (ok_related replies_same _ _ _ _
             (replies_same_metadata_check _)) in E4.
    apply (ok_related replies_same _ _ _ _ (replies_same_upsert _)) in E5.
    apply (ok_related replies_same _ _ _ _
             (replies_same_generate _ _ _ _ _ _ _)) in E6.
    apply (ok_related replies_same _ _ _ _
             (replies_same_sentiment _ _)) in E7.
    apply (ok_related replies_same _ _ _ _
             (replies_same_comment_update _ _)) in E10.
    apply (ok_related replies_same _ _ _ _
             (replies_same_ghl_step _ _)) in E12.
    apply (ok_related replies_same _ _ _ _
             (replies_same_posted_step _)) in E13.
    apply (ok_related replies_same _ _ _ _
             (replies_same_record_metric _ _ _)) in E14.
    assert (B : replies_same st s10)
      by (repeat (eapply replies_same_trans; [eassumption |]);
          apply replies_same_refl).
    assert (C : replies_same s11 s14)
      by (repeat (eapply replies_same_trans; [eassumption |]);
          apply replies_same_refl).
    match goal with
    | Hc : crud_reply_create ?cid ?content ?stat ?conf ?trig ?s1
           = (Ok ?r, _) |- _ =>
        destruct (crud_reply_create_run cid content stat conf trig s1)
          as (r' & Hr & Hid & Hcm & Hs & Hct & _);
        rewrite Hr in Hc; injection Hc as <- <-
    end.
    unfold ret in E. injection E as <- <- <- <- <- <-.
    destruct B as [B1 B2], C as [C1 C2].
    exists r'. cbn [ri_id ri_status ri_content].
    rewrite C1, C2. cbn [replies next_reply_id set_replies].
    rewrite B1, B2. repeat split; congruence.
  - unfold bind, crud_analytics_record_metric, bind, now, modify, ret.
    simpl. discriminate.
Qed.

Lemma rows_get_by_comment c st :
  rows (crud_reply_get_by_comment c) st
  = filter (fun r => Nat.eqb (r_comment_id r) c) (replies st).
Proof. reflexivity. Qed.

(** X8.  Every successful run of the pipeline adds exactly one reply to the
    replies of the comment it reports, the one described in its result,
    whatever replies the comment already has; the replies of the other
    comments are the same. *)
Theorem pipeline_adds_one_reply :
  forall (cfg : Settings) (env : Env) (cd : CommentData) (st : State)
         (c : nat) (ty s : string) (reply : ReplyInfo) (ap : bool),
    fst (process_comment cfg env cd st) = Ok (ProcessOk c ty s reply ap) ->
    let st' := snd (process_comment cfg env cd st) in
    List.length (rows (crud_reply_get_by_comment c) st')
    = S (List.length (rows (crud_reply_get_by_comment c) st))
    /\ (forall x, In x (rows (crud_reply_get_by_comment c) st) ->
                  In x (rows (crud_reply_get_by_comment c) st'))
    /\ (exists r, In r (rows (crud_reply_get_by_comment c) st')
                  /\ reply_id r = ri_id reply
                  /\ status r = ri_status reply
                  /\ r_content r = ri_content reply)
    /\ (forall c', c' <> c ->
          rows (crud_reply_get_by_comment c') st'
          = rows (crud_reply_get_by_comment c') st).
Proof.
  intros cfg env cd st c ty s reply ap H st'.
  destruct (process_comment cfg env cd st) as [res s1] eqn:E.
  cbn [fst] in H. subst res. subst st'. cbn [snd].
  destruct (process_comment_ok_reply _ _ _ _ _ _ _ _ _ _ E)
    as (r & Hr & _ & Hid & Hri & Hc & Hs & Hct).
  rewrite !rows_get_by_comment. rewrite Hr, filter_app. cbn [filter].
  rewrite Hc, Nat.eqb_refl. split; [| split; [| split]].
  - rewrite length_app. simpl. lia.
  - intros x Hx. apply in_or_app. left. exact Hx.
  - exists r. repeat split; try congruence.
    apply in_or_app. right. left. reflexivity.
  - intros c' Hne. rewrite rows_get_by_comment, Hr, filter_app.
    cbn [filter]. rewrite Hc.
    destruct (Nat.eqb c c') eqn:Ec.
    + apply Nat.eqb_eq in Ec. congruence.
    + apply app_nil_r.
Qed.

Lemma pipeline_adds_one_reply_twice :
  List.length
    (rows (crud_reply_get_by_comment 1)
          (snd (process_comment default_settings sample_env
                  (sample_comment "c2" "thank you so much") once_processed)))
  = 2%nat.
Proof.
  rewrite (proj1 (pipeline_adds_one_reply default_settings sample_env
                    (sample_comment "c2" "thank you so much") once_processed
                    1%nat "praise" "positive"
                    {| ri_id := 2; ri_content := "Thanks for watching!";
                       ri_status := "auto_approved";
                       ri_confidence := Some (0.7 + 0.15)%Q |} true
                    eq_refl)).
  reflexivity.
Defined.

(** ** Replies the scheduler is done with *)

Lemma update_first_other {A} (p : A -> bool) f (l : list A) x :
  In x l -> p x = false -> In x (update_first p f l).
Proof.
  intros Hin Hp. induction l as [| y l IH]; simpl in *; [tauto |].
  destruct Hin as [-> | Hin].
  - rewrite Hp. left. reflexivity.
  - destruct (p y); right; auto.
Qed.

Lemma sweep_reply_kept cfg env r st :
  rows_kept_but [reply_id r] st (snd (sweep_reply cfg env r st)).
Proof.
  intros x Hx Hn.
  destruct (r_confidence r) as [c |] eqn:Hc.
  - destruct (sweep_reply_run cfg env r c st Hc)
      as (st' & E & _ & g & Hr & _).
    rewrite E. cbn [snd]. rewrite Hr.
    apply update_first_other; [exact Hx |].
    apply Nat.eqb_neq. intro Heq. apply Hn. left. symmetry. exact Heq.
  - unfold sweep_reply. rewrite Hc. exact Hx.
Qed.

Lemma sweep_loop_kept cfg env batch :
  forall st,
    rows_kept_but (map reply_id batch) st
      (snd (for_each batch (sweep_reply cfg env) st)).
Proof.
  induction batch as [| r batch IH]; intros st x Hx Hn.
  - exact Hx.
  - cbn [for_each]. unfold bind.
    pose proof (sweep_reply_kept cfg env r st x Hx) as H1.
    destruct (sweep_reply cfg env r st) as [[[] | e] s1]; cbn [snd] in *.
    + apply IH.
      * apply H1. intros [E | []]. apply Hn. left. exact E.
      * intro H. apply Hn. right. exact H.
    + apply H1. intros [E | []]. apply Hn. left. exact E.
Qed.

Lemma sweep_keeps_settled cfg env st x :
  replies_wf st -> In x (replies st) -> is_pending x = false ->
  In x (replies (snd (process_pending_replies cfg env st))).
Proof.
  intros Hwf Hx Hp. unfold process_pending_replies, bind.
  pose proof (get_owner_active_reads st) as Hr.
  destruct (crud_settings_get_owner_active st) as [[[|] | e] s1];
    cbn [snd] in Hr; subst s1; cbn [negb snd]; try exact Hx.
  unfold crud_reply_get_pending at 1. cbv beta iota.
  apply sweep_loop_kept; [exact Hx |].
  intro H. apply in_map_iff in H. destruct H as (y & E & Hy).
  apply In_firstn in Hy. apply in_rev in Hy. apply filter_In in Hy.
  destruct Hy as [Hy Hpy].
  assert (y = x)
    by (apply (NoDup_map_inj reply_id (replies st)); assumption).
  subst y. unfold is_pending in Hp. congruence.
Qed.

Lemma reply_rows_kept_refl st : reply_rows_kept st st.
Proof. intro H. split; auto. Qed.

Lemma reply_rows_kept_trans a b c :
  reply_rows_kept a b -> reply_rows_kept b c -> reply_rows_kept a c.
Proof.
  intros H1 H2 Ha. destruct (H1 Ha) as [Hb K1].
  destruct (H2 Hb) as [Hc K2]. split; auto.
Qed.

Lemma reply_rows_kept_same st st' :
  replies st' = replies st -> next_reply_id st' = next_reply_id st ->
  reply_rows_kept st st'.
Proof.
  intros H1 H2 Hok. split.
  - apply (replies_ok_kept_same st st' H1 H2 Hok).
  - rewrite H1. auto.
Qed.

Lemma reply_rows_kept_create c content stat conf trig :
  preserves reply_rows_kept (crud_reply_create c content stat conf trig).
Proof.
  intros st Hok. split.
  - apply (replies_ok_kept_create c content stat conf trig st Hok).
  - destruct (crud_reply_create_run c content stat conf trig st)
      as (r & -> & _). cbn [snd replies set_replies].
    intros x Hx. apply in_or_app. left. exact Hx.
Qed.

Lemma reply_rows_kept_upsert cd :
  preserves reply_rows_kept (crud_comment_create_or_update cd).
Proof.
  intro st.
  destruct (upsert_cases cd st)
    as [-> | [(p & k & e & _ & _ & F & ->) | (p & k & _ & _ & F & ->)]];
    apply reply_rows_kept_same; reflexivity.
Qed.

Lemma reply_rows_kept_process cfg env cd :
  preserves reply_rows_kept (process_comment cfg env cd).
Proof.
  apply (preserves_process_comment cfg env reply_rows_kept).
  - exact reply_rows_kept_refl.
  - exact reply_rows_kept_trans.
  - intros. apply reply_rows_kept_same; reflexivity.
  - intros. apply reply_rows_kept_same; reflexivity.
  - exact reply_rows_kept_upsert.
  - intros id s st. rewrite crud_comment_update_run.
    apply reply_rows_kept_same; reflexivity.
  - intros. apply reply_rows_kept_create.
Qed.

Lemma replies_ok_kept_post_reply env platform cd rd :
  preserves replies_ok_kept (_post_reply env platform cd rd).
Proof.
  apply (preserves_post_reply env replies_ok_kept);
    try exact replies_ok_kept_refl; try exact replies_ok_kept_trans;
    try exact (replies_ok_kept_mark_posted env); replies_untouched.
Qed.

Lemma post_reply_rows env platform cd rd st :
  exists g,
    replies (snd (_post_reply env platform cd rd st))
    = update_first (fun r => Nat.eqb (reply_id r) (ri_id rd)) g (replies st).
Proof.
  destruct (post_reply_cases env platform cd rd st)
    as (_ & [H | [(target & H) | (target & rid & H)]]).
  - exists (fun x => x). rewrite H, update_first_id. reflexivity.
  - exists (fun x => x). rewrite H, update_first_id. reflexivity.
  - destruct H as (_ & _ & H & _). eexists. exact H.
Qed.

Lemma reply_rows_kept_reads {A} (m : M A) :
  reads m -> preserves reply_rows_kept m.
Proof. intros H st. rewrite H. apply reply_rows_kept_refl. Qed.

Lemma fetch_comment_rows cfg env platform owner_active cd :
  preserves reply_rows_kept
    (fetch_comment cfg env platform owner_active cd).
Proof.
  unfold fetch_comment.
  apply (preserves_bind _ reply_rows_kept_trans);
    [apply reply_rows_kept_reads; auto with frame | intro cplatform].
  apply (preserves_bind _ reply_rows_kept_trans);
    [apply reply_rows_kept_reads; auto with frame | intro ref].
  apply (preserves_bind _ reply_rows_kept_trans);
    [apply reply_rows_kept_reads; auto with frame | intros [p |]];
    [| intro st; apply reply_rows_kept_refl].
  cbv zeta.
  apply (preserves_bind _ reply_rows_kept_trans);
    [apply reply_rows_kept_reads; auto with frame | intro pcid].
  apply (preserves_bind _ reply_rows_kept_trans);
    [apply reply_rows_kept_reads; auto with frame | intros [e |]];
    [intro st; apply reply_rows_kept_refl |].
  intros st Hok.
  pose proof (reply_rows_kept_process cfg env (set_cd_post_id (post_id p) cd)
                st) as K.
  destruct (process_comment cfg env (set_cd_post_id (post_id p) cd) st)
    as [[result | e] s1] eqn:E; cbn [snd] in K;
    destruct (K Hok) as [Hok1 K1];
    [rewrite !(bind_run _ _ _ _ _ E)
    | rewrite !(bind_raise _ _ _ _ _ E); cbn [snd]; split; assumption].
  unfold bind, notify_update, modify.
  destruct result as [c ty s reply ap | e k];
    [| split; [apply replies_ok_kept_same with s1; auto | exact K1]].
  destruct (negb owner_active && String.eqb (ri_status reply) "auto_approved");
    [| split; [apply replies_ok_kept_same with s1; auto | exact K1]].
  destruct (process_comment_ok_reply _ _ _ _ _ _ _ _ _ _ E)
    as (r & _ & _ & Hid & Hri & _).
  set (s2 := emit (Notify "new_comment") s1).
  split.
  - apply (replies_ok_kept_post_reply env platform _ reply s2).
    apply replies_ok_kept_same with s1; auto.
  - intros x Hx.
    destruct (post_reply_rows env platform
                (set_cd_post_id (post_id p) cd) reply s2) as (g & ->).
    apply update_first_other; [apply K1; exact Hx |].
    apply Nat.eqb_neq. destruct Hok as (_ & Hlt & _).
    rewrite Forall_forall in Hlt. specialize (Hlt x Hx). lia.
Qed.

Lemma reply_rows_kept_bind {A B} (m : M A) (f : A -> M B) :
  preserves reply_rows_kept m -> (forall a, preserves reply_rows_kept (f a)) ->
  preserves reply_rows_kept (bind m f).
Proof. apply (preserves_bind reply_rows_kept reply_rows_kept_trans). Qed.

Section Settled.

Variable cfg : Settings.
Variable env : Env.

Lemma fetch_platform_rows platform owner_active :
  preserves reply_rows_kept
    (_fetch_platform_data cfg env platform owner_active).
Proof.
  unfold _fetch_platform_data.
  apply reply_rows_kept_bind.
  { destruct (mem platform PLATFORMS).
    - intro st. apply reply_rows_kept_same; reflexivity.
    - intro st. apply reply_rows_kept_refl. }
  intro new_posts. apply reply_rows_kept_bind.
  { apply (preserves_fetch_comments_of env reply_rows_kept).
    - exact reply_rows_kept_refl.
    - exact reply_rows_kept_trans.
    - intros. apply reply_rows_kept_same; reflexivity. }
  intro new_comments. apply reply_rows_kept_bind.
  { apply (preserves_for_each reply_rows_kept reply_rows_kept_refl
             reply_rows_kept_trans).
    intro pd. apply reply_rows_kept_bind.
    - apply (preserves_post_create_or_update reply_rows_kept).
      + exact reply_rows_kept_refl.
      + exact reply_rows_kept_trans.
      + intros. apply reply_rows_kept_same; reflexivity.
    - intro a. apply reply_rows_kept_bind.
      + apply reply_rows_kept_reads. auto with frame.
      + intro. intro st. apply reply_rows_kept_refl. }
  intros _. apply reply_rows_kept_bind.
  { apply (preserves_for_each reply_rows_kept reply_rows_kept_refl
             reply_rows_kept_trans).
    intro cd. apply fetch_comment_rows. }
  intros _. apply reply_rows_kept_bind.
  { apply reply_rows_kept_reads. auto with frame. }
  intro t. intro st. apply reply_rows_kept_same; reflexivity.
Qed.

Lemma fetch_all_rows : preserves reply_rows_kept (fetch_all_comments cfg env).
Proof.
  unfold fetch_all_comments. apply reply_rows_kept_bind.
  { apply reply_rows_kept_reads. auto with frame. }
  intro owner_active.
  apply (preserves_for_each reply_rows_kept reply_rows_kept_refl
           reply_rows_kept_trans).
  intro platform. destruct (is_configured env platform).
  - apply (preserves_catch reply_rows_kept reply_rows_kept_trans).
    + apply fetch_platform_rows.
    + intros e st. apply reply_rows_kept_refl.
  - intro st. apply reply_rows_kept_refl.
Qed.

Lemma settled_kept_op op st x :
  is_manual op = false ->
  replies_ok st -> In x (replies st) -> is_pending x = false ->
  In x (replies (run_op cfg env op st)).
Proof.
  intros Hop Hok Hx Hp. destruct op; try discriminate; cbn [run_op].
  - apply (fetch_all_rows st Hok). exact Hx.
  - apply sweep_keeps_settled; [apply Hok | exact Hx | exact Hp].
  - apply (reply_rows_kept_process cfg env comment_data st Hok). exact Hx.
  - apply (preserves_set_owner_active reply_rows_kept
             reply_rows_kept_refl reply_rows_kept_trans) ; auto.
    intros. apply reply_rows_kept_same; reflexivity.
Qed.

End Settled.

(** X10.  A reply that is not pending is out of the scheduler's reach: the
    fetch cycle, the sweep, the pipeline and the operator's switch, in any
    number and order, leave its row exactly as it is.  So a reply left
    "approved" or "auto_approved" without having been posted (the owner was
    active, the adapter failed) is not posted by a later cycle. *)
Theorem scheduler_leaves_settled_replies :
  forall (cfg : Settings) (env : Env) (ops : list Op) (st : State)
         (x : Reply),
    replies_ok st ->
    forallb (fun op => negb (is_manual op)) ops = true ->
    In x (replies st) -> is_pending x = false ->
    In x (replies (run cfg env ops st)).
Proof.
  intros cfg env ops. induction ops as [| op ops IH]; intros st x Hok Hops Hx Hp.
  - exact Hx.
  - cbn [forallb] in Hops. apply andb_true_iff in Hops.
    destruct Hops as [H1 H2]. apply negb_true_iff in H1.
    cbn [run fold_left]. apply IH; try assumption.
    + apply (replies_ok_run cfg env [op] st Hok).
    + apply settled_kept_op; assumption.
Qed.

Lemma backlog_replies_ok n : replies_ok (backlog n).
Proof.
  unfold replies_ok. simpl. split; [| split].
  - rewrite map_map. simpl. rewrite map_id. apply seq_NoDup.
  - apply Forall_forall. intros x Hx. apply in_map_iff in Hx.
    destruct Hx as (k & <- & Hk). apply in_seq in Hk. simpl. lia.
  - apply Forall_forall. intros x Hx. apply in_map_iff in Hx.
    destruct Hx as (k & <- & Hk). discriminate.
Qed.

Lemma scheduler_leaves_settled_replies_sample :
  In (set_approved 1000 "manual" (pending_reply 1))
     (replies
        (run default_settings post_fails_env [OpSweep; OpFetch; OpSweep]
             (run default_settings post_fails_env [OpApprove 1 "manual"]
                  (backlog 1)))).
Proof.
  apply scheduler_leaves_settled_replies.
  - apply replies_ok_run. apply backlog_replies_ok.
  - reflexivity.
  - vm_compute. auto.
  - reflexivity.
Defined.


Lemma comment_at_self st c :
  comments_wf st -> In c (comments st) ->
  find (fun x => Nat.eqb (comment_id x) (comment_id c)) (comments st)
  = Some c.
Proof.
  intros (Hn & _ & _) Hin.
  destruct (find _ (comments st)) as [x |] eqn:F.
  - destruct (find_some _ _ F) as [Hx E]. apply Nat.eqb_eq in E.
    f_equal. apply (NoDup_map_inj comment_id (comments st)); assumption.
  - pose proof (find_none _ _ F c Hin) as H. simpl in H.
    rewrite Nat.eqb_refl in H. discriminate.
Qed.

Lemma has_reply_same_update id s :
  preserves has_reply_same (crud_comment_update id (set_sentiment s)).
Proof.
  intros st b. rewrite crud_comment_update_run. simpl.
  rewrite has_reply_at_update by reflexivity. unfold has_reply_at.
  destruct (find _ (comments st)); [| reflexivity].
  destruct (Nat.eqb id b); reflexivity.
Qed.

Lemma has_reply_same_op cfg env op st :
  is_approve op = false -> has_reply_same st (run_op cfg env op st).
Proof.
  intro Hop. destruct op; try discriminate; cbn [run_op].
  - apply (preserves_fetch_all cfg env has_reply_same);
      try exact has_reply_same_refl; try exact has_reply_same_trans;
      try exact has_reply_same_update;
      try (intros cd0 s id; apply upsert_has_reply_at);
      intros; try intro; apply has_reply_same_ext; reflexivity.
  - apply (preserves_sweep cfg env has_reply_same);
      try exact has_reply_same_refl; try exact has_reply_same_trans;
      intros; try intro; apply has_reply_same_ext; reflexivity.
  - apply process_comment_keeps_flags.
  - apply (preserves_reject_reply_parts env has_reply_same);
      try exact has_reply_same_refl; try exact has_reply_same_trans;
      intros; try intro; apply has_reply_same_ext; reflexivity.
  - apply (preserves_set_owner_active has_reply_same);
      try exact has_reply_same_refl; try exact has_reply_same_trans;
      intros; try intro; apply has_reply_same_ext; reflexivity.
Qed.

Lemma has_reply_same_run cfg env ops :
  forall st,
    forallb (fun op => negb (is_approve op)) ops = true ->
    has_reply_same st (run cfg env ops st).
Proof.
  induction ops as [| op ops IH]; intros st H.
  - apply has_reply_same_refl.
  - cbn [forallb] in H. apply andb_true_iff in H. destruct H as [H1 H2].
    apply negb_true_iff in H1. cbn [run fold_left].
    apply has_reply_same_trans with (run_op cfg env op st).
    + apply has_reply_same_op. exact H1.
    + apply IH. exact H2.
Qed.

Lemma comment_ids_kept_trans a b c :
  comment_ids_kept a b -> comment_ids_kept b c -> comment_ids_kept a c.
Proof. unfold comment_ids_kept. auto. Qed.

Lemma comment_ids_kept_ext : comments_only comment_ids_kept.
Proof. intros st st' H _ id. rewrite H. auto. Qed.

Lemma comment_ids_kept_update id f :
  (forall c, comment_id (f c) = comment_id c) ->
  preserves comment_ids_kept (crud_comment_update id f).
Proof.
  intros Hf st b. rewrite crud_comment_update_run. simpl.
  rewrite update_first_map; auto.
Qed.

Lemma comment_ids_kept_upsert cd :
  preserves comment_ids_kept (crud_comment_create_or_update cd).
Proof.
  intros st id.
  destruct (upsert_cases cd st)
    as [-> | [(p & k & e & _ & _ & F & ->) | (p & k & _ & _ & F & ->)]].
  - auto.
  - simpl. rewrite update_first_map; auto.
  - simpl. rewrite map_app. intro H. apply in_or_app. left. exact H.
Qed.

Lemma comment_ids_kept_run cfg env ops st :
  comment_ids_kept st (run cfg env ops st).
Proof.
  apply (comments_only_run cfg env comment_ids_kept).
  - exact comment_ids_kept_trans.
  - exact comment_ids_kept_ext.
  - exact comment_ids_kept_upsert.
  - intros id s. apply comment_ids_kept_update. reflexivity.
  - intro id. apply comment_ids_kept_update. reflexivity.
Qed.


Lemma pending_comment_listed st c :
  In c (comments st) -> has_reply c = false ->
  In c (rows (crud_comment_get_pending (List.length (comments st))) st).
Proof.
  intros Hin Hf. rewrite rows_comment_get_pending.
  rewrite firstn_all2.
  - apply in_rev. rewrite rev_involutive. apply filter_In.
    rewrite Hf. auto.
  - rewrite length_rev. apply filter_length_le.
Qed.

(** X9.  A comment leaves the list of comments without a reply through
    [approve_reply] only.  Whatever the fetch cycle, the sweep, the
    pipeline, rejection and the operator's switch do, posting included, a
    comment that [get_pending] lists is still listed afterwards; and once
    [approve_reply] has approved a reply of it, it is listed no more. *)
Theorem comment_listed_until_approved :
  forall (cfg : Settings) (env : Env),
    (forall ops st c,
       comments_wf st ->
       forallb (fun op => negb (is_approve op)) ops = true ->
       In c (rows (crud_comment_get_pending (List.length (comments st))) st) ->
       exists c',
         In c' (rows (crud_comment_get_pending
                        (List.length (comments (run cfg env ops st))))
                     (run cfg env ops st))
         /\ comment_id c' = comment_id c)
    /\ (forall id by_ st r cm,
          comments_wf st ->
          reply_at st id = Some r ->
          find (fun c => Nat.eqb (comment_id c) (r_comment_id r))
               (comments st) = Some cm ->
          forall limit c,
            In c (rows (crud_comment_get_pending limit)
                       (snd (approve_reply env id by_ st))) ->
            comment_id c <> r_comment_id r).
Proof.
  intros cfg env. split.
  - intros ops st c Hwf Hops Hin.
    rewrite rows_comment_get_pending in Hin.
    apply In_firstn in Hin. apply in_rev in Hin. apply filter_In in Hin.
    destruct Hin as [Hin Hflag]. apply negb_true_iff in Hflag.
    set (st' := run cfg env ops st).
    assert (Hwf' : comments_wf st') by (apply wf_kept_run; exact Hwf).
    assert (Hid : In (comment_id c) (map comment_id (comments st')))
      by (apply comment_ids_kept_run; apply in_map; exact Hin).
    apply in_map_iff in Hid. destruct Hid as (c' & Hc' & Hin').
    exists c'. split; [| exact Hc'].
    apply pending_comment_listed; [exact Hin' |].
    pose proof (has_reply_same_run cfg env ops st Hops (comment_id c)) as H.
    fold st' in H. unfold has_reply_at in H.
    rewrite (comment_at_self st c Hwf Hin) in H.
    rewrite <- Hc', (comment_at_self st' c' Hwf' Hin') in H. congruence.
  - intros id by_ st r cm (Hn & _ & _) Hr Hcm limit c Hin Hid.
    pose proof (approve_reply_run env id by_ st) as A.
    rewrite Hr in A. cbv zeta in A. rewrite A in Hin.
    rewrite rows_comment_get_pending in Hin.
    apply In_firstn in Hin. apply in_rev in Hin. apply filter_In in Hin.
    destruct Hin as [Hin Hflag].
    cbn [snd comments set_analytics set_comments] in Hin.
    destruct (update_first_hit comment_id (set_has_reply true)
                (comments st) (r_comment_id r) c Hn
                (fun _ => eq_refl) Hin Hid) as (x & _ & _ & ->).
    discriminate.
Qed.

Lemma comment_listed_until_approved_sample :
  exists c',
    In c' (rows (crud_comment_get_pending
                   (List.length
                      (comments (run default_settings sample_env
                                     [OpSweep; OpFetch] (backlog 1)))))
                (run default_settings sample_env [OpSweep; OpFetch]
                     (backlog 1)))
    /\ comment_id c' = 1%nat.
Proof.
  apply (proj1 (comment_listed_until_approved default_settings sample_env)
               [OpSweep; OpFetch] (backlog 1) (sample_comment_row 1)).
  - apply backlog_comments_wf.
  - reflexivity.
  - left. reflexivity.
Defined.


(** ** Comments that name no stored post *)

(** X11.  The fetch cycle passes over a comment whose metadata refers to no
    stored post of the comment's platform: nothing is stored, no model is
    called, nothing is posted.  This is the case of every comment whose
    metadata has none of the entries post_id, video_id and media_id, as the
    LinkedIn and Twitter adapters build them. *)
Theorem comment_without_stored_post_skipped :
  forall (cfg : Settings) (env : Env) (fplatform : string)
         (owner_active : bool) (cd : CommentData) (st : State)
         (platform : string),
    cd_platform cd = Some platform ->
    (forall ref,
       metadata_post_ref (cd_metadata cd) st = (Ok ref, st) ->
       find (post_has_key platform ref) (posts st) = None ->
       fetch_comment cfg env fplatform owner_active cd st = (Ok tt, st))
    /\ (metadata_post_ref (cd_metadata cd) st = (Ok None, st) ->
        fetch_comment cfg env fplatform owner_active cd st = (Ok tt, st)).
Proof.
  intros cfg env fplatform owner_active cd st platform Hp.
  assert (G : forall ref,
            metadata_post_ref (cd_metadata cd) st = (Ok ref, st) ->
            find (post_has_key platform ref) (posts st) = None ->
            fetch_comment cfg env fplatform owner_active cd st = (Ok tt, st)).
  { intros ref Hr Hf. unfold fetch_comment. rewrite Hp.
    cbn [subscript]. rewrite bind_ret_run.
    rewrite (bind_run _ _ _ _ _ Hr).
    unfold bind at 1. unfold crud_post_get_by_platform_id at 1.
    rewrite Hf. reflexivity. }
  split; [exact G |].
  intro Hr. apply (G None Hr).
  clear. induction (posts st) as [| p l IH]; [reflexivity | exact IH].
Qed.

Lemma comment_without_stored_post_skipped_linkedin :
  fetch_comment default_settings sample_env "linkedin" false linkedin_comment
    (snd (fetch_all_comments default_settings sample_env init))
  = (Ok tt, snd (fetch_all_comments default_settings sample_env init)).
Proof.
  apply (proj2 (comment_without_stored_post_skipped default_settings
                  sample_env "linkedin" false linkedin_comment
                  (snd (fetch_all_comments default_settings sample_env init))
                  "linkedin" eq_refl)).
  reflexivity.
Defined.

(** ** One row per post *)

Lemma posts_wf_same st st' :
  posts st' = posts st -> next_post_id st' = next_post_id st ->
  posts_wf_kept st st'.
Proof. unfold posts_wf_kept, posts_wf. intros -> ->. auto. Qed.

Lemma posts_wf_kept_refl st : posts_wf_kept st st.
Proof. intro H. exact H. Qed.

Lemma posts_wf_kept_trans a b c :
  posts_wf_kept a b -> posts_wf_kept b c -> posts_wf_kept a c.
Proof. unfold posts_wf_kept. auto. Qed.

Lemma post_has_key_eq platform ppid p :
  post_has_key platform (Some ppid) p = true
  <-> post_key_of p = (platform, ppid).
Proof.
  unfold post_has_key, post_key_of. rewrite andb_true_iff.
  rewrite !String.eqb_eq. split.
  - intros [-> ->]. reflexivity.
  - intro H. injection H as -> ->. auto.
Qed.

Lemma post_upsert_cases pd st :
  (exists e,
     find (post_has_key (pd_platform pd) (Some (pd_platform_post_id pd)))
          (posts st) = Some e
     /\ snd (crud_post_create_or_update pd st)
        = set_posts
            (update_first (fun p => Nat.eqb (post_id p) (post_id e))
                          (set_post_fields pd) (posts st))
            (next_post_id st) st)
  \/ (find (post_has_key (pd_platform pd) (Some (pd_platform_post_id pd)))
           (posts st) = None
      /\ pd_title pd = None
      /\ snd (crud_post_create_or_update pd st)
         = set_posts
             (posts st
              ++ [{| post_id := next_post_id st;
                     post_platform := pd_platform pd;
                     platform_post_id := pd_platform_post_id pd;
                     post_content := pd_content pd |}])
             (S (next_post_id st)) st)
  \/ (find (post_has_key (pd_platform pd) (Some (pd_platform_post_id pd)))
           (posts st) = None
      /\ pd_title pd <> None
      /\ crud_post_create_or_update pd st
         = (Raise (TypeError "'title' is an invalid keyword argument for Post"),
            st)).
Proof.
  unfold crud_post_create_or_update, crud_post_create.
  cbv [bind crud_post_get_by_platform_id].
  destruct (find _ (posts st)) as [e |] eqn:F.
  - left. exists e. split; reflexivity.
  - destruct (pd_title pd) as [title |].
    + right. right. split; [reflexivity |]. split; [discriminate |].
      reflexivity.
    + right. left. repeat split; reflexivity.
Qed.

Lemma posts_wf_kept_upsert pd :
  preserves posts_wf_kept (crud_post_create_or_update pd).
Proof.
  intros st (Hn & Hlt & Hk).
  destruct (post_upsert_cases pd st)
    as [(e & F & ->) | [(F & _ & ->) | (F & _ & ->)]];
    unfold posts_wf; simpl; [| | auto].
  - destruct (find_some _ _ F) as [He Hke].
    apply post_has_key_eq in Hke.
    split; [| split].
    + rewrite update_first_map; [exact Hn | reflexivity].
    + apply update_first_Forall; [| exact Hlt]. intros p Hp. exact Hp.
    + rewrite update_first_map; [exact Hk |].
      intros p Hp E. apply Nat.eqb_eq in E.
      assert (p = e) as ->
        by (apply (NoDup_map_inj post_id (posts st)); assumption).
      rewrite Hke. reflexivity.
  - rewrite !map_app. simpl. split; [| split].
    + apply NoDup_app_last; [exact Hn |].
      intro H. apply in_map_iff in H. destruct H as (p & E & Hp).
      rewrite Forall_forall in Hlt. specialize (Hlt p Hp). lia.
    + apply Forall_app. split.
      * eapply Forall_impl; [| exact Hlt]. simpl. intros; lia.
      * constructor; [simpl; lia | constructor].
    + apply NoDup_app_last; [exact Hk |].
      intro H. apply in_map_iff in H. destruct H as (p & E & Hp).
      pose proof (find_none _ _ F p Hp) as Hno.
      change (post_key_of p = (pd_platform pd, pd_platform_post_id pd)) in E.
      apply post_has_key_eq in E. congruence.
Qed.

Ltac posts_untouched :=
  repeat match goal with
         | |- forall _, _ => intro
         end;
  first [ apply posts_wf_same; reflexivity
        | intro; apply posts_wf_same; reflexivity ].

Lemma posts_wf_kept_upsert_comment cd :
  preserves posts_wf_kept (crud_comment_create_or_update cd).
Proof.
  intro st.
  destruct (upsert_cases cd st)
    as [-> | [(p & k & e & _ & _ & F & ->) | (p & k & _ & _ & F & ->)]];
    apply posts_wf_same; reflexivity.
Qed.

Lemma posts_wf_kept_comment_update id f :
  preserves posts_wf_kept (crud_comment_update id f).
Proof.
  intro st. rewrite crud_comment_update_run. apply posts_wf_same; reflexivity.
Qed.

Lemma posts_wf_kept_reply_update id f :
  preserves posts_wf_kept (crud_reply_update id f).
Proof.
  intro st. rewrite crud_reply_update_run. apply posts_wf_same; reflexivity.
Qed.

Lemma posts_wf_kept_mark_posted env id prid :
  preserves posts_wf_kept (crud_reply_mark_as_posted env id prid).
Proof.
  intro st. rewrite crud_reply_mark_as_posted_run.
  apply posts_wf_kept_reply_update.
Qed.

Lemma posts_wf_kept_approve env id by_ :
  preserves posts_wf_kept (crud_reply_approve env id by_).
Proof.
  intro st. rewrite crud_reply_approve_run.
  apply posts_wf_kept_reply_update.
Qed.

Lemma posts_wf_kept_bind {A B} (m : M A) (f : A -> M B) :
  preserves posts_wf_kept m -> (forall a, preserves posts_wf_kept (f a)) ->
  preserves posts_wf_kept (bind m f).
Proof. apply (preserves_bind posts_wf_kept posts_wf_kept_trans). Qed.

Section PostRows.

Variable cfg : Settings.
Variable env : Env.

Lemma posts_wf_kept_fetch_comment platform owner_active cd :
  preserves posts_wf_kept (fetch_comment cfg env platform owner_active cd).
Proof.
  apply (preserves_fetch_comment cfg env posts_wf_kept);
    try exact posts_wf_kept_refl; try exact posts_wf_kept_trans;
    try exact posts_wf_kept_upsert_comment;
    try exact (posts_wf_kept_mark_posted env);
    try (intros; apply posts_wf_kept_comment_update);
    posts_untouched.
Qed.

Lemma posts_wf_kept_fetch_platform platform owner_active :
  preserves posts_wf_kept
    (_fetch_platform_data cfg env platform owner_active).
Proof.
  unfold _fetch_platform_data.
  apply posts_wf_kept_bind.
  { destruct (mem platform PLATFORMS).
    - posts_untouched.
    - intro st. apply posts_wf_kept_refl. }
  intro new_posts. apply posts_wf_kept_bind.
  { apply (preserves_fetch_comments_of env posts_wf_kept).
    - exact posts_wf_kept_refl.
    - exact posts_wf_kept_trans.
    - posts_untouched. }
  intro new_comments. apply posts_wf_kept_bind.
  { apply (preserves_for_each posts_wf_kept posts_wf_kept_refl
             posts_wf_kept_trans).
    intro pd. apply posts_wf_kept_bind.
    - apply posts_wf_kept_upsert.
    - intro a. apply posts_wf_kept_bind.
      + apply (preserves_reads posts_wf_kept posts_wf_kept_refl).
        auto with frame.
      + intro. intro st. apply posts_wf_kept_refl. }
  intros _. apply posts_wf_kept_bind.
  { apply (preserves_for_each posts_wf_kept posts_wf_kept_refl
             posts_wf_kept_trans).
    intro cd. apply posts_wf_kept_fetch_comment. }
  intros _. apply posts_wf_kept_bind.
  { apply (preserves_reads posts_wf_kept posts_wf_kept_refl).
    auto with frame. }
  intro t. posts_untouched.
Qed.

Lemma posts_wf_kept_op op st : posts_wf_kept st (run_op cfg env op st).
Proof.
  destruct op; cbn [run_op].
  - unfold fetch_all_comments. apply posts_wf_kept_bind.
    { apply (preserves_reads posts_wf_kept posts_wf_kept_refl).
      auto with frame. }
    intro owner_active.
    apply (preserves_for_each posts_wf_kept posts_wf_kept_refl
             posts_wf_kept_trans).
    intro platform. destruct (is_configured env platform).
    + apply (preserves_catch posts_wf_kept posts_wf_kept_trans).
      * apply posts_wf_kept_fetch_platform.
      * intros e s. apply posts_wf_kept_refl.
    + intro s. apply posts_wf_kept_refl.
  - apply (preserves_sweep cfg env posts_wf_kept);
      try exact posts_wf_kept_refl; try exact posts_wf_kept_trans;
      try exact (posts_wf_kept_mark_posted env);
      try exact (posts_wf_kept_approve env); posts_untouched.
  - apply (preserves_process_comment cfg env posts_wf_kept);
      try exact posts_wf_kept_refl; try exact posts_wf_kept_trans;
      try exact posts_wf_kept_upsert_comment;
      try (intros; apply posts_wf_kept_comment_update);
      posts_untouched.
  - apply (preserves_approve_reply_parts env posts_wf_kept);
      try exact posts_wf_kept_refl; try exact posts_wf_kept_trans;
      try exact (posts_wf_kept_approve env);
      try (intros; apply posts_wf_kept_comment_update);
      posts_untouched.
  - apply (preserves_reject_reply_parts env posts_wf_kept);
      try exact posts_wf_kept_refl; try exact posts_wf_kept_trans;
      try (intros; apply posts_wf_kept_reply_update);
      posts_untouched.
  - apply (preserves_set_owner_active posts_wf_kept);
      try exact posts_wf_kept_refl; try exact posts_wf_kept_trans;
      posts_untouched.
Qed.

Lemma posts_wf_kept_run ops :
  forall st, posts_wf_kept st (run cfg env ops st).
Proof.
  induction ops as [| op ops IH]; intro st.
  - apply posts_wf_kept_refl.
  - cbn [run fold_left].
    apply posts_wf_kept_trans with (run_op cfg env op st).
    + apply posts_wf_kept_op.
    + apply IH.
Qed.

End PostRows.

Lemma posts_wf_init : posts_wf init.
Proof. unfold posts_wf. simpl. repeat split; constructor. Qed.

Lemma NoDup_post_keys_filter (l : list Post) platform ppid :
  NoDup (map post_key_of l) ->
  (List.length (filter (post_has_key platform (Some ppid)) l) <= 1)%nat.
Proof.
  induction l as [| p l IH]; cbn [filter map]; intro H; [simpl; lia |].
  inversion H as [| ? ? Hn Hd]; subst.
  destruct (post_has_key platform (Some ppid) p) eqn:E; [| auto].
  apply post_has_key_eq in E.
  destruct (filter (post_has_key platform (Some ppid)) l) as [| c' l'] eqn:F;
    [simpl; lia |].
  exfalso. apply Hn.
  assert (Hc' : In c' (filter (post_has_key platform (Some ppid)) l))
    by (rewrite F; left; reflexivity).
  apply filter_In in Hc'. destruct Hc' as [Hin Hk].
  apply post_has_key_eq in Hk. rewrite E, <- Hk.
  apply in_map. exact Hin.
Qed.

(** X12.  After any sequence of fetch cycles and of any other operation,
    from the empty repository, at most one post row has a given (platform,
    platform_post_id).  Create-or-update keeps the keys and the primary keys
    distinct: for a stored key it changes that row and adds none, whatever
    the entries of the dict; for a key that is not stored it adds one row
    when the dict has no "title" entry, and with a "title" entry, as in
    every dict of the YouTube adapter, it raises [TypeError] and stores
    nothing. *)
Theorem post_identity_unique :
  forall (cfg : Settings) (env : Env),
    (forall ops platform ppid,
       (List.length (posts_with_key platform ppid (run cfg env ops init))
        <= 1)%nat)
    /\ (forall ops st, posts_wf st -> posts_wf (run cfg env ops st))
    /\ (forall pd st,
          posts_wf st -> posts_wf (snd (crud_post_create_or_update pd st)))
    /\ (forall pd st e,
          find (post_has_key (pd_platform pd) (Some (pd_platform_post_id pd)))
               (posts st) = Some e ->
          List.length (posts (snd (crud_post_create_or_update pd st)))
          = List.length (posts st)
          /\ exists p,
               fst (crud_post_create_or_update pd st) = Ok (Some p)
               /\ post_id p = post_id e)
    /\ (forall pd st,
          find (post_has_key (pd_platform pd) (Some (pd_platform_post_id pd)))
               (posts st) = None ->
          pd_title pd = None ->
          List.length (posts (snd (crud_post_create_or_update pd st)))
          = S (List.length (posts st))
          /\ exists p,
               fst (crud_post_create_or_update pd st) = Ok (Some p)
               /\ post_id p = next_post_id st
               /\ post_key_of p = (pd_platform pd, pd_platform_post_id pd)
               /\ In p (posts (snd (crud_post_create_or_update pd st))))
    /\ (forall pd st title,
          find (post_has_key (pd_platform pd) (Some (pd_platform_post_id pd)))
               (posts st) = None ->
          pd_title pd = Some title ->
          crud_post_create_or_update pd st
          = (Raise (TypeError "'title' is an invalid keyword argument for Post"),
             st)).
Proof.
  intros cfg env. split; [| split; [| split; [| split; [| split]]]].
  - intros ops platform ppid. unfold posts_with_key.
    apply NoDup_post_keys_filter.
    apply (posts_wf_kept_run cfg env ops init posts_wf_init).
  - intros ops st. apply posts_wf_kept_run.
  - intros pd st. apply posts_wf_kept_upsert.
  - intros pd st e F.
    destruct (post_upsert_cases pd st)
      as [(e' & F' & E) | [(F' & _) | (F' & _)]]; [| congruence | congruence].
    rewrite F in F'. injection F' as <-. split.
    + rewrite E. simpl. apply update_first_length.
    + unfold crud_post_create_or_update.
      unfold bind at 1. unfold crud_post_get_by_platform_id at 1.
      rewrite F. unfold crud_post_update, bind, modify, crud_post_get.
      cbn [fst posts set_posts].
      rewrite (find_update_first post_id _ (posts st) (post_id e)
                 (post_id e)) by reflexivity.
      destruct (find_some _ _ F) as [He _].
      destruct (find_exists (fun p => Nat.eqb (post_id p) (post_id e))
                  (posts st) e He (Nat.eqb_refl _)) as (y & Hy).
      rewrite Hy. cbn [option_map]. rewrite Nat.eqb_refl.
      eexists. split; [reflexivity |].
      destruct (find_some _ _ Hy) as [_ Ey]. apply Nat.eqb_eq in Ey.
      exact Ey.
  - intros pd st F T.
    assert (E : crud_post_create_or_update pd st
                = (Ok (Some {| post_id := next_post_id st;
                               post_platform := pd_platform pd;
                               platform_post_id := pd_platform_post_id pd;
                               post_content := pd_content pd |}),
                   set_posts
                     (posts st
                      ++ [{| post_id := next_post_id st;
                             post_platform := pd_platform pd;
                             platform_post_id := pd_platform_post_id pd;
                             post_content := pd_content pd |}])
                     (S (next_post_id st)) st)).
    { unfold crud_post_create_or_update, crud_post_create.
      unfold bind at 1. unfold crud_post_get_by_platform_id at 1.
      rewrite F, T. reflexivity. }
    rewrite E. cbn [fst snd posts set_posts]. split.
    + rewrite length_app. simpl. lia.
    + eexists. split; [reflexivity |]. split; [reflexivity |].
      split; [reflexivity |]. apply in_or_app. right. left. reflexivity.
  - intros pd st title F T.
    unfold crud_post_create_or_update, crud_post_create.
    unfold bind at 1. unfold crud_post_get_by_platform_id at 1.
    rewrite F, T. reflexivity.
Qed.

Lemma post_identity_unique_sample :
  List.length
    (posts (snd (crud_post_create_or_update
                   {| pd_platform := "facebook"; pd_platform_post_id := "p1";
                      pd_content := Some "A video, edited";
                      pd_title := None |}
                   (snd (fetch_all_comments default_settings sample_env
                           init)))))
  = List.length
      (posts (snd (fetch_all_comments default_settings sample_env init)))
  /\ crud_post_create_or_update youtube_video init
     = (Raise (TypeError "'title' is an invalid keyword argument for Post"),
        init).
Proof.
  split.
  - apply (proj1 (proj2 (proj2 (proj2
             (post_identity_unique default_settings sample_env))))
           {| pd_platform := "facebook"; pd_platform_post_id := "p1";
              pd_content := Some "A video, edited"; pd_title := None |}
           (snd (fetch_all_comments default_settings sample_env init))
           {| post_id := 1; post_platform := "facebook";
              platform_post_id := "p1"; post_content := Some "A video" |}).
    reflexivity.
  - apply (proj2 (proj2 (proj2 (proj2 (proj2
             (post_identity_unique default_settings sample_env)))))
           youtube_video init "Sunday talk").
    + reflexivity.
    + reflexivity.
Defined.

(** ** A pending reply without a confidence *)

Lemma for_each_app {A} (l1 l2 : list A) (body : A -> M unit) st :
  for_each (l1 ++ l2) body st
  = bind (for_each l1 body) (fun _ => for_each l2 body) st.
Proof.
  revert st. induction l1 as [| x l1 IH]; intro st; simpl.
  - reflexivity.
  - rewrite bind_assoc_run. unfold bind at 1 2.
    destruct (body x st) as [[[] | e] s1]; [apply IH | reflexivity].
Qed.

Lemma sweep_loop_returns cfg env l :
  Forall (fun x => r_confidence x <> None) l ->
  forall st, fst (for_each l (sweep_reply cfg env) st) = Ok tt.
Proof.
  induction 1 as [| r l Hr Hl IH]; intro st; simpl; [reflexivity |].
  destruct (r_confidence r) as [c |] eqn:Hc; [| congruence].
  destruct (sweep_reply_run cfg env r c st Hc) as (st' & E & _).
  rewrite (bind_run _ _ _ _ _ E). apply IH.
Qed.

(** X13.  The sweep compares the confidence of each pending reply with the
    threshold outside any [try]: at a pending reply without a confidence it
    raises, after having handled the replies before it in the batch and
    without examining those after it. *)
Theorem sweep_stops_at_reply_without_confidence :
  forall (cfg : Settings) (env : Env) (st : State)
         (l1 l2 : list Reply) (r : Reply),
    crud_settings_get_owner_active st = (Ok false, st) ->
    rows (crud_reply_get_pending 50) st = (l1 ++ r :: l2)%list ->
    Forall (fun x => r_confidence x <> None) l1 ->
    r_confidence r = None ->
    process_pending_replies cfg env st
    = (Raise (TypeError "'>=' not supported"),
       snd (for_each l1 (sweep_reply cfg env) st)).
Proof.
  intros cfg env st l1 l2 r Ho Hb Hl Hr.
  unfold process_pending_replies. rewrite (bind_run _ _ _ _ _ Ho).
  cbn [negb]. unfold bind at 1. unfold crud_reply_get_pending at 1.
  change (firstn 50 (rev (filter (fun r0 => String.eqb (status r0) "pending")
                                 (replies st))))
    with (rows (crud_reply_get_pending 50) st).
  rewrite Hb, for_each_app. unfold bind at 1.
  pose proof (sweep_loop_returns cfg env l1 Hl st) as H1.
  destruct (for_each l1 (sweep_reply cfg env) st) as [[[] | e] s1];
    cbn [fst snd] in *; [| discriminate].
  cbn [for_each]. unfold bind at 1. unfold sweep_reply at 1.
  rewrite Hr. reflexivity.
Qed.

Lemma sweep_stops_at_reply_without_confidence_sample :
  fst (process_pending_replies default_settings sample_env
         backlog_with_manual_reply)
  = Raise (TypeError "'>=' not supported")
  /\ map status
       (replies (snd (process_pending_replies default_settings sample_env
                        backlog_with_manual_reply)))
     = ["pending"; "pending"; "posted"].
Proof.
  rewrite (sweep_stops_at_reply_without_confidence default_settings
             sample_env backlog_with_manual_reply
             [pending_reply 3] [pending_reply 1] (manual_reply 2)).
  - split; vm_compute; reflexivity.
  - reflexivity.
  - reflexivity.
  - constructor; [discriminate | constructor].
  - reflexivity.
Defined.


(** ** Confidence of a generated reply *)

Lemma confidence_cases comment_type reply :
  let c := _calculate_confidence comment_type reply in
  (c = Qmin (Qmax (0.7 + 0.15 + 0.05) 0.1) 1.0
   \/ c = Qmin (Qmax (0.7 + 0.15) 0.1) 1.0
   \/ c = Qmin (Qmax (0.7 - 0.1 + 0.05) 0.1) 1.0
   \/ c = Qmin (Qmax (0.7 - 0.1) 0.1) 1.0
   \/ c = Qmin (Qmax (0.7 + 0.05) 0.1) 1.0
   \/ c = Qmin (Qmax 0.7 0.1) 1.0)%Q.
Proof.
  unfold _calculate_confidence.
  destruct (mem comment_type ["praise"; "general"]),
    (mem comment_type ["lead"; "complaint"]),
    ((20 <=? word_count reply)%nat && (word_count reply <=? 50)%nat);
    cbv zeta; tauto.
Qed.

Ltac qdec :=
  first [ vm_compute; reflexivity
        | vm_compute; discriminate
        | vm_compute; intro; discriminate ].

Lemma confidence_high comment_type reply :
  mem comment_type ["praise"; "general"] = true ->
  (0.85 <= _calculate_confidence comment_type reply)%Q.
Proof.
  intro H. unfold _calculate_confidence. rewrite H. cbv zeta.
  destruct ((20 <=? word_count reply)%nat && (word_count reply <=? 50)%nat);
    qdec.
Qed.

Lemma confidence_low comment_type reply :
  mem comment_type ["praise"; "general"] = false ->
  (_calculate_confidence comment_type reply <= 0.75)%Q.
Proof.
  intro H. unfold _calculate_confidence. rewrite H. cbv zeta.
  destruct (mem comment_type ["lead"; "complaint"]),
    ((20 <=? word_count reply)%nat && (word_count reply <=? 50)%nat);
    qdec.
Qed.

(** X16.  The confidence of a generated reply is 0.7, plus 0.15 for praise
    and general or minus 0.1 for lead and complaint, plus 0.05 for a reply
    of 20 to 50 words: it lies between 0.6 and 0.9, so that the clamping to
    [0.1, 1.0] never applies, and it reaches 0.8 exactly for praise and
    general. *)
Theorem calculate_confidence_range :
  forall (comment_type reply : string),
    let c := _calculate_confidence comment_type reply in
    (0.6 <= c)%Q /\ (c <= 0.9)%Q
    /\ (c == 0.7
             + (if mem comment_type ["praise"; "general"] then 0.15
                else if mem comment_type ["lead"; "complaint"] then - 0.1
                     else 0)
             + (if (20 <=? word_count reply)%nat
                   && (word_count reply <=? 50)%nat
                then 0.05 else 0))%Q
    /\ Qge_bool c 0.8 = mem comment_type ["praise"; "general"].
Proof.
  intros comment_type reply c. subst c. unfold _calculate_confidence.
  destruct (mem comment_type ["praise"; "general"]),
    (mem comment_type ["lead"; "complaint"]),
    ((20 <=? word_count reply)%nat && (word_count reply <=? 50)%nat);
    cbv zeta; repeat split; qdec.
Qed.

(** X17.  With a threshold above 0.75 and at most 0.85, as the default 0.8
    is, a generated reply needs no approval exactly when the category is
    praise or general: the other categories that [_needs_approval] would let
    through at a high confidence (question, spam) never reach it, and a
    fallback reply always needs approval. *)
Theorem auto_approval_is_praise_or_general :
  forall (cfg : Settings) (env : Env) (text ty platform : string)
         (ctx : option string) (author : string) (st : State),
    (0.75 < auto_approve_confidence cfg)%Q ->
    (auto_approve_confidence cfg <= 0.85)%Q ->
    exists rr,
      fst (generate_reply cfg env text ty platform ctx author st) = Ok rr
      /\ rr_needs_approval rr
         = negb (negb (rr_error rr) && mem ty ["praise"; "general"]).
Proof.
  intros cfg env text ty platform ctx author st Hlo Hhi.
  unfold generate_reply, bind, external.
  destruct (generate_response env (List.length (trace st))) as [content |];
    [| eexists; split; reflexivity].
  eexists. split; [reflexivity |].
  cbn [rr_needs_approval rr_error negb andb]. unfold _needs_approval.
  destruct (mem ty ["praise"; "general"]) eqn:Hm; cbn [andb negb].
  - assert (G : Qge_bool (_calculate_confidence ty (strip content))
                         (auto_approve_confidence cfg) = true).
    { apply Qge_bool_iff. eapply Qle_trans; [exact Hhi |].
      apply confidence_high. exact Hm. }
    rewrite G. reflexivity.
  - destruct (mem ty ["complaint"; "lead"]); [reflexivity |].
    apply Qlt_bool_iff. eapply Qle_lt_trans; [| exact Hlo].
    apply confidence_low. exact Hm.
Qed.

Lemma auto_approval_is_praise_or_general_default :
  exists rr,
    fst (generate_reply default_settings sample_env "is it on sale?"
           "question" "youtube" None "Ann" init) = Ok rr
    /\ rr_needs_approval rr
       = negb (negb (rr_error rr) && mem "question" ["praise"; "general"]).
Proof.
  apply (auto_approval_is_praise_or_general default_settings sample_env
           "is it on sale?" "question" "youtube" None "Ann" init).
  - reflexivity.
  - vm_compute. discriminate.
Defined.

(** ** Triggers *)

(** X18.  [_detect_triggers] builds its two lists in step: the i-th workflow
    goes with the i-th tag, at most four of each; a lead always gets
    "hot_lead", a complaint "needs_support", a praise "happy_customer".  Of
    the workflow names it can emit, "lead_nurture" is the one for which
    [GHLManager._get_workflow_id] has no id. *)
Theorem detect_triggers_pairs :
  forall (comment reply comment_type : string),
    let t := _detect_triggers comment reply comment_type in
    incl (combine (tags t) (workflows t))
         [("hot_lead", "lead_nurture"); ("needs_support", "customer_service");
          ("happy_customer", "testimonial_request");
          ("high_value_prospect", "sales_followup")]
    /\ List.length (tags t) = List.length (workflows t)
    /\ (List.length (workflows t) <= 4)%nat
    /\ (comment_type = "lead" -> In "lead_nurture" (workflows t))
    /\ (comment_type = "complaint" -> In "customer_service" (workflows t))
    /\ (comment_type = "praise" -> In "testimonial_request" (workflows t))
    /\ (forall w, In w (workflows t) ->
                  (_get_workflow_id w = None <-> w = "lead_nurture")).
Proof.
  intros comment reply comment_type t. subst t. unfold _detect_triggers.
  cbv zeta. cbn [tags workflows].
  set (combined := lower (comment ++ " " ++ reply)).
  split; [| split; [| split; [| split; [| split; [| split]]]]].
  - destruct (String.eqb comment_type "lead" || any_in _ combined),
      (String.eqb comment_type "complaint" || any_in _ combined),
      (String.eqb comment_type "praise"), (any_in _ combined);
      cbn [app combine]; intros x Hx; simpl in Hx |- *; tauto.
  - destruct (String.eqb comment_type "lead" || any_in _ combined),
      (String.eqb comment_type "complaint" || any_in _ combined),
      (String.eqb comment_type "praise"), (any_in _ combined); reflexivity.
  - destruct (String.eqb comment_type "lead" || any_in _ combined),
      (String.eqb comment_type "complaint" || any_in _ combined),
      (String.eqb comment_type "praise"), (any_in _ combined); simpl; lia.
  - intros ->. cbn [String.eqb Ascii.eqb Bool.eqb orb app]. left. reflexivity.
  - intros ->. simpl String.eqb. cbn [orb].
    destruct (any_in _ combined); cbn [app]; simpl; tauto.
  - intros ->. simpl String.eqb.
    destruct (any_in ["interested"; "price"; "buy"; "info"] combined),
      (any_in ["help"; "problem"; "issue"] combined); cbn [app orb]; simpl; tauto.
  - intros w Hw.
    assert (K : In w ["lead_nurture"; "customer_service";
                      "testimonial_request"; "sales_followup"]).
    { destruct (String.eqb comment_type "lead" || any_in _ combined),
        (String.eqb comment_type "complaint" || any_in _ combined),
        (String.eqb comment_type "praise"), (any_in _ combined);
        simpl in Hw |- *; tauto. }
    simpl in K. destruct K as [<- | [<- | [<- | [<- | []]]]];
      split; intro H; try reflexivity; try discriminate.
Qed.

Lemma detect_triggers_pairs_lead :
  In "lead_nurture" (workflows (_detect_triggers "how much?" "DM me" "lead"))
  /\ _get_workflow_id "lead_nurture" = None.
Proof.
  pose proof (detect_triggers_pairs "how much?" "DM me" "lead") as H.
  cbv zeta in H. destruct H as (_ & _ & _ & Hl & _ & _ & Hw).
  split; [exact (Hl eq_refl) |].
  apply (Hw "lead_nurture" (Hl eq_refl)). reflexivity.
Defined.

(** ** The dashboard's test box *)

(** X19.  [test_reply_generation] never raises and writes nothing: the
    tables are as before.  It calls the model for the reply and for the
    sentiment, and for the classification only when no keyword matches: two
    or three calls. *)
Theorem test_reply_generation_writes_nothing :
  forall (cfg : Settings) (env : Env) (comment platform : string)
         (st : State),
    let st' := snd (test_reply_generation cfg env comment platform st) in
    (exists res,
       fst (test_reply_generation cfg env comment platform st) = Ok res)
    /\ same_tables st st'
    /\ trace st'
       = (trace st
          ++ match find (keyword_hit (lower comment)) COMMENT_TYPES with
             | Some _ => []
             | None => [ModelCall "classify" comment]
             end
          ++ [ModelCall "generate" comment; ModelCall "sentiment" comment])%list.
Proof.
  intros cfg env comment platform st st'. subst st'.
  unfold test_reply_generation, classify_comment.
  destruct (find (keyword_hit (lower comment)) COMMENT_TYPES)
    as [[ty kws] |].
  - rewrite bind_ret_run. cbn [fst snd].
    cbv beta iota zeta delta [generate_reply analyze_sentiment bind external
                              ret].
    destruct (generate_response env (List.length (trace st)));
      cbv beta iota zeta;
      match goal with
      | |- context [sentiment_response env ?n] =>
          destruct (sentiment_response env n)
      end;
      cbn [fst snd]; (split; [eexists; reflexivity |]);
      (split; [repeat split |]); simpl; rewrite <- app_assoc; reflexivity.
  - cbv beta iota zeta delta [generate_reply analyze_sentiment bind external
                              ret].
    destruct (classify_response env (List.length (trace st))) as [[ty c] |];
      cbv beta iota zeta;
      match goal with
      | |- context [generate_response env ?n] =>
          destruct (generate_response env n)
      end;
      cbv beta iota zeta;
      match goal with
      | |- context [sentiment_response env ?n] =>
          destruct (sentiment_response env n)
      end;
      cbn [fst snd]; (split; [eexists; reflexivity |]);
      (split; [repeat split |]); simpl; rewrite <- !app_assoc; reflexivity.
Qed.

(** ** A failure after the comment was stored *)

Lemma same_tables_trans a b c :
  same_tables a b -> same_tables b c -> same_tables a c.
Proof.
  intros (A1 & A2 & A3 & A4 & A5) (B1 & B2 & B3 & B4 & B5).
  repeat split; congruence.
Qed.

Lemma classify_comment_tables env text platform st :
  exists a st', classify_comment env text platform st = (Ok a, st')
                /\ same_tables st st'.
Proof.
  unfold classify_comment.
  destruct (find _ COMMENT_TYPES) as [[ty kws] |].
  - eexists. eexists. split; [reflexivity | apply same_tables_refl].
  - unfold bind, external.
    destruct (classify_response env _) as [[ty c] |];
      eexists; eexists; (split; [reflexivity | apply same_tables_emit]).
Qed.

Lemma upsert_stores cd st platform pcid :
  cd_platform cd = Some platform ->
  cd_platform_comment_id cd = Some pcid ->
  exists c st',
    crud_comment_create_or_update cd st = (Ok (Some c), st')
    /\ find (comment_has_key platform pcid) (comments st') <> None
    /\ replies st' = replies st.
Proof.
  intros Hp Hk.
  destruct (upsert_run cd st platform pcid Hp Hk) as (c & st' & E & _).
  exists c, st'. split; [exact E |].
  unfold crud_comment_create_or_update in E. rewrite Hp, Hk in E.
  cbn [subscript] in E. rewrite !bind_ret_run in E.
  unfold bind at 1 in E. unfold crud_comment_get_by_platform_id at 1 in E.
  destruct (find (comment_has_key platform pcid) (comments st))
    as [e |] eqn:F.
  - rewrite crud_comment_update_run in E. injection E as _ <-.
    cbn [comments replies set_comments]. split; [| reflexivity].
    destruct (find_some _ _ F) as [He Hke].
    destruct (update_first_keeps
                (fun c0 => Nat.eqb (comment_id c0) (comment_id e))
                (set_comment_fields platform pcid cd) (comments st) e He)
      as [H | H].
    + destruct (find_exists _ _ e H Hke) as (y & ->). discriminate.
    + assert (K : comment_has_key platform pcid
                    (set_comment_fields platform pcid cd e) = true).
      { unfold comment_has_key. simpl. rewrite !String.eqb_refl.
        reflexivity. }
      destruct (find_exists _ _ _ H K) as (y & ->). discriminate.
  - cbv [bind get_state modify ret] in E. injection E as _ <-.
    cbn [comments replies set_comments]. split; [| reflexivity].
    assert (K : comment_has_key platform pcid
                  (new_comment (next_comment_id st) platform pcid cd) = true).
    { unfold comment_has_key. simpl. rewrite !String.eqb_refl.
      reflexivity. }
    assert (H : In (new_comment (next_comment_id st) platform pcid cd)
                   (comments st
                    ++ [new_comment (next_comment_id st) platform pcid cd]))
      by (apply in_or_app; right; left; reflexivity).
    destruct (find_exists _ _ _ H K) as (y & ->). discriminate.
Qed.

(** X15.  When the sentiment answer parses but has no "sentiment" entry, the
    pipeline fails after it has stored the comment and before it creates a
    reply: the comment row is there, without a reply, one "processing_error"
    metric is recorded, and a fetch cycle that meets the comment again in
    that state passes over it, its key being stored: the comment is not
    processed again. *)
Theorem failure_after_store_is_not_retried :
  forall (cfg : Settings) (env : Env) (cd : CommentData) (st : State)
         (platform content pcid : string),
    cd_platform cd = Some platform ->
    cd_content cd = Some content ->
    cd_platform_comment_id cd = Some pcid ->
    cd_metadata cd <> Some MdOther ->
    (forall n, sentiment_response env n = Some None) ->
    let st' := snd (process_comment cfg env cd st) in
    fst (process_comment cfg env cd st)
    = Ok (ProcessFailed (KeyError "sentiment") (Some pcid))
    /\ find (comment_has_key platform pcid) (comments st') <> None
    /\ replies st' = replies st
    /\ List.length (analytics st') = S (List.length (analytics st))
    /\ (forall fplatform owner_active,
          snd (fetch_comment cfg env fplatform owner_active cd st') = st').
Proof.
  intros cfg env cd st platform content pcid Hp Hc Hk Hmd Hsent st'.
  assert (B : exists s,
            process_comment_body cfg env cd st
            = (Raise (KeyError "sentiment"), s)
            /\ find (comment_has_key platform pcid) (comments s) <> None
            /\ replies s = replies st).
  { unfold process_comment_body.
    rewrite Hp, Hc. cbn [subscript]. rewrite !bind_ret_run.
    destruct (post_context_of_run (cd_post_id cd) st) as (ctx & E1).
    rewrite (bind_run _ _ _ _ _ E1).
    destruct (classify_comment_tables env content platform st)
      as ([ty cl] & s1 & E2 & T1).
    rewrite (bind_run _ _ _ _ _ E2). cbn [fst snd].
    assert (E3 : match cd_metadata
                         (set_classification ty (cl_confidence cl) cd)
                 with
                 | Some MdOther =>
                     raise (TypeError "'metadata' is not a mapping")
                 | _ => ret tt
                 end s1 = (Ok tt, s1)).
    { simpl. destruct (cd_metadata cd) as [[] |]; try reflexivity.
      congruence. }
    rewrite (bind_run _ _ _ _ _ E3).
    destruct (upsert_stores (set_classification ty (cl_confidence cl) cd) s1
                platform pcid Hp Hk) as (c & s2 & E4 & F2 & R2).
    rewrite (bind_run _ _ _ _ _ E4).
    destruct (generate_reply_run cfg env content ty platform ctx
                (option_default "Unknown" (cd_author cd)) s2)
      as (rr & E5 & _).
    rewrite (bind_run _ _ _ _ _ E5).
    assert (E6 : analyze_sentiment env content
                   (emit (ModelCall "generate" content) s2)
                 = (Ok None,
                    emit (ModelCall "sentiment" content)
                         (emit (ModelCall "generate" content) s2))).
    { unfold analyze_sentiment, bind, external. rewrite Hsent. reflexivity. }
    rewrite (bind_run _ _ _ _ _ E6).
    cbn [attribute subscript]. rewrite bind_ret_run.
    eexists. split; [reflexivity |]. cbn [comments replies emit].
    split; [exact F2 |]. destruct T1 as (_ & _ & T & _). congruence. }
  destruct B as (s & E & F & R).
  assert (P : process_comment cfg env cd st
              = (Ok (ProcessFailed (KeyError "sentiment") (Some pcid)),
                 set_analytics
                   (analytics s
                    ++ [{| m_date := utcnow env (List.length (trace s));
                           m_platform := platform;
                           metric_type := "processing_error" |}]) s)).
  { unfold process_comment, catch. rewrite E, Hp, Hk. reflexivity. }
  pose proof (process_comment_records_metric cfg env cd st) as Hm.
  subst st'. rewrite P in Hm |- *.
  cbn [fst snd comments replies set_analytics].
  split; [reflexivity |]. split; [exact F |]. split; [exact R |].
  split.
  - exact Hm.
  - intros fplatform owner_active.
    destruct (find (comment_has_key platform pcid) (comments s))
      as [c |] eqn:Fc; [| congruence].
    apply (fetch_comment_known cfg env fplatform owner_active cd _
             platform pcid c Hp Hk). exact Fc.
Qed.

Lemma failure_after_store_is_not_retried_sample :
  fst (process_comment default_settings sentiment_keyless_env
         (sample_comment "c9" "nice video") init)
  = Ok (ProcessFailed (KeyError "sentiment") (Some "c9"))
  /\ List.length
       (comments (snd (process_comment default_settings sentiment_keyless_env
                         (sample_comment "c9" "nice video") init)))
     = 1%nat.
Proof.
  split.
  - apply (failure_after_store_is_not_retried default_settings
             sentiment_keyless_env (sample_comment "c9" "nice video") init
             "facebook" "nice video" "c9");
      try reflexivity; discriminate.
  - reflexivity.
Defined.




(** ** Lengths of strings *)

Lemma length_substring0 n s :
  String.length (substring 0 n s) = Nat.min n (String.length s).
Proof.
  revert s. induction n as [| n IH]; intros [| c s]; simpl; auto.
Qed.

Lemma length_append s1 s2 :
  String.length (s1 ++ s2) = (String.length s1 + String.length s2)%nat.
Proof. induction s1 as [| c s1 IH]; simpl; congruence. Qed.

Lemma length_slice_to stop s :
  Z.of_nat (String.length (slice_to stop s))
  = if (0 <=? stop)%Z then Z.min stop (Z.of_nat (String.length s))
    else Z.max 0 (Z.of_nat (String.length s) + stop).
Proof.
  unfold slice_to. destruct (0 <=? stop)%Z eqn:E;
    rewrite length_substring0; lia.
Qed.

Lemma truncate_text_cases text max_length suffix :
  ((Z.of_nat (String.length text) <= max_length)%Z ->
   truncate_text text max_length suffix = text)
  /\ ((Z.of_nat (String.length suffix) <= max_length)%Z ->
      (max_length < Z.of_nat (String.length text))%Z ->
      truncate_text text max_length suffix
      = substring 0 (Z.to_nat (max_length - Z.of_nat (String.length suffix)))
                  text ++ suffix
      /\ Z.of_nat (String.length (truncate_text text max_length suffix))
         = max_length)
  /\ ((max_length < Z.of_nat (String.length suffix))%Z ->
      (max_length < Z.of_nat (String.length text))%Z ->
      Z.of_nat (String.length (truncate_text text max_length suffix))
      = Z.max (Z.of_nat (String.length suffix))
              (Z.of_nat (String.length text) + max_length)
      /\ (max_length
          < Z.of_nat (String.length (truncate_text text max_length suffix)))%Z).
Proof.
  unfold truncate_text. split; [| split].
  - intro H. apply Z.leb_le in H. rewrite H. reflexivity.
  - intros Hk Hn.
    assert (E : (Z.of_nat (String.length text) <=? max_length)%Z = false)
      by (apply Z.leb_gt; exact Hn).
    rewrite E. split.
    + unfold slice_to.
      assert (E2 : (0 <=? max_length - Z.of_nat (String.length suffix))%Z
                   = true) by (apply Z.leb_le; lia).
      rewrite E2. reflexivity.
    + rewrite length_append, Nat2Z.inj_add, length_slice_to.
      destruct (0 <=? _)%Z eqn:E2; [lia |].
      apply Z.leb_gt in E2. lia.
  - intros Hk Hn.
    assert (E : (Z.of_nat (String.length text) <=? max_length)%Z = false)
      by (apply Z.leb_gt; exact Hn).
    rewrite E. rewrite length_append, Nat2Z.inj_add, length_slice_to.
    destruct (0 <=? _)%Z eqn:E2; [apply Z.leb_le in E2; lia |].
    lia.
Qed.

(** X20.  [truncate_text] returns a text that fits as it is.  A longer text
    is cut so that, with the suffix, it has exactly [max_length] characters,
    provided the suffix itself fits; when [max_length] is smaller than the
    suffix the cut is counted from the end of the text, and the result is
    longer than [max_length]. *)
Theorem truncate_text_length :
  forall (text : string) (max_length : Z) (suffix : string),
    let n := Z.of_nat (String.length text) in
    let k := Z.of_nat (String.length suffix) in
    let out := truncate_text text max_length suffix in
    ((n <= max_length)%Z -> out = text)
    /\ ((k <= max_length)%Z -> (max_length < n)%Z ->
        out = substring 0 (Z.to_nat (max_length - k)) text ++ suffix
        /\ Z.of_nat (String.length out) = max_length)
    /\ ((max_length < k)%Z -> (max_length < n)%Z ->
        Z.of_nat (String.length out) = Z.max k (n + max_length)
        /\ (max_length < Z.of_nat (String.length out))%Z).
Proof.
  intros text max_length suffix n k out. subst n k out.
  exact (truncate_text_cases text max_length suffix).
Qed.

Lemma truncate_text_length_sample :
  truncate_text "abcdefgh" 5 "..." = "ab..."
  /\ Z.of_nat (String.length (truncate_text "abcdefgh" 2 "...")) = 10%Z.
Proof.
  split.
  - apply (proj1 (proj2 (truncate_text_length "abcdefgh" 5 "..."))
                 ltac:(vm_compute; discriminate) ltac:(reflexivity)).
  - apply (proj1 (proj2 (proj2 (truncate_text_length "abcdefgh" 2 "..."))
                    ltac:(reflexivity) ltac:(reflexivity))).
Defined.

(** X21.  [sanitize_for_platform] uses the platform's limit unless a
    non-zero [max_length] is given.  A cleaned text within the limit is
    returned as it is.  A longer one is cut to [limit - 3] characters, the
    dots included, when the limit is at least 6, as every platform limit is;
    under a limit below 6 it comes out longer than the limit. *)
Theorem sanitize_for_platform_length :
  forall (text platform : string) (max_length : option Z),
    is_ascii_text text = true ->
    let limit := effective_limit platform max_length in
    let cleaned :=
      if String.eqb platform "instagram"
      then replace_char "010"%char " "%char (clean_text text)
      else clean_text text in
    let out := sanitize_for_platform text platform max_length in
    ((Z.of_nat (String.length cleaned) <= limit)%Z -> out = cleaned)
    /\ ((limit < Z.of_nat (String.length cleaned))%Z -> (6 <= limit)%Z ->
        Z.of_nat (String.length out) = (limit - 3)%Z)
    /\ ((limit < Z.of_nat (String.length cleaned))%Z -> (limit < 6)%Z ->
        (limit < Z.of_nat (String.length out))%Z)
    /\ ((max_length = None \/ max_length = Some 0%Z) ->
        (Z.of_nat (String.length out) <= limit)%Z
        /\ limit = platform_limit platform /\ (280 <= limit)%Z).
Proof.
  intros text platform max_length _ limit cleaned out.
  assert (Hout : out = if (limit <? Z.of_nat (String.length cleaned))%Z
                       then truncate_text cleaned (limit - 3) "..."
                       else cleaned) by reflexivity.
  pose proof (truncate_text_cases cleaned (limit - 3) "...") as T.
  change (Z.of_nat (String.length "...")) with 3%Z in T.
  destruct T as (_ & T2 & T3).
  assert (A : (Z.of_nat (String.length cleaned) <= limit)%Z -> out = cleaned).
  { intro H. rewrite Hout.
    assert (E : (limit <? Z.of_nat (String.length cleaned))%Z = false)
      by (apply Z.ltb_ge; exact H).
    rewrite E. reflexivity. }
  assert (B : (limit < Z.of_nat (String.length cleaned))%Z -> (6 <= limit)%Z ->
              Z.of_nat (String.length out) = (limit - 3)%Z).
  { intros H1 H2. rewrite Hout.
    assert (E : (limit <? Z.of_nat (String.length cleaned))%Z = true)
      by (apply Z.ltb_lt; exact H1).
    rewrite E. apply T2; lia. }
  split; [exact A |]. split; [exact B |]. split.
  - intros H1 H2. rewrite Hout.
    assert (E : (limit <? Z.of_nat (String.length cleaned))%Z = true)
      by (apply Z.ltb_lt; exact H1).
    rewrite E. destruct T3 as [T3 _]; [lia | lia |]. rewrite T3. lia.
  - intro Hm.
    assert (L : limit = platform_limit platform).
    { unfold limit, effective_limit. destruct Hm as [-> | ->]; reflexivity. }
    assert (P : (280 <= platform_limit platform)%Z).
    { unfold platform_limit, platform_limits. cbn [find fst snd].
      repeat match goal with
             | |- context [String.eqb ?a ?b] => destruct (String.eqb a b)
             end; cbn [snd]; lia. }
    split; [| split; [exact L | lia]].
    destruct (Z_le_gt_dec (Z.of_nat (String.length cleaned)) limit) as [H | H].
    + rewrite (A H). exact H.
    + rewrite B; lia.
Qed.

Lemma sanitize_for_platform_length_sample :
  Z.of_nat
    (String.length
       (sanitize_for_platform "Thanks a lot for watching, see the link"
                              "twitter" (Some 20%Z)))
  = 17%Z.
Proof.
  apply (proj1 (proj2 (sanitize_for_platform_length
                         "Thanks a lot for watching, see the link"
                         "twitter" (Some 20%Z) eq_refl))).
  - reflexivity.
  - vm_compute. discriminate.
Defined.

(** ** Batches *)

Lemma firstn_add {A} (a b : nat) (l : list A) :
  firstn (a + b) l = (firstn a l ++ firstn b (skipn a l))%list.
Proof.
  revert l. induction a as [| a IH]; intro l; [reflexivity |].
  destruct l as [| x l]; simpl.
  - destruct b; reflexivity.
  - rewrite IH. reflexivity.
Qed.

Lemma concat_chunks {A} (size m : nat) (l : list A) :
  List.concat (map (fun i => firstn size (skipn i l))
              (map (fun k => k * size)%nat (seq 0 m)))
  = firstn (m * size) l.
Proof.
  induction m as [| m IH]; [reflexivity |].
  rewrite seq_S, !map_app, List.concat_app, IH. simpl.
  rewrite app_nil_r, <- firstn_add. f_equal. lia.
Qed.

Lemma range_count (n size : nat) :
  (0 < size)%nat ->
  (n <= (n + size - 1) / size * size)%nat
  /\ ((n + size - 1) / size * size < n + size)%nat.
Proof.
  intro H.
  pose proof (Nat.div_mod_eq (n + size - 1) size) as E.
  pose proof (Nat.mod_upper_bound (n + size - 1) size) as U.
  nia.
Qed.

(** X22.  For a positive batch size [batch_process] cuts the list into
    consecutive batches: put end to end they give the list back, none is
    empty, all but the last have [batch_size] items and the last has at most
    as many.  A batch size of zero raises, and a negative one returns no
    batch at all, whatever the list. *)
Theorem batch_process_partition :
  forall (A : Type) (items : list A) (batch_size : Z),
    ((0 < batch_size)%Z ->
     exists batches,
       batch_process items batch_size = Some batches
       /\ List.concat batches = items
       /\ (Z.of_nat (List.length batches) * batch_size
           < Z.of_nat (List.length items) + batch_size)%Z
       /\ (forall i b,
             nth_error batches i = Some b ->
             (0 < List.length b)%nat
             /\ (Z.of_nat (List.length b) <= batch_size)%Z
             /\ ((S i < List.length batches)%nat ->
                 Z.of_nat (List.length b) = batch_size)))
    /\ (batch_size = 0%Z -> batch_process items batch_size = None)
    /\ ((batch_size < 0)%Z -> batch_process items batch_size = Some []).
Proof.
  intros A items batch_size. split; [| split].
  - intro Hpos. unfold batch_process.
    assert (E1 : (batch_size =? 0)%Z = false) by (apply Z.eqb_neq; lia).
    assert (E2 : (batch_size <? 0)%Z = false) by (apply Z.ltb_ge; lia).
    rewrite E1, E2. cbv zeta.
    set (size := Z.to_nat batch_size).
    assert (Hs : (0 < size)%nat) by (unfold size; lia).
    assert (Hz : batch_size = Z.of_nat size) by (unfold size; lia).
    destruct (range_count (List.length items) size Hs) as [R1 R2].
    set (m := ((List.length items + size - 1) / size)%nat) in *.
    eexists. split; [reflexivity |]. split; [| split].
    + unfold py_range. fold m. rewrite concat_chunks.
      apply firstn_all2. exact R1.
    + rewrite length_map. unfold py_range. rewrite length_map, length_seq.
      fold m. rewrite Hz. lia.
    + intros i b Hb. unfold py_range in Hb. fold m in Hb.
      rewrite map_map in Hb. rewrite nth_error_map in Hb.
      destruct (nth_error (seq 0 m) i) as [k |] eqn:Hk; [| discriminate].
      simpl in Hb. injection Hb as <-.
      assert (Hi : (i < List.length (seq 0 m))%nat).
      { apply nth_error_Some. rewrite Hk. discriminate. }
      rewrite length_seq in Hi.
      rewrite nth_error_nth' with (d := 0%nat) in Hk
        by (rewrite length_seq; exact Hi).
      injection Hk as <-. rewrite seq_nth by exact Hi. simpl Nat.add.
      rewrite length_firstn, length_skipn. unfold py_range. fold m.
      rewrite !length_map, length_seq. nia.
  - intros ->. reflexivity.
  - intro H. unfold batch_process.
    assert (E1 : (batch_size =? 0)%Z = false) by (apply Z.eqb_neq; lia).
    assert (E2 : (batch_size <? 0)%Z = true) by (apply Z.ltb_lt; lia).
    rewrite E1, E2. reflexivity.
Qed.

Lemma batch_process_partition_sample :
  exists batches,
    batch_process [1; 2; 3; 4; 5; 6; 7]%nat 3 = Some batches
    /\ List.concat batches = [1; 2; 3; 4; 5; 6; 7]%nat.
Proof.
  destruct (proj1 (batch_process_partition nat [1; 2; 3; 4; 5; 6; 7]%nat 3%Z)
              ltac:(reflexivity)) as (batches & H1 & H2 & _).
  exists batches. split; assumption.
Defined.

(** ** Identifiers *)

Lemma generate_comment_id_inj p1 c1 p2 c2 :
  has_underscore p1 = false -> has_underscore p2 = false ->
  generate_comment_id p1 c1 = generate_comment_id p2 c2 ->
  p1 = p2 /\ c1 = c2.
Proof.
  unfold generate_comment_id, has_underscore.
  revert p2. induction p1 as [| a p1 IH]; intros [| b p2];
    cbn [list_ascii_of_string existsb append].
  - intros _ _ H. injection H as ->. auto.
  - intros _ Hb H. injection H as <- _. simpl in Hb. discriminate.
  - intros Ha _ H. injection H as -> _. simpl in Ha. discriminate.
  - intros Ha Hb H. injection H as -> H.
    apply orb_false_iff in Ha, Hb. destruct Ha as [_ Ha], Hb as [_ Hb].
    destruct (IH p2 Ha Hb H) as [-> ->]. auto.
Qed.

(** X23.  [generate_comment_id] tells comments apart as long as the platform
    names have no underscore, as none of the five platforms has: equal
    identifiers then come from the same platform and the same comment id.
    With an underscore in a platform name two different comments can share
    an identifier. *)
Theorem generate_comment_id_injective :
  (forall p1 c1 p2 c2,
     has_underscore p1 = false -> has_underscore p2 = false ->
     generate_comment_id p1 c1 = generate_comment_id p2 c2 ->
     p1 = p2 /\ c1 = c2)
  /\ (forall p1 c1 p2 c2,
        In p1 PLATFORMS -> In p2 PLATFORMS ->
        generate_comment_id p1 c1 = generate_comment_id p2 c2 ->
        p1 = p2 /\ c1 = c2)
  /\ generate_comment_id "a_b" "c" = generate_comment_id "a" "b_c".
Proof.
  split; [exact generate_comment_id_inj |]. split; [| reflexivity].
  intros p1 c1 p2 c2 H1 H2. apply generate_comment_id_inj.
  - simpl in H1. repeat (destruct H1 as [<- | H1]; [reflexivity |]).
    destruct H1.
  - simpl in H2. repeat (destruct H2 as [<- | H2]; [reflexivity |]).
    destruct H2.
Qed.

Lemma generate_comment_id_injective_sample :
  "youtube" = "youtube" /\ "Ugx_1" = "Ugx_1".
Proof.
  apply (proj1 generate_comment_id_injective "youtube" "Ugx_1" "youtube"
               "Ugx_1"); reflexivity.
Defined.

(** ** Hashtags *)

Lemma is_word_char_lower c :
  is_word_char c = true -> is_word_char (lower_ascii c) = true.
Proof.
  destruct c as [[] [] [] [] [] [] [] []]; vm_compute; auto.
Qed.

Lemma lower_ascii_idem c : lower_ascii (lower_ascii c) = lower_ascii c.
Proof. destruct c as [[] [] [] [] [] [] [] []]; reflexivity. Qed.

Lemma lower_idem s : lower (lower s) = lower s.
Proof.
  induction s as [| c s IH]; simpl; [reflexivity |].
  rewrite lower_ascii_idem, IH. reflexivity.
Qed.

Lemma list_ascii_of_lower s :
  list_ascii_of_string (lower s) = map lower_ascii (list_ascii_of_string s).
Proof. induction s as [| c s IH]; simpl; congruence. Qed.

Lemma close_tag_shape run :
  (forall word, run = Some word -> forallb is_word_char word = true) ->
  Forall tag_shape (close_tag run).
Proof.
  intro H. destruct run as [[| c word] |]; simpl; constructor;
    [| constructor].
  specialize (H _ eq_refl).
  exists (string_of_list_ascii (rev (c :: word))). split; [reflexivity |].
  split.
  - intro E. apply (f_equal list_ascii_of_string) in E.
    rewrite list_ascii_of_string_of_list_ascii in E. simpl in E.
    destruct (rev word); discriminate.
  - rewrite list_ascii_of_string_of_list_ascii.
    apply forallb_forall. intros x Hx. apply in_rev in Hx.
    rewrite forallb_forall in H. apply H. exact Hx.
Qed.

Lemma findall_hashtags_shape l :
  forall run,
    (forall word, run = Some word -> forallb is_word_char word = true) ->
    Forall tag_shape (findall_hashtags run l).
Proof.
  induction l as [| c l IH]; intros run H; simpl.
  - apply close_tag_shape. exact H.
  - assert (K : forall word,
              (if Ascii.eqb c "#"%char then Some [] else None) = Some word ->
              forallb is_word_char word = true).
    { intros word E. destruct (Ascii.eqb c "#"%char); [| discriminate].
      injection E as <-. reflexivity. }
    destruct run as [word |].
    + destruct (is_word_char c) eqn:W.
      * apply IH. intros w E. injection E as <-. simpl.
        rewrite W. apply (H word eq_refl).
      * apply Forall_app. split; [apply close_tag_shape; exact H |].
        apply IH. exact K.
    + apply IH. exact K.
Qed.

Lemma findall_hashtags_none l :
  forallb (fun c => negb (Ascii.eqb c "#"%char)) l = true ->
  findall_hashtags None l = [].
Proof.
  induction l as [| c l IH]; simpl; [reflexivity |].
  intro H. apply andb_true_iff in H. destruct H as [H1 H2].
  apply negb_true_iff in H1. rewrite H1. apply IH. exact H2.
Qed.

(** X24.  Every hashtag that [extract_hashtags] returns is a '#' followed by
    at least one letter, digit or underscore and nothing else, in lower
    case; a text without '#' has none. *)
Theorem extract_hashtags_shape :
  forall (text : string),
    is_ascii_text text = true ->
    Forall (fun t => tag_shape t /\ lower t = t) (extract_hashtags text)
    /\ (forallb (fun c => negb (Ascii.eqb c "#"%char))
                (list_ascii_of_string text) = true ->
        extract_hashtags text = []).
Proof.
  intros text _. unfold extract_hashtags. split.
  - apply Forall_forall. intros t Ht. apply in_map_iff in Ht.
    destruct Ht as (t0 & <- & Ht0).
    pose proof (findall_hashtags_shape (list_ascii_of_string text) None) as F.
    rewrite Forall_forall in F.
    destruct (F ltac:(discriminate) t0 Ht0) as (w & -> & Hw & Hc).
    split; [| apply lower_idem].
    exists (lower w). split; [reflexivity |]. split.
    + destruct w; [congruence | discriminate].
    + rewrite list_ascii_of_lower. apply forallb_forall.
      intros x Hx. apply in_map_iff in Hx. destruct Hx as (y & <- & Hy).
      apply is_word_char_lower. rewrite forallb_forall in Hc. auto.
  - intro H. rewrite findall_hashtags_none by exact H. reflexivity.
Qed.

Lemma extract_hashtags_shape_sample :
  extract_hashtags "Faith and hope, every day" = [].
Proof.
  apply (proj2 (extract_hashtags_shape "Faith and hope, every day"
                  eq_refl)).
  reflexivity.
Defined.

(** ** Cleaned text *)

Lemma In_lstrip c l : In c (lstrip l) -> In c l.
Proof.
  induction l as [| x l IH]; simpl; [tauto |].
  destruct (is_space x); [intro H; right; auto | auto].
Qed.

Lemma lstrip_idem l : lstrip (lstrip l) = lstrip l.
Proof.
  induction l as [| x l IH]; simpl; [reflexivity |].
  destruct (is_space x) eqn:E; [exact IH |].
  simpl. rewrite E. reflexivity.
Qed.

Lemma lstrip_app_last l c :
  is_space c = false -> lstrip (l ++ [c]) = (lstrip l ++ [c])%list.
Proof.
  intro H. induction l as [| x l IH]; simpl.
  - rewrite H. reflexivity.
  - destruct (is_space x); [exact IH | reflexivity].
Qed.

Lemma lstrip_head l :
  lstrip l = [] \/ exists c l', lstrip l = c :: l' /\ is_space c = false.
Proof.
  induction l as [| x l IH]; simpl; [left; reflexivity |].
  destruct (is_space x) eqn:E; [exact IH |].
  right. exists x, l. auto.
Qed.

Lemma lstrip_rev_stripped l :
  lstrip (rev (lstrip (rev (lstrip l)))) = rev (lstrip (rev (lstrip l))).
Proof.
  destruct (lstrip_head l) as [-> | (c & a & -> & Hc)]; [reflexivity |].
  cbn [rev]. rewrite (lstrip_app_last _ _ Hc), rev_app_distr.
  simpl. rewrite Hc. reflexivity.
Qed.

Lemma strip_idem s : strip (strip s) = strip s.
Proof.
  unfold strip. rewrite list_ascii_of_string_of_list_ascii. f_equal.
  rewrite lstrip_rev_stripped, rev_involutive. apply lstrip_rev_stripped.
Qed.

Lemma In_strip c s :
  In c (list_ascii_of_string (strip s)) -> In c (list_ascii_of_string s).
Proof.
  unfold strip. rewrite list_ascii_of_string_of_list_ascii.
  intro H. apply in_rev in H. apply In_lstrip in H. apply in_rev in H.
  apply In_lstrip in H. exact H.
Qed.

Lemma split_from_words l :
  forall word,
    (forall c, In c word -> is_space c = false) ->
    Forall no_space (split_from word l).
Proof.
  induction l as [| x l IH]; intros word H; simpl.
  - destruct word; constructor; [| constructor].
    intros c Hc. rewrite list_ascii_of_string_of_list_ascii in Hc.
    apply in_rev in Hc. auto.
  - destruct (is_space x) eqn:E.
    + destruct word.
      * apply IH. intros c [].
      * constructor; [| apply IH; intros c []].
        intros c Hc. rewrite list_ascii_of_string_of_list_ascii in Hc.
        apply in_rev in Hc. auto.
    + apply IH. intros c [<- | Hc]; auto.
Qed.

Lemma list_ascii_of_append s1 s2 :
  list_ascii_of_string (s1 ++ s2)
  = (list_ascii_of_string s1 ++ list_ascii_of_string s2)%list.
Proof. induction s1 as [| c s1 IH]; simpl; congruence. Qed.

Lemma In_concat_words c words :
  In c (list_ascii_of_string (String.concat " " words)) ->
  c = " "%char \/ exists w, In w words /\ In c (list_ascii_of_string w).
Proof.
  induction words as [| w words IH]; [simpl; tauto |].
  destruct words as [| w' words].
  - simpl. intro H. right. exists w. auto.
  - change (String.concat " " (w :: w' :: words))
      with (w ++ " " ++ String.concat " " (w' :: words)).
    rewrite !list_ascii_of_append. intro H.
    apply in_app_or in H. destruct H as [H | H].
    + right. exists w. split; [left; reflexivity | exact H].
    + apply in_app_or in H. destruct H as [[<- | []] | H];
        [left; reflexivity |].
      destruct (IH H) as [-> | (x & Hx & Hc)]; [left; reflexivity |].
      right. exists x. split; [right; exact Hx | exact Hc].
Qed.

(** X25.  The text that [clean_text] returns is made of letters, digits,
    underscores, spaces and the characters .  , ! ? - # @ only; its only
    whitespace is the space character; and it neither begins nor ends with
    one. *)
Theorem clean_text_shape :
  forall (text : string),
    is_ascii_text text = true ->
    (forall c, In c (list_ascii_of_string (clean_text text)) ->
               is_kept_char c = true
               /\ (is_space c = true -> c = " "%char))
    /\ strip (clean_text text) = clean_text text.
Proof.
  intros text _. unfold clean_text. cbv zeta. split.
  - intros c Hc. apply In_strip in Hc. unfold filter_chars in Hc.
    rewrite list_ascii_of_string_of_list_ascii in Hc.
    apply filter_In in Hc. destruct Hc as [Hc Hk]. split; [exact Hk |].
    intro Hs. apply In_concat_words in Hc.
    destruct Hc as [-> | (w & Hw & Hc)]; [reflexivity |].
    pose proof (split_from_words (list_ascii_of_string text) []
                  ltac:(intros x [])) as F.
    rewrite Forall_forall in F. specialize (F w Hw c Hc). congruence.
  - apply strip_idem.
Qed.

Lemma clean_text_shape_sample :
  strip (clean_text "  Amen!!  <3 (great) $5  ")
  = clean_text "  Amen!!  <3 (great) $5  ".
Proof.
  apply (proj2 (clean_text_shape "  Amen!!  <3 (great) $5  " eq_refl)).
Defined.


(** ** Merged metadata *)

Lemma dict_get_set key value d key' :
  dict_get key' (dict_set key value d)
  = if String.eqb key key' then Some value else dict_get key' d.
Proof.
  induction d as [| [k v] d IH]; simpl.
  - reflexivity.
  - destruct (String.eqb k key) eqn:E; simpl.
    + apply String.eqb_eq in E. subst k.
      destruct (String.eqb key key'); reflexivity.
    + rewrite IH.
      destruct (String.eqb k key') eqn:E', (String.eqb key key') eqn:E'';
        try reflexivity.
      apply String.eqb_eq in E', E''. subst. rewrite String.eqb_refl in E.
      discriminate.
Qed.

Lemma dict_get_none key d :
  ~ In key (map fst d) -> dict_get key d = None.
Proof.
  induction d as [| [k v] d IH]; simpl; [reflexivity |].
  intro H. destruct (String.eqb k key) eqn:E.
  - apply String.eqb_eq in E. tauto.
  - apply IH. tauto.
Qed.

Lemma dict_set_keys key value d :
  map fst (dict_set key value d)
  = if existsb (String.eqb key) (map fst d) then map fst d
    else (map fst d ++ [key])%list.
Proof.
  induction d as [| [k v] d IH]; simpl; [reflexivity |].
  rewrite (String.eqb_sym key k).
  destruct (String.eqb k key); simpl; [reflexivity |].
  rewrite IH. destruct (existsb _ (map fst d)); reflexivity.
Qed.

Lemma merge_metadata_items existing new :
  merge_metadata existing new
  = merge_items (fun sub value => merge_json sub value) existing new.
Proof. reflexivity. Qed.

Lemma merge_items_get key items :
  NoDup (map fst items) ->
  forall merged,
    dict_get key
      (merge_items (fun sub value => merge_json sub value) merged items)
    = match dict_get key items with
      | Some value => Some (merged_value (dict_get key merged) value)
      | None => dict_get key merged
      end.
Proof.
  induction items as [| [k v] items IH]; intros Hn merged; simpl.
  - reflexivity.
  - inversion Hn as [| ? ? Hk Hn']; subst. rewrite (IH Hn').
    rewrite dict_get_set. destruct (String.eqb k key) eqn:E.
    + apply String.eqb_eq in E. subst k.
      rewrite (dict_get_none key items Hk).
      unfold merged_value.
      destruct (dict_get key merged) as [[| sub] |], v; reflexivity.
    + reflexivity.
Qed.

Lemma merge_items_keys items :
  forall merged,
    NoDup (map fst merged) ->
    NoDup (map fst
             (merge_items (fun sub value => merge_json sub value)
                          merged items))
    /\ (forall k, In k (map fst merged) ->
                  In k (map fst
                          (merge_items (fun sub value => merge_json sub value)
                                       merged items))).
Proof.
  induction items as [| [k v] items IH]; intros merged Hn; simpl.
  - auto.
  - match goal with
    | |- context [dict_set k ?x merged] =>
        pose proof (dict_set_keys k x merged) as K;
        destruct (IH (dict_set k x merged)) as [I1 I2]
    end.
    + rewrite K. destruct (existsb (String.eqb k) (map fst merged)) eqn:E;
        [exact Hn |].
      apply NoDup_app_last; [exact Hn |].
      intro H. assert (existsb (String.eqb k) (map fst merged) = true).
      { apply existsb_exists. exists k. split; [exact H |].
        apply String.eqb_refl. }
      congruence.
    + split; [exact I1 |].
      intros k' Hk'. apply I2. rewrite K.
      destruct (existsb (String.eqb k) (map fst merged)); [exact Hk' |].
      apply in_or_app. left. exact Hk'.
Qed.

(** X26.  [merge_metadata] reads back as follows: a key that [new] does not
    have keeps the value of [existing]; a key of [new] gets the value of
    [new], except that two dicts under the same key are merged in turn.  The
    keys of the result are distinct, those of [existing] are all there, and
    merging an empty dict changes nothing. *)
Theorem merge_metadata_get :
  forall (existing new : list (string * Json)),
    NoDup (map fst existing) -> NoDup (map fst new) ->
    (forall key,
       dict_get key (merge_metadata existing new)
       = match dict_get key new with
         | Some value => Some (merged_value (dict_get key existing) value)
         | None => dict_get key existing
         end)
    /\ NoDup (map fst (merge_metadata existing new))
    /\ (forall key, In key (map fst existing) ->
                    In key (map fst (merge_metadata existing new)))
    /\ merge_metadata existing [] = existing.
Proof.
  intros existing new He Hn. split; [| split; [| split]].
  - intro key. rewrite merge_metadata_items. apply merge_items_get.
    exact Hn.
  - rewrite merge_metadata_items. apply merge_items_keys. exact He.
  - rewrite merge_metadata_items. apply merge_items_keys. exact He.
  - reflexivity.
Qed.

Lemma merge_metadata_get_sample :
  dict_get "classification"
    (merge_metadata
       [("video_id", JValue "v1");
        ("classification", JDict [("method", JValue "keyword")])]
       [("classification", JDict [("confidence", JValue "0.85")]);
        ("sentiment_analysis", JDict [("sentiment", JValue "positive")])])
  = Some (JDict [("method", JValue "keyword");
                 ("confidence", JValue "0.85")]).
Proof.
  rewrite (proj1 (merge_metadata_get
                    [("video_id", JValue "v1");
                     ("classification", JDict [("method", JValue "keyword")])]
                    [("classification",
                      JDict [("confidence", JValue "0.85")]);
                     ("sentiment_analysis",
                      JDict [("sentiment", JValue "positive")])]
                    ltac:(repeat constructor; simpl; intuition discriminate)
                    ltac:(repeat constructor; simpl; intuition discriminate))).
  reflexivity.
Defined.


(** ** Exceptions in the fetch cycle *)

Lemma for_each_returns {A} (l : list A) (body : A -> M unit) :
  (forall x st, fst (body x st) = Ok tt) ->
  forall st, fst (for_each l body st) = Ok tt.
Proof.
  intro H. induction l as [| x l IH]; intro st; simpl; [reflexivity |].
  unfold bind. specialize (H x st).
  destruct (body x st) as [[[] | e] s1]; [apply IH | discriminate].
Qed.

(** X14.  The fetch cycle keeps the platforms apart: whatever a platform's
    fetch raises is caught, so that with a readable owner setting
    [fetch_all_comments] returns.  Inside one platform nothing is caught: a
    fetched comment without a "platform" entry ends the platform's loop, and
    the comments after it are not looked at in that cycle. *)
Theorem fetch_cycle_isolates_platforms :
  forall (cfg : Settings) (env : Env),
    (forall st owner_active,
       crud_settings_get_owner_active st = (Ok owner_active, st) ->
       fst (fetch_all_comments cfg env st) = Ok tt)
    /\ (forall platform owner_active cd rest st,
          cd_platform cd = None ->
          for_each (cd :: rest) (fetch_comment cfg env platform owner_active)
                   st
          = (Raise (KeyError "platform"), st)).
Proof.
  intros cfg env. split.
  - intros st owner_active H. unfold fetch_all_comments.
    rewrite (bind_run _ _ _ _ _ H). apply for_each_returns.
    intros platform s. destruct (is_configured env platform);
      [| reflexivity].
    unfold catch.
    destruct (_fetch_platform_data cfg env platform owner_active s)
      as [[[] | e] s1]; reflexivity.
  - intros platform owner_active cd rest st H.
    cbn [for_each]. unfold bind at 1. unfold fetch_comment at 1.
    rewrite H. reflexivity.
Qed.

Lemma fetch_cycle_isolates_platforms_sample :
  fst (fetch_all_comments default_settings sample_env owner_active_state)
  = Ok tt.
Proof.
  apply (proj1 (fetch_cycle_isolates_platforms default_settings sample_env)
               owner_active_state true).
  reflexivity.
Defined.
